(** * shadcn-hub: catalog store, search, browse and crawl trigger

    A shallow embedding of the backend of the component aggregator:
    the relational tables (drizzle schema), the queries the services
    issue against them, the search and component services, the crawl
    trigger route and the request validation schemas.

    Conventions.
    - A table is the list of its rows; [select ... where p] is
      [List.filter p], [.limit(n)] is [firstn n], an insert appends the
      row.  The selects of [SearchService.search] and of
      [SearchService.buildSearchIndex] carry no ORDER BY: the order in
      which the database yields their rows is the database's choice and
      an argument of the function ([Sql.yield]).
    - uuids, slugs and text columns are [string]; integer columns and
      JavaScript integers are [Z]; timestamps are milliseconds in [Z].
    - Values the program takes from its environment ([uuidv4()],
      [Date.now()], the reply of the database) are arguments of the
      function that uses them.
    - A database error (primary key, foreign key, varchar length,
      negative LIMIT) is an explicit error result, mapped to the
      [AppError] the enclosing [catch] throws.  So is a parameter the
      database cannot read: a text that holds a NUL byte, an integer
      outside the range of its column, a date it cannot parse; these
      fail when the statement is bound, whatever the rows.  The database
      is taken to be reachable: a well-formed read succeeds.  The ids
      stand for well-formed uuids. *)

From Stdlib Require Import String Ascii List ZArith Bool Lia QArith.
From stdpp Require Import base gmap strings.
Import ListNotations.

Local Open Scope string_scope.
Local Open Scope list_scope.
Local Open Scope Z_scope.

(** ** Results and errors *)

(** [AppError] of middleware/error.middleware. *)
Record AppError := mkAppError { statusCode : Z; message : string }.

Inductive Result (E A : Type) : Type :=
| Ok (a : A)
| Err (e : E).
Arguments Ok {E A} a.
Arguments Err {E A} e.

Definition bind_result {E A B} (r : Result E A) (k : A -> Result E B) : Result E B :=
  match r with
  | Ok a => k a
  | Err e => Err e
  end.

Notation "'let*' x ':=' r 'in' k" := (bind_result r (fun x => k))
  (at level 10, x name, r at level 100, k at level 200).

(** ** The tables (db/schema) *)

Definition uuid := string.
Definition timestamp := Z.

Module SourceWebsite.
Inductive crawlStatusEnum := pending | running | success | failed.
Record t := mk {
  id : uuid;
  name : string;
  url : string;
  slug : string;
  crawlStatus : crawlStatusEnum;
  componentCount : Z;
  isActive : bool;
}.
End SourceWebsite.

Module ComponentType.
Record t := mk {
  id : uuid;
  name : string;
  slug : string;
  displayOrder : Z;
}.
End ComponentType.

Module Component.
(** The columns that are NOT NULL, and [description].  The other
    nullable columns and those with a default that the code modelled
    here neither sets nor reads ([previewUrl], [thumbnailUrl],
    [codeLanguage], [dependencies], [props], [variants], [license],
    [author], [version], [lastUpdatedAt], [metadata]) are left to NULL
    or to their default. *)
Record t := mk {
  id : uuid;
  sourceWebsiteId : uuid;
  componentTypeId : uuid;
  name : string;
  slug : string;
  description : option string;
  sourceUrl : string;
  sourceCode : string;
  tags : list string;
  contentHash : string;
  isActive : bool;
  viewCount : Z;
  createdAt : timestamp;
  updatedAt : timestamp;
}.
End Component.

Module CrawlJob.
Inductive crawlJobStatusEnum := pending | running | success | failed | cancelled.

Definition status_eqb (a b : crawlJobStatusEnum) : bool :=
  match a, b with
  | pending, pending | running, running | success, success
  | failed, failed | cancelled, cancelled => true
  | _, _ => false
  end.

Record t := mk {
  id : uuid;
  sourceWebsiteId : uuid;
  status : crawlJobStatusEnum;
  startedAt : option timestamp;
  completedAt : option timestamp;
  componentsFound : Z;
  componentsUpdated : Z;
  componentsAdded : Z;
  componentsRemoved : Z;
  errorMessage : option string;
  createdAt : timestamp;
}.
End CrawlJob.

(** ** Queries *)

Module Sql.

(** ASCII case folding, as ILIKE does on both sides. *)
Definition lower (c : ascii) : ascii :=
  let n := nat_of_ascii c in
  if ((65 <=? n) && (n <=? 90))%nat then ascii_of_nat (n + 32) else c.

Definition ascii_ieqb (a b : ascii) : bool := Ascii.eqb (lower a) (lower b).

(** [like p s]: the string [s] matches the LIKE pattern [p], case
    folded: [%] matches any run of characters, [_] any one character,
    a backslash takes the next pattern character literally.  A pattern
    that ends in a lone backslash is rejected by the database; the
    patterns built below all end in [%]. *)
Fixpoint like (p : list ascii) : list ascii -> bool :=
  match p with
  | [] => fun s => match s with [] => true | _ :: _ => false end
  | c :: p' =>
      if Ascii.eqb c "%" then
        fix star (s : list ascii) : bool :=
          like p' s || match s with [] => false | _ :: s' => star s' end
      else if Ascii.eqb c "_" then
        fun s => match s with [] => false | _ :: s' => like p' s' end
      else if Ascii.eqb c "\" then
        match p' with
        | [] => fun _ => false
        | d :: p'' =>
            fun s => match s with
                     | [] => false
                     | e :: s' => ascii_ieqb d e && like p'' s'
                     end
        end
      else
        fun s => match s with
                 | [] => false
                 | e :: s' => ascii_ieqb c e && like p' s'
                 end
  end.

(** [ilike(column, pattern)] on a non-null text value. *)
Definition ilike (value pattern : string) : bool :=
  like (list_ascii_of_string pattern) (list_ascii_of_string value).

(** On a nullable column the comparison with NULL is NULL, which a
    WHERE clause (also under OR and AND) treats as not satisfied. *)
Definition ilike_nullable (value : option string) (pattern : string) : bool :=
  match value with
  | Some v => ilike v pattern
  | None => false
  end.

(** A text parameter or a text inside a jsonb parameter: PostgreSQL
    keeps no NUL byte in a text, and a statement that binds one fails
    (invalid byte sequence), whatever the rows. *)
Definition bindable (s : string) : bool :=
  negb (existsb (Ascii.eqb Ascii.zero) (list_ascii_of_string s)).

(** A [varchar(n)] parameter: the length is checked when the statement
    is planned with the parameter in place. *)
Definition varchar (n : Z) (s : string) : bool :=
  bindable s && (Z.of_nat (String.length s) <=? n).

(** An [integer] parameter. *)
Definition int4 (z : Z) : bool := (-2147483648 <=? z) && (z <=? 2147483647).

(** A [timestamp] parameter: a Date goes to the database as its ISO
    string, which the database reads for the years 1 to 9999. *)
Definition timestamptz (t : Z) : bool :=
  (-62135596800000 <=? t) && (t <=? 253402300799999).

(** A parameter that may be left out. *)
Definition optionally {A} (check : A -> bool) (o : option A) : bool :=
  match o with
  | Some a => check a
  | None => true
  end.

(** A SELECT without ORDER BY yields its rows in an order the database
    chooses (the plan, the layout of the table).  The choice is an
    argument of the query: [yield order rows] is [rows] rearranged, the
    first row placed at position [hd order] among the others, which are
    placed by [tl order].  With no picks the rows come in the order of
    the table; every rearrangement is the yield of some picks. *)
Fixpoint yield {A} (order : list nat) (rows : list A) : list A :=
  match rows with
  | [] => []
  | r :: rest =>
      let placed := yield (tl order) rest in
      firstn (hd 0%nat order) placed ++ r :: skipn (hd 0%nat order) placed
  end.

(** [.limit(n)]: the database rejects a negative LIMIT. *)
Definition limit {A} (n : Z) (rows : list A) : option (list A) :=
  if n <? 0 then None else Some (firstn (Z.to_nat n) rows).

(** [.offset(n)]: the database rejects a negative OFFSET. *)
Definition offset {A} (n : Z) (rows : list A) : option (list A) :=
  if n <? 0 then None else Some (skipn (Z.to_nat n) rows).

(** [a.leftJoin(b, on)]: every row of [a] with each row of [b] it
    matches, or once with NULL when it matches none. *)
Definition leftJoin {A B} (on : A -> B -> bool) (left : list A) (right : list B)
  : list (A * option B) :=
  flat_map (fun a =>
              match List.filter (on a) right with
              | [] => [(a, None)]
              | ms => map (fun b => (a, Some b)) ms
              end) left.

(** The text of a jsonb array of strings, as [tags::text] prints it:
    elements quoted, separated by a comma and a space. *)
Definition dquote : ascii := ascii_of_nat 34.

Definition hex_digit (n : nat) : ascii :=
  if (n <? 10)%nat then ascii_of_nat (48 + n) else ascii_of_nat (87 + n).

Definition json_escape_char (c : ascii) : list ascii :=
  let n := nat_of_ascii c in
  if Ascii.eqb c dquote then ["\"%char; dquote]
  else if Ascii.eqb c "\" then ["\"%char; "\"%char]
  else if (n =? 8)%nat then ["\"%char; "b"%char]
  else if (n =? 12)%nat then ["\"%char; "f"%char]
  else if (n =? 10)%nat then ["\"%char; "n"%char]
  else if (n =? 13)%nat then ["\"%char; "r"%char]
  else if (n =? 9)%nat then ["\"%char; "t"%char]
  else if (n <? 32)%nat then
    ["\"%char; "u"%char; "0"%char; "0"%char;
     hex_digit (n / 16); hex_digit (n mod 16)]
  else [c].

Definition json_string (s : string) : list ascii :=
  dquote :: flat_map json_escape_char (list_ascii_of_string s) ++ [dquote].

Fixpoint json_elements (l : list string) : list ascii :=
  match l with
  | [] => []
  | [s] => json_string s
  | s :: rest => json_string s ++ [","%char; " "%char] ++ json_elements rest
  end.

Definition jsonb_text (tags : list string) : string :=
  string_of_list_ascii ("["%char :: json_elements tags ++ ["]"%char]).

End Sql.

(** The database: one list of rows per table. *)
Module Db.
Record SearchLog := mkSearchLog {
  log_query : string;
  log_filters : option string * option string;
  log_resultsCount : Z;
  log_responseTime : Z;
  log_sessionId : string;
}.

Record t := mk {
  sourceWebsites : list SourceWebsite.t;
  componentTypes : list ComponentType.t;
  components : list Component.t;
  crawlJobs : list CrawlJob.t;
  searchLogs : list SearchLog;
}.
End Db.

(** JavaScript truthiness of an optional string: [undefined] and the
    empty string are falsy. *)
Definition truthy (o : option string) : bool :=
  match o with
  | Some s => negb (String.eqb s "")
  | None => false
  end.

(** A condition pushed on the [conditions] array of a query over
    [components]; [and(...conditions)] holds when all of them do. *)
Definition Condition := Component.t -> bool.

Definition and_conditions (conditions : list Condition) (c : Component.t) : bool :=
  forallb (fun cond => cond c) conditions.

(** ** services/search.service.ts *)

Module SearchService.

Record SearchFilter := mkFilter {
  source : option string;
  type : option string;
}.

(** [{ id, name, slug }] of a joined source website or component type. *)
Record Joined := mkJoined {
  joined_id : uuid;
  joined_name : string;
  joined_slug : string;
}.

(** [{ ...component, sourceWebsite, componentType }]. *)
Record ResultItem := mkItem {
  component : Component.t;
  sourceWebsite : option Joined;
  componentType : option Joined;
}.

(** [SearchResult]; [results] is [any[]]: joined rows for [search],
    index entries for [clientSearch]. *)
Record SearchResult (A : Type) := mkResult {
  results : list A;
  total : Z;
  responseTime : Z;
  suggestions : option (list string);
}.
Arguments mkResult {A} results total responseTime suggestions.
Arguments results {A} s.
Arguments total {A} s.
Arguments responseTime {A} s.
Arguments suggestions {A} s.

(** [select id from source_websites where slug = ? limit 1]. *)
Definition sourceBySlug (db : Db.t) (slug : string) : list SourceWebsite.t :=
  firstn 1 (List.filter (fun s => String.eqb (SourceWebsite.slug s) slug)
              (Db.sourceWebsites db)).

(** [select id from component_types where slug = ? limit 1]. *)
Definition typeBySlug (db : Db.t) (slug : string) : list ComponentType.t :=
  firstn 1 (List.filter (fun t => String.eqb (ComponentType.slug t) slug)
              (Db.componentTypes db)).

(** [if (filter.source) { ... if (source[0]) conditions.push(...) }] *)
Definition sourceConditions (db : Db.t) (filter : SearchFilter) : list Condition :=
  match source filter with
  | Some slug =>
      if truthy (Some slug) then
        match sourceBySlug db slug with
        | s :: _ => [fun c => String.eqb (Component.sourceWebsiteId c) (SourceWebsite.id s)]
        | [] => []
        end
      else []
  | None => []
  end.

(** [if (filter.type) { ... if (type[0]) conditions.push(...) }] *)
Definition typeConditions (db : Db.t) (filter : SearchFilter) : list Condition :=
  match type filter with
  | Some slug =>
      if truthy (Some slug) then
        match typeBySlug db slug with
        | t :: _ => [fun c => String.eqb (Component.componentTypeId c) (ComponentType.id t)]
        | [] => []
        end
      else []
  | None => []
  end.

(** [or(ilike(name, %q%), ilike(description, %q%), tags::text ILIKE %q%)] *)
Definition searchConditions (query : string) : Condition :=
  fun c =>
    let pattern := "%" +:+ query +:+ "%" in
    Sql.ilike (Component.name c) pattern
    || Sql.ilike_nullable (Component.description c) pattern
    || Sql.ilike (Sql.jsonb_text (Component.tags c)) pattern.

Definition conditions (db : Db.t) (query : string) (filter : SearchFilter)
  : list Condition :=
  [fun c => Bool.eqb (Component.isActive c) true]
    ++ sourceConditions db filter
    ++ typeConditions db filter
    ++ [searchConditions query].

Definition joinSource (s : SourceWebsite.t) : Joined :=
  mkJoined (SourceWebsite.id s) (SourceWebsite.name s) (SourceWebsite.slug s).

Definition joinType (t : ComponentType.t) : Joined :=
  mkJoined (ComponentType.id t) (ComponentType.name t) (ComponentType.slug t).

(** [from(components).leftJoin(sourceWebsites, ...).leftJoin(componentTypes, ...)] *)
Definition joinedRows (db : Db.t)
  : list ((Component.t * option SourceWebsite.t) * option ComponentType.t) :=
  Sql.leftJoin
    (fun (r : Component.t * option SourceWebsite.t) t =>
       String.eqb (Component.componentTypeId (fst r)) (ComponentType.id t))
    (Sql.leftJoin
       (fun c s => String.eqb (Component.sourceWebsiteId c) (SourceWebsite.id s))
       (Db.components db) (Db.sourceWebsites db))
    (Db.componentTypes db).

Definition toItem (r : (Component.t * option SourceWebsite.t) * option ComponentType.t)
  : ResultItem :=
  mkItem (fst (fst r)) (option_map joinSource (snd (fst r))) (option_map joinType (snd r)).

(** First occurrence of each value, as [selectDistinct]. *)
Fixpoint distinct (l : list string) : list string :=
  match l with
  | [] => []
  | x :: rest => x :: List.filter (fun y => negb (String.eqb x y)) (distinct rest)
  end.

(** [generateSuggestions]: nothing for a query shorter than 3, else up
    to five distinct names of active components that start with it. *)
Definition generateSuggestions (db : Db.t) (query : string) : list string :=
  if Z.of_nat (String.length query) <? 3 then []
  else
    firstn 5
      (distinct
         (map Component.name
            (List.filter
               (fun c => Bool.eqb (Component.isActive c) true
                         && Sql.ilike (Component.name c) (query +:+ "%"))
               (Db.components db)))).

(** [logSearch]: one row in [search_logs]; a failure of the insert
    ([query] is varchar(500), [sessionId] varchar(100); a session id
    that holds a NUL byte cannot be bound) is logged and swallowed.
    The query and the filters have been bound by the select of [search]
    before. *)
Definition logSearch (db : Db.t) (query : string) (filters : SearchFilter)
    (resultsCount responseTime : Z) (sessionId : string) : Db.t :=
  if (500 <? Z.of_nat (String.length query))
     || (100 <? Z.of_nat (String.length sessionId))
     || negb (Sql.bindable sessionId)
  then db
  else
    Db.mk (Db.sourceWebsites db) (Db.componentTypes db) (Db.components db)
      (Db.crawlJobs db)
      (Db.searchLogs db
         ++ [Db.mkSearchLog query (source filters, type filters)
               resultsCount responseTime sessionId]).

(** The text parameters of [search]: the slug of each lookup that is
    made ([if (filter.source)], [if (filter.type)]; an empty slug binds
    as well as none) and the query inside the three patterns. *)
Definition binds (query : string) (filter : SearchFilter) : bool :=
  Sql.optionally Sql.bindable (source filter)
  && Sql.optionally Sql.bindable (type filter)
  && Sql.bindable query.

(** [search(query, limit, filter, sessionId)].  [startTime] and
    [endTime] are the two readings of [Date.now()].  A lookup or a
    select whose parameter cannot be bound throws into the [catch].
    The select has no ORDER BY: its rows come as the database yields
    them, in [order], and LIMIT keeps the first ones. *)
Definition search (db : Db.t) (order : list nat) (startTime endTime : Z)
    (query : string) (limit : Z) (filter : SearchFilter) (sessionId : option string)
  : Result AppError (SearchResult ResultItem * Db.t) :=
  let conds := conditions db query filter in
  if negb (binds query filter) then Err (mkAppError 500 "Search failed") else
  match Sql.limit limit
          (Sql.yield order
             (List.filter (fun r => and_conditions conds (fst (fst r))) (joinedRows db))) with
  | None => Err (mkAppError 500 "Search failed")
  | Some rows =>
      let responseTime := endTime - startTime in
      let db' :=
        match sessionId with
        | Some sid =>
            if truthy (Some sid)
            then logSearch db query filter (Z.of_nat (length rows)) responseTime sid
            else db
        | None => db
        end in
      let suggestions := generateSuggestions db query in
      Ok (mkResult (map toItem rows) (Z.of_nat (length rows)) responseTime
            (Some suggestions), db')
  end.

(** *** The Fuse.js index of [clientSearch] *)

(** A row of [allComponents]: [{ id, name, description, tags, slug }]. *)
Record IndexedComponent := mkIndexed {
  indexed_id : uuid;
  indexed_name : string;
  indexed_description : option string;
  indexed_tags : list string;
  indexed_slug : string;
}.

Record FuseKey := mkKey { key_name : string; weight : Q }.

Record FuseOptions := mkOptions {
  keys : list FuseKey;
  threshold : Q;
  includeScore : bool;
}.

(** [new Fuse(collection, options)] *)
Record Fuse := mkFuse {
  collection : list IndexedComponent;
  options : FuseOptions;
}.

Definition fuseOptions : FuseOptions :=
  mkOptions
    [mkKey "name" (4 # 10); mkKey "description" (3 # 10); mkKey "tags" (3 # 10)]
    (3 # 10) true.

(** The two private fields of the service. *)
Record State := mkState {
  fuseIndex : option Fuse;
  lastIndexUpdate : option Z;
}.

Definition indexUpdateInterval : Z := 5 * 60 * 1000.

(** The select of [buildSearchIndex]: the active components. *)
Definition allComponents (db : Db.t) : list IndexedComponent :=
  map (fun c => mkIndexed (Component.id c) (Component.name c)
                  (Component.description c) (Component.tags c) (Component.slug c))
    (List.filter (fun c => Bool.eqb (Component.isActive c) true) (Db.components db)).

(** [buildSearchIndex()], from the reply of the database on (the select
    has no ORDER BY: its rows come as the database yields them): both
    fields are assigned, the index in one assignment of a fully
    constructed [Fuse]. *)
Definition buildSearchIndex (db : Db.t) (order : list nat) (builtAt : Z) : State :=
  mkState (Some (mkFuse (Sql.yield order (allComponents db)) fuseOptions)) (Some builtAt).

(** The condition under which [clientSearch] rebuilds. *)
Definition needsUpdate (st : State) (now : Z) : bool :=
  match fuseIndex st, lastIndexUpdate st with
  | Some _, Some last => indexUpdateInterval <? now - last
  | _, _ => true
  end.

(** A call of [clientSearch] in flight.  The function suspends at
    [await this.buildSearchIndex()], inside it at the select, and
    nowhere else. *)
Inductive Call :=
| AwaitingSelect (startTime : Z) (query : string) (limit : Z)
| AwaitingBuild (startTime : Z) (query : string) (limit : Z)
| Returned (r : Result AppError (SearchResult IndexedComponent)).

Section Fuse.

(** [fuse.search(query, { limit })] of Fuse.js, items only. *)
Variable fuse_search : Fuse -> string -> Z -> list IndexedComponent.

(** [clientSearch] from [if (!this.fuseIndex)] to its return. *)
Definition answer (st : State) (startTime endTime : Z) (query : string) (limit : Z)
  : Result AppError (SearchResult IndexedComponent) :=
  match fuseIndex st with
  | None => Err (mkAppError 500 "Client search failed")
  | Some index =>
      let searchResults := fuse_search index query limit in
      Ok (mkResult searchResults (Z.of_nat (length searchResults))
            (endTime - startTime) None)
  end.

(** The synchronous start of [clientSearch(query, limit)]: with a
    fresh index it runs to its return; otherwise it suspends in
    [buildSearchIndex], whose select has been issued. *)
Definition clientSearch_enter (st : State) (startTime now endTime : Z)
    (query : string) (limit : Z) : Call :=
  if needsUpdate st now then AwaitingSelect startTime query limit
  else Returned (answer st startTime endTime query limit).

(** [clientSearch] run alone, with no other call interleaved. *)
Definition clientSearch (db : Db.t) (order : list nat) (st : State)
    (startTime now builtAt endTime : Z) (query : string) (limit : Z)
  : Result AppError (SearchResult IndexedComponent) * State :=
  match clientSearch_enter st startTime now endTime query limit with
  | Returned r => (r, st)
  | _ =>
      let st' := buildSearchIndex db order builtAt in
      (answer st' startTime endTime query limit, st')
  end.

(** Calls interleaved on the one service object.  Between two events
    nothing of the service runs. *)
Record World := mkWorld {
  database : Db.t;
  service : State;
  calls : list Call;
}.

Inductive Event :=
| Request (startTime now endTime : Z) (query : string) (limit : Z)
| SelectReturns (i : nat) (order : list nat) (builtAt : Z)
| BuildReturns (i : nat) (endTime : Z)
| CatalogChanges (db : Db.t).

Definition step (w : World) (e : Event) : World :=
  match e with
  | Request startTime now endTime query limit =>
      mkWorld (database w) (service w)
        (calls w ++ [clientSearch_enter (service w) startTime now endTime query limit])
  | SelectReturns i order builtAt =>
      match calls w !! i with
      | Some (AwaitingSelect startTime query limit) =>
          mkWorld (database w) (buildSearchIndex (database w) order builtAt)
            (<[i := AwaitingBuild startTime query limit]> (calls w))
      | _ => w
      end
  | BuildReturns i endTime =>
      match calls w !! i with
      | Some (AwaitingBuild startTime query limit) =>
          mkWorld (database w) (service w)
            (<[i := Returned (answer (service w) startTime endTime query limit)]>
               (calls w))
      | _ => w
      end
  | CatalogChanges db => mkWorld db (service w) (calls w)
  end.

Definition run (w : World) (events : list Event) : World :=
  fold_left step events w.

(** The states of the database during a run. *)
Fixpoint databases (db : Db.t) (events : list Event) : list Db.t :=
  match events with
  | [] => [db]
  | CatalogChanges db' :: rest => db :: databases db' rest
  | _ :: rest => databases db rest
  end.

End Fuse.

End SearchService.

(** ** services/component.service.ts *)

(** A JavaScript number that is an integer, an infinity or NaN: what
    [Math.ceil(total / limit)] can be for integers [total >= 0] and
    [limit >= 0]. *)
Inductive JsNumber :=
| Finite (z : Z)
| Infinity
| NaN.

Definition js_lt (a : Z) (b : JsNumber) : bool :=
  match b with
  | Finite z => a <? z
  | Infinity => true
  | NaN => false
  end.

(** [Math.ceil(total / limit)] for [total >= 0], [limit >= 0]. *)
Definition ceil_div (total limit : Z) : JsNumber :=
  if limit =? 0 then (if total =? 0 then NaN else Infinity)
  else Finite (- ((- total) / limit)).

(** [orderBy]: a stable insertion sort by the given order. *)
Fixpoint insert_by {A} (le : A -> A -> bool) (x : A) (l : list A) : list A :=
  match l with
  | [] => [x]
  | y :: l' => if le x y then x :: l else y :: insert_by le x l'
  end.

Definition sort_by {A} (le : A -> A -> bool) (l : list A) : list A :=
  fold_right (insert_by le) [] l.

Module ComponentService.

Record ComponentFilter := mkFilter {
  sourceSlug : option string;
  typeSlug : option string;
  tags : option (list string);
  isActive : option bool;
}.

Inductive Sort := newest | popular | name.

Record Pagination := mkPagination {
  page : Z;
  limit : Z;
  total : Z;
  totalPages : JsNumber;
  hasNext : bool;
  hasPrevious : bool;
}.

Record PaginatedComponents := mkPaginated {
  components : list Component.t;
  pagination : Pagination;
}.

(** [NewComponent], in the columns of [Component.t]: the columns with a
    database default are optional, the others ([sourceUrl] among them)
    required. *)
Record NewComponent := mkNew {
  new_id : option uuid;
  new_sourceWebsiteId : uuid;
  new_componentTypeId : uuid;
  new_name : string;
  new_slug : string;
  new_description : option string;
  new_sourceUrl : string;
  new_sourceCode : string;
  new_tags : option (list string);
  new_contentHash : string;
  new_isActive : option bool;
  new_viewCount : option Z;
  new_createdAt : option timestamp;
  new_updatedAt : option timestamp;
}.

(** [Partial<NewComponent>]: every column optional; [description] can
    be set to NULL. *)
Record ComponentPatch := mkPatch {
  set_id : option uuid;
  set_sourceWebsiteId : option uuid;
  set_componentTypeId : option uuid;
  set_name : option string;
  set_slug : option string;
  set_description : option (option string);
  set_sourceUrl : option string;
  set_sourceCode : option string;
  set_tags : option (list string);
  set_contentHash : option string;
  set_isActive : option bool;
  set_viewCount : option Z;
  set_createdAt : option timestamp;
}.

(** What the columns of [components] can hold: text without a NUL
    byte, [view_count] an [integer]. *)
Definition storable (c : Component.t) : bool :=
  Sql.bindable (Component.name c)
  && Sql.bindable (Component.slug c)
  && Sql.optionally Sql.bindable (Component.description c)
  && Sql.bindable (Component.sourceUrl c)
  && Sql.bindable (Component.sourceCode c)
  && forallb Sql.bindable (Component.tags c)
  && Sql.bindable (Component.contentHash c)
  && Sql.int4 (Component.viewCount c).

(** The constraints the schema declares on [components]: primary key
    [id], the two foreign keys, the varchar lengths.  The index
    [components_source_slug_idx] on (source_website_id, slug) is
    declared without [.unique()] (the index of [user_favorites] on
    (user_id, component_id) has it): it constrains nothing. *)
Fixpoint unique_ids (ids : list uuid) : bool :=
  match ids with
  | [] => true
  | i :: rest => negb (existsb (String.eqb i) rest) && unique_ids rest
  end.

Definition row_ok (db : Db.t) (c : Component.t) : bool :=
  existsb (fun s => String.eqb (SourceWebsite.id s) (Component.sourceWebsiteId c))
    (Db.sourceWebsites db)
  && existsb (fun t => String.eqb (ComponentType.id t) (Component.componentTypeId c))
       (Db.componentTypes db)
  && (Z.of_nat (String.length (Component.name c)) <=? 200)
  && (Z.of_nat (String.length (Component.slug c)) <=? 200)
  && (Z.of_nat (String.length (Component.contentHash c)) <=? 64)
  && (Z.of_nat (String.length (Component.sourceUrl c)) <=? 1000).

(** An INSERT is accepted when the values of the new row can be stored
    and the row keeps the constraints. *)
Definition insert_ok (db : Db.t) (row : Component.t) : bool :=
  negb (existsb (fun c => String.eqb (Component.id c) (Component.id row))
          (Db.components db))
  && storable row
  && row_ok db row.

Definition with_components (db : Db.t) (rows : list Component.t) : Db.t :=
  Db.mk (Db.sourceWebsites db) (Db.componentTypes db) rows
    (Db.crawlJobs db) (Db.searchLogs db).

Definition sourceConditions (db : Db.t) (filter : ComponentFilter) : list Condition :=
  match sourceSlug filter with
  | Some slug =>
      if truthy (Some slug) then
        match SearchService.sourceBySlug db slug with
        | s :: _ => [fun c => String.eqb (Component.sourceWebsiteId c) (SourceWebsite.id s)]
        | [] => []
        end
      else []
  | None => []
  end.

Definition typeConditions (db : Db.t) (filter : ComponentFilter) : list Condition :=
  match typeSlug filter with
  | Some slug =>
      if truthy (Some slug) then
        match SearchService.typeBySlug db slug with
        | t :: _ => [fun c => String.eqb (Component.componentTypeId c) (ComponentType.id t)]
        | [] => []
        end
      else []
  | None => []
  end.

(** The WHERE conditions of [browse]; the [tags] filter is not applied
    (a TODO in the source). *)
Definition conditions (db : Db.t) (filter : ComponentFilter) : list Condition :=
  [match isActive filter with
   | Some b => fun c => Bool.eqb (Component.isActive c) b
   | None => fun c => Bool.eqb (Component.isActive c) true
   end]
    ++ sourceConditions db filter
    ++ typeConditions db filter.

Definition orderBy (sort : Sort) : Component.t -> Component.t -> bool :=
  match sort with
  | popular => fun a b => Component.viewCount b <=? Component.viewCount a
  | name => fun a b => String.leb (Component.name a) (Component.name b)
  | newest => fun a b => Component.createdAt b <=? Component.createdAt a
  end.

(** The text parameters of [browse]: the slug of each lookup that is
    made. *)
Definition filter_binds (filter : ComponentFilter) : bool :=
  Sql.optionally Sql.bindable (sourceSlug filter)
  && Sql.optionally Sql.bindable (typeSlug filter).

(** [browse(page, limit, filter, sort)].  A lookup whose slug cannot be
    bound throws into the [catch]. *)
Definition browse (db : Db.t) (page limit : Z) (filter : ComponentFilter) (sort : Sort)
  : Result AppError PaginatedComponents :=
  let conds := conditions db filter in
  let matching := List.filter (and_conditions conds) (Db.components db) in
  if negb (filter_binds filter) then Err (mkAppError 500 "Failed to browse components") else
  let total := Z.of_nat (length matching) in
  let totalPages := ceil_div total limit in
  let offset := (page - 1) * limit in
  match Sql.offset offset (sort_by (orderBy sort) matching) with
  | None => Err (mkAppError 500 "Failed to browse components")
  | Some rest =>
      match Sql.limit limit rest with
      | None => Err (mkAppError 500 "Failed to browse components")
      | Some componentList =>
          Ok (mkPaginated componentList
                (mkPagination page limit total totalPages
                   (js_lt page totalPages) (1 <? page)))
      end
  end.

(** [getById(id)] *)
Definition getById (db : Db.t) (id : uuid) : option Component.t :=
  match firstn 1 (List.filter (fun c => String.eqb (Component.id c) id)
                    (Db.components db)) with
  | c :: _ => Some c
  | [] => None
  end.



(** The row an insert of [data] stores: [randomId] and [now] fill the
    defaults [defaultRandom()] and [defaultNow()]. *)
Definition inserted (randomId : uuid) (now : timestamp) (data : NewComponent)
  : Component.t :=
  Component.mk
    (default randomId (new_id data))
    (new_sourceWebsiteId data) (new_componentTypeId data)
    (new_name data) (new_slug data) (new_description data)
    (new_sourceUrl data) (new_sourceCode data)
    (default [] (new_tags data))
    (new_contentHash data)
    (default true (new_isActive data))
    (default 0 (new_viewCount data))
    (default now (new_createdAt data))
    (default now (new_updatedAt data)).

(** The timestamps given with [data] must be dates the database reads;
    the default [defaultNow()] is one. *)
Definition new_binds (data : NewComponent) : bool :=
  Sql.optionally Sql.timestamptz (new_createdAt data)
  && Sql.optionally Sql.timestamptz (new_updatedAt data).

(** [create(data)]: a plain INSERT, no ON CONFLICT clause. *)
Definition create (db : Db.t) (randomId : uuid) (now : timestamp) (data : NewComponent)
  : Result AppError (Component.t * Db.t) :=
  let row := inserted randomId now data in
  if new_binds data && insert_ok db row
  then Ok (row, with_components db (Db.components db ++ [row]))
  else Err (mkAppError 500 "Failed to create component").

(** [{ ...data, updatedAt: new Date() }] applied to a row. *)
Definition patched (now : timestamp) (data : ComponentPatch) (c : Component.t)
  : Component.t :=
  Component.mk
    (default (Component.id c) (set_id data))
    (default (Component.sourceWebsiteId c) (set_sourceWebsiteId data))
    (default (Component.componentTypeId c) (set_componentTypeId data))
    (default (Component.name c) (set_name data))
    (default (Component.slug c) (set_slug data))
    (default (Component.description c) (set_description data))
    (default (Component.sourceUrl c) (set_sourceUrl data))
    (default (Component.sourceCode c) (set_sourceCode data))
    (default (Component.tags c) (set_tags data))
    (default (Component.contentHash c) (set_contentHash data))
    (default (Component.isActive c) (set_isActive data))
    (default (Component.viewCount c) (set_viewCount data))
    (default (Component.createdAt c) (set_createdAt data))
    now.

(** The parameters of an UPDATE with [data]: each value that is set
    must be one its column reads.  They are bound before any row is
    looked at. *)
Definition patch_binds (data : ComponentPatch) : bool :=
  Sql.optionally (Sql.varchar 200) (set_name data)
  && Sql.optionally (Sql.varchar 200) (set_slug data)
  && Sql.optionally (Sql.optionally Sql.bindable) (set_description data)
  && Sql.optionally (Sql.varchar 1000) (set_sourceUrl data)
  && Sql.optionally Sql.bindable (set_sourceCode data)
  && Sql.optionally (forallb Sql.bindable) (set_tags data)
  && Sql.optionally (Sql.varchar 64) (set_contentHash data)
  && Sql.optionally Sql.int4 (set_viewCount data)
  && Sql.optionally Sql.timestamptz (set_createdAt data).

(** [update(id, data)]: UPDATE ... WHERE id = ? RETURNING; the first
    returned row, or null.  The statement fails when a value cannot be
    bound (also when no row has the id) or when an updated row breaks a
    constraint. *)
Definition update (db : Db.t) (now : timestamp) (id : uuid) (data : ComponentPatch)
  : Result AppError (option Component.t * Db.t) :=
  let hit c := String.eqb (Component.id c) id in
  let rows := map (fun c => if hit c then patched now data c else c) (Db.components db) in
  if patch_binds data
     && unique_ids (map Component.id rows)
     && forallb (fun c => negb (hit c) || row_ok db (patched now data c))
          (Db.components db)
  then
    Ok (match List.filter hit (Db.components db) with
        | c :: _ => Some (patched now data c)
        | [] => None
        end, with_components db rows)
  else Err (mkAppError 500 "Failed to update component").

(** [incrementViewCount(id)]: errors (the integer column overflowing)
    are swallowed. *)
Definition incrementViewCount (db : Db.t) (id : uuid) : Db.t :=
  let hit c := String.eqb (Component.id c) id in
  if existsb (fun c => hit c && (2147483647 <? Component.viewCount c + 1))
       (Db.components db)
  then db
  else
    with_components db
      (map (fun c =>
              if hit c then
                Component.mk (Component.id c) (Component.sourceWebsiteId c)
                  (Component.componentTypeId c) (Component.name c) (Component.slug c)
                  (Component.description c) (Component.sourceUrl c)
                  (Component.sourceCode c) (Component.tags c)
                  (Component.contentHash c) (Component.isActive c)
                  (Component.viewCount c + 1)
                  (Component.createdAt c) (Component.updatedAt c)
              else c)
         (Db.components db)).

(** [delete(id)]: DELETE ... WHERE id = ?. *)
Definition delete (db : Db.t) (id : uuid) : bool * Db.t :=
  (true,
   with_components db
     (List.filter (fun c => negb (String.eqb (Component.id c) id)) (Db.components db))).

(** [existsByHash(contentHash, sourceWebsiteId)] *)
Definition existsByHash (db : Db.t) (contentHash : string) (sourceWebsiteId : uuid)
  : bool :=
  0 <? Z.of_nat
         (length
            (List.filter
               (fun c => String.eqb (Component.contentHash c) contentHash
                         && String.eqb (Component.sourceWebsiteId c) sourceWebsiteId)
               (Db.components db))).

(** [getPopular(limit)] *)
Definition getPopular (db : Db.t) (limit : Z) : Result AppError (list Component.t) :=
  match Sql.limit limit
          (sort_by (orderBy popular)
             (List.filter (fun c => Bool.eqb (Component.isActive c) true)
                (Db.components db))) with
  | Some rows => Ok rows
  | None => Err (mkAppError 500 "Failed to fetch popular components")
  end.

End ComponentService.

(** ** services/source-website.service.ts *)

Module SourceWebsiteService.

(** [getBySlug(slug)] *)
Definition getBySlug (db : Db.t) (slug : string) : option SourceWebsite.t :=
  match firstn 1 (List.filter (fun s => String.eqb (SourceWebsite.slug s) slug)
                    (Db.sourceWebsites db)) with
  | s :: _ => Some s
  | [] => None
  end.

End SourceWebsiteService.

(** ** validation/schemas.ts *)

Module Schemas.

Inductive ZodIssueCode :=
  invalid_type | too_small | too_big | invalid_string | invalid_enum_value.

Record ZodIssue := mkIssue { code : ZodIssueCode; path : string }.

(** A value of [req.query] or of a JSON body. *)
Inductive Value :=
| Undefined
| Str (s : string)
| Strs (l : list string)
| Boolean (b : bool)
| Other.

(** What [Number(v)] makes of the raw parameter under [z.coerce.number()]:
    an integer, or something that is not one (NaN, a fraction). *)
Inductive Coerced :=
| Missing
| Integer (z : Z)
| NotInteger.

Definition str_length (s : string) : Z := Z.of_nat (String.length s).

(** [z.string().min(lo).max(hi)] at [path]. *)
Definition string_min_max (path : string) (lo hi : Z) (v : Value)
  : Result (list ZodIssue) string :=
  match v with
  | Str s =>
      if str_length s <? lo then Err [mkIssue too_small path]
      else if hi <? str_length s then Err [mkIssue too_big path]
      else Ok s
  | _ => Err [mkIssue invalid_type path]
  end.

(** [schema.optional()] *)
Definition optional {A} (schema : Value -> Result (list ZodIssue) A) (v : Value)
  : Result (list ZodIssue) (option A) :=
  match v with
  | Undefined => Ok None
  | _ => match schema v with
         | Ok a => Ok (Some a)
         | Err e => Err e
         end
  end.

(** [z.coerce.number().int().min(lo).max(hi).default(d)] at [path]. *)
Definition int_min_max_default (path : string) (lo hi d : Z) (v : Coerced)
  : Result (list ZodIssue) Z :=
  match v with
  | Missing => Ok d
  | Integer z =>
      if z <? lo then Err [mkIssue too_small path]
      else if hi <? z then Err [mkIssue too_big path]
      else Ok z
  | NotInteger => Err [mkIssue invalid_type path]
  end.

Definition sourceFilterSchema := optional (string_min_max "source" 1 100).
Definition typeFilterSchema := optional (string_min_max "type" 1 100).

Definition issues {A} (r : Result (list ZodIssue) A) : list ZodIssue :=
  match r with
  | Ok _ => []
  | Err e => e
  end.

(** [searchQuerySchema] *)
Record RawSearchQuery := mkRawSearch {
  raw_q : Value;
  raw_source : Value;
  raw_type : Value;
  raw_limit : Coerced;
}.

Record SearchQuery := mkSearch {
  q : string;
  source : option string;
  type : option string;
  limit : Z;
}.

(** An object schema reports the issues of all its fields. *)
Definition searchQuerySchema (raw : RawSearchQuery)
  : Result (list ZodIssue) SearchQuery :=
  let rq := string_min_max "q" 2 500 (raw_q raw) in
  let rs := sourceFilterSchema (raw_source raw) in
  let rt := typeFilterSchema (raw_type raw) in
  let rl := int_min_max_default "limit" 1 100 20 (raw_limit raw) in
  match rq, rs, rt, rl with
  | Ok q, Ok s, Ok t, Ok l => Ok (mkSearch q s t l)
  | _, _, _, _ => Err (issues rq ++ issues rs ++ issues rt ++ issues rl)
  end.

(** [tagsFilterSchema]: [z.array(z.string()).optional()] *)
Definition tagsFilterSchema (v : Value) : Result (list ZodIssue) (option (list string)) :=
  match v with
  | Undefined => Ok None
  | Strs l => Ok (Some l)
  | _ => Err [mkIssue invalid_type "tags"]
  end.

(** [componentSortSchema] *)
Definition componentSortSchema (v : Value)
  : Result (list ZodIssue) ComponentService.Sort :=
  match v with
  | Undefined => Ok ComponentService.newest
  | Str s =>
      if String.eqb s "newest" then Ok ComponentService.newest
      else if String.eqb s "popular" then Ok ComponentService.popular
      else if String.eqb s "name" then Ok ComponentService.name
      else Err [mkIssue invalid_enum_value "sort"]
  | _ => Err [mkIssue invalid_enum_value "sort"]
  end.

(** [componentBrowseSchema] *)
Record RawBrowseQuery := mkRawBrowse {
  raw_browse_source : Value;
  raw_browse_type : Value;
  raw_browse_tags : Value;
  raw_browse_sort : Value;
  raw_browse_page : Coerced;
  raw_browse_limit : Coerced;
}.

Record BrowseQuery := mkBrowse {
  browse_source : option string;
  browse_type : option string;
  browse_tags : option (list string);
  browse_sort : ComponentService.Sort;
  browse_page : Z;
  browse_limit : Z;
}.

(** [min(1)] alone on [page]: any integer from 1 on. *)
Definition int_min_default (path : string) (lo d : Z) (v : Coerced)
  : Result (list ZodIssue) Z :=
  match v with
  | Missing => Ok d
  | Integer z => if z <? lo then Err [mkIssue too_small path] else Ok z
  | NotInteger => Err [mkIssue invalid_type path]
  end.

Definition componentBrowseSchema (raw : RawBrowseQuery)
  : Result (list ZodIssue) BrowseQuery :=
  let rs := sourceFilterSchema (raw_browse_source raw) in
  let rt := typeFilterSchema (raw_browse_type raw) in
  let rg := tagsFilterSchema (raw_browse_tags raw) in
  let ro := componentSortSchema (raw_browse_sort raw) in
  let rp := int_min_default "page" 1 1 (raw_browse_page raw) in
  let rl := int_min_max_default "limit" 1 100 20 (raw_browse_limit raw) in
  match rs, rt, rg, ro, rp, rl with
  | Ok s, Ok t, Ok g, Ok o, Ok p, Ok l => Ok (mkBrowse s t g o p l)
  | _, _, _, _, _, _ =>
      Err (issues rs ++ issues rt ++ issues rg ++ issues ro ++ issues rp ++ issues rl)
  end.

(** [slugSchema]: [z.string().regex(/^[a-z0-9-]+$/)] *)
Definition slug_char (c : ascii) : bool :=
  let n := nat_of_ascii c in
  ((97 <=? n) && (n <=? 122) || (48 <=? n) && (n <=? 57) || (n =? 45))%nat.

Definition slugSchema (path : string) (v : Value) : Result (list ZodIssue) string :=
  match v with
  | Str s =>
      match list_ascii_of_string s with
      | [] => Err [mkIssue invalid_string path]
      | cs => if forallb slug_char cs then Ok s else Err [mkIssue invalid_string path]
      end
  | _ => Err [mkIssue invalid_type path]
  end.

(** [crawlTriggerSchema] *)
Record RawCrawlTrigger := mkRawTrigger {
  raw_sourceSlug : Value;
  raw_force : Value;
}.

Record CrawlTriggerBody := mkTrigger {
  sourceSlug : string;
  force : bool;
}.

Definition boolean_default (path : string) (d : bool) (v : Value)
  : Result (list ZodIssue) bool :=
  match v with
  | Undefined => Ok d
  | Boolean b => Ok b
  | _ => Err [mkIssue invalid_type path]
  end.

Definition crawlTriggerSchema (raw : RawCrawlTrigger)
  : Result (list ZodIssue) CrawlTriggerBody :=
  let rs := slugSchema "sourceSlug" (raw_sourceSlug raw) in
  let rf := boolean_default "force" false (raw_force raw) in
  match rs, rf with
  | Ok s, Ok f => Ok (mkTrigger s f)
  | _, _ => Err (issues rs ++ issues rf)
  end.

End Schemas.

(** ** middleware/error.middleware.ts *)

Inductive Thrown :=
| ThrownApp (e : AppError)
| ThrownZod (details : list Schemas.ZodIssue)
| ThrownDb.

Record ErrorResponse := mkErrorResponse {
  status : Z;
  error : string;
  error_message : string;
  details : list Schemas.ZodIssue;
}.

(** [errorHandler]: an [AppError] keeps its status code and message, a
    [ZodError] is a 400 with the issues as details, any other error (one
    of the database driver, [ThrownDb]) the default 500. *)
Definition errorHandler (err : Thrown) : ErrorResponse :=
  match err with
  | ThrownApp e => mkErrorResponse (statusCode e) "Error" (message e) []
  | ThrownZod issues => mkErrorResponse 400 "ZodError" "Validation error" issues
  | ThrownDb => mkErrorResponse 500 "PostgresError" "Internal server error" []
  end.

(** What a route sends: a JSON body with a status, or the response of the
    error handler. *)
Inductive Response (A : Type) : Type :=
| Json (status : Z) (body : A)
| Failure (e : ErrorResponse).
Arguments Json {A} status body.
Arguments Failure {A} e.

(** Modelled from the spec: [validateQuery] and [validateBody] of
    middleware/validation.middleware, which is not among the sources.
    Request validation fails a request with a client validation error:
    the schema parses the query (or body); on failure the [ZodError]
    goes to the error handler and the route handler does not run; on
    success the handler receives the parsed value. *)
Definition validate {Raw Parsed A} (schema : Raw -> Result (list Schemas.ZodIssue) Parsed)
    (raw : Raw) (handler : Parsed -> Response A * Db.t) (db : Db.t)
  : Response A * Db.t :=
  match schema raw with
  | Ok parsed => handler parsed
  | Err issues => (Failure (errorHandler (ThrownZod issues)), db)
  end.

(** ** routes/search.routes.ts and routes/components.routes.ts *)

Module Routes.

(** GET /api/search.  [sessionHeader] is the x-session-id header,
    [randomSession] the [uuidv4()] used when it is absent. *)
Definition getSearch (db : Db.t) (order : list nat) (startTime endTime : Z)
    (sessionHeader : option string) (randomSession : uuid)
    (raw : Schemas.RawSearchQuery)
  : Response (SearchService.SearchResult SearchService.ResultItem) * Db.t :=
  validate Schemas.searchQuerySchema raw
    (fun query =>
       let sessionId :=
         if truthy sessionHeader then sessionHeader else Some randomSession in
       match SearchService.search db order startTime endTime
               (Schemas.q query) (Schemas.limit query)
               (SearchService.mkFilter (Schemas.source query) (Schemas.type query))
               sessionId with
       | Ok (result, db') => (Json 200 result, db')
       | Err e => (Failure (errorHandler (ThrownApp e)), db)
       end)
    db.

(** GET /api/components: the filter carries [sourceSlug], [typeSlug]
    and [tags]; [isActive] is never supplied. *)
Definition getComponents (db : Db.t) (raw : Schemas.RawBrowseQuery)
  : Response ComponentService.PaginatedComponents * Db.t :=
  validate Schemas.componentBrowseSchema raw
    (fun query =>
       match ComponentService.browse db
               (Schemas.browse_page query) (Schemas.browse_limit query)
               (ComponentService.mkFilter (Schemas.browse_source query)
                  (Schemas.browse_type query) (Schemas.browse_tags query) None)
               (Schemas.browse_sort query) with
       | Ok result => (Json 200 result, db)
       | Err e => (Failure (errorHandler (ThrownApp e)), db)
       end)
    db.

End Routes.

(** ** routes/crawl.routes.ts *)

Module CrawlRoutes.

(** The constraints of [crawl_jobs] on an INSERT: the primary key and
    the foreign key to [source_websites]. *)
Definition insert_ok (db : Db.t) (job : CrawlJob.t) : bool :=
  negb (existsb (fun j => String.eqb (CrawlJob.id j) (CrawlJob.id job))
          (Db.crawlJobs db))
  && existsb (fun s => String.eqb (SourceWebsite.id s) (CrawlJob.sourceWebsiteId job))
       (Db.sourceWebsites db).

Definition with_crawlJobs (db : Db.t) (rows : list CrawlJob.t) : Db.t :=
  Db.mk (Db.sourceWebsites db) (Db.componentTypes db) (Db.components db)
    rows (Db.searchLogs db).

(** [requireApiKey]: the x-api-key header against ADMIN_API_KEY. *)
Definition requireApiKey (expectedKey apiKey : option string) : bool :=
  match apiKey with
  | Some k =>
      truthy (Some k)
      && match expectedKey with
         | Some e => String.eqb k e
         | None => false
         end
  | None => false
  end.

(** The select of the running job of a source, [limit(1)]. *)
Definition runningJob (db : Db.t) (sourceId : uuid) : option CrawlJob.t :=
  match firstn 1
          (List.filter
             (fun j => String.eqb (CrawlJob.sourceWebsiteId j) sourceId
                       && CrawlJob.status_eqb (CrawlJob.status j) CrawlJob.running)
             (Db.crawlJobs db)) with
  | j :: _ => Some j
  | [] => None
  end.

(** The row stored for [{ id, sourceWebsiteId, status: 'pending' }]:
    the other columns take their defaults. *)
Definition newJob (id : uuid) (sourceId : uuid) (now : timestamp) : CrawlJob.t :=
  CrawlJob.mk id sourceId CrawlJob.pending None None 0 0 0 0 None now.

(** The handler of POST /api/crawl/trigger.  [id] is [uuidv4()], [now]
    the [defaultNow()] of [created_at].  Queueing the job is a TODO in
    the source: nothing else happens to the job or to the catalog. *)
Definition triggerCrawl (db : Db.t) (id : uuid) (now : timestamp)
    (sourceSlug : string) (force : bool)
  : Result Thrown (CrawlJob.t * Db.t) :=
  match SourceWebsiteService.getBySlug db sourceSlug with
  | None =>
      Err (ThrownApp (mkAppError 404
             ("Source website '" +:+ sourceSlug +:+ "' not found")))
  | Some source =>
      let* _ :=
        (if negb force then
           match runningJob db (SourceWebsite.id source) with
           | Some _ =>
               Err (ThrownApp (mkAppError 409
                      "Crawl already in progress for this source"))
           | None => Ok tt
           end
         else Ok tt) in
      let job := newJob id (SourceWebsite.id source) now in
      if insert_ok db job then Ok (job, with_crawlJobs db (Db.crawlJobs db ++ [job]))
      else Err ThrownDb
  end.

(** POST /api/crawl/trigger with its middleware. *)
Definition postTrigger (db : Db.t) (expectedKey apiKey : option string)
    (id : uuid) (now : timestamp) (raw : Schemas.RawCrawlTrigger)
  : Response CrawlJob.t * Db.t :=
  if requireApiKey expectedKey apiKey then
    validate Schemas.crawlTriggerSchema raw
      (fun body =>
         match triggerCrawl db id now (Schemas.sourceSlug body) (Schemas.force body) with
         | Ok (job, db') => (Json 201 job, db')
         | Err e => (Failure (errorHandler e), db)
         end)
      db
  else
    (Failure (errorHandler (ThrownApp (mkAppError 401 "Unauthorized: Invalid API key"))),
     db).

(** GET /api/crawl/status/:id *)
Definition getStatus (db : Db.t) (id : uuid) : Response CrawlJob.t :=
  match firstn 1 (List.filter (fun j => String.eqb (CrawlJob.id j) id)
                    (Db.crawlJobs db)) with
  | j :: _ => Json 200 j
  | [] => Failure (errorHandler (ThrownApp (mkAppError 404
                     ("Crawl job '" +:+ id +:+ "' not found"))))
  end.

End CrawlRoutes.

(** ** The merge engine of a crawl

    The sources stop at the trigger: running a crawl job is a TODO of the
    route, and the adapter, the normalizer and the merge engine are not
    among them.  This module follows the design of the Dedup/Merge
    Engine; every definition in it is modelled from that design, not
    from code. *)

Module MergeEngine.

(** Modelled from the spec: a normalized Component of a source as the
    missing Normalizer delivers it, with its content fingerprint. *)
Record Normalized := mkNormalized {
  slug : string;
  name : string;
  description : option string;
  sourceCode : string;
  tags : list string;
  fingerprint : string;
}.

(** Modelled from the spec: a Component of the catalog the missing merge
    engine writes; its identity is its key (sourceId, slug). *)
Record Entry := mkEntry {
  entry_name : string;
  entry_description : option string;
  entry_sourceCode : string;
  entry_tags : list string;
  entry_fingerprint : string;
  entry_isActive : bool;
  entry_viewCount : Z;
  entry_updatedAt : timestamp;
}.

(** Modelled from the spec: the unique key (sourceId, slug) of the
    catalog of the missing merge engine. *)
Definition Key : Type := uuid * string.

(** Modelled from the spec: the classes of an incoming item in the
    missing merge engine (a stale entry is one no item names). *)
Inductive Classification := add | unchanged | update.

(** Modelled from the spec: a catalog row written by the missing merge
    engine, an upsert by key or a marking as inactive. *)
Inductive Write :=
| Upsert (key : Key) (entry : Entry)
| MarkInactive (key : Key).

(** Modelled from the spec: the counters of the CrawlJob that the
    missing crawl run accumulates. *)
Record Counters := mkCounters {
  found : Z;
  added : Z;
  updated : Z;
  removed : Z;
}.

(** Modelled from the spec: the state of a run of the missing crawl
    orchestrator: the catalog, the job counters, the catalog rows
    written so far and the slugs seen in this run. *)
Record Run := mkRun {
  catalog : gmap Key Entry;
  counters : Counters;
  writes : list Write;
  seen : gset string;
}.

(** Modelled from the spec: the classification of the missing merge
    engine.  An incoming item is classified by its key (sourceId, slug):
    not present in the catalog, add; present with the same fingerprint,
    unchanged; present with a different fingerprint, update. *)
Definition classify (cat : gmap Key Entry) (sourceId : uuid) (item : Normalized)
  : Classification :=
  match cat !! (sourceId, slug item) with
  | None => add
  | Some e =>
      if String.eqb (entry_fingerprint e) (fingerprint item) then unchanged else update
  end.

(** Modelled from the spec: the entry the missing merge engine adds for
    a new item: active, never viewed. *)
Definition added_entry (now : timestamp) (item : Normalized) : Entry :=
  mkEntry (name item) (description item) (sourceCode item) (tags item)
    (fingerprint item) true 0 now.

(** Modelled from the spec: the update of the missing merge engine
    replaces the content fields and bumps [updatedAt]; the view count
    and the rest of the entry stay. *)
Definition updated_entry (now : timestamp) (item : Normalized) (e : Entry) : Entry :=
  mkEntry (name item) (description item) (sourceCode item) (tags item)
    (fingerprint item) (entry_isActive e) (entry_viewCount e) now.

(** Modelled from the spec: one item through the missing merge engine.
    Each add or update is a single upsert on the key; an unchanged item
    is no write, it is only seen; the outcome is accumulated into the
    counters. *)
Definition mergeItem (sourceId : uuid) (now : timestamp) (r : Run) (item : Normalized)
  : Run :=
  let key := (sourceId, slug item) in
  let c := counters r in
  match classify (catalog r) sourceId item with
  | add =>
      let e := added_entry now item in
      mkRun (<[key := e]> (catalog r))
        (mkCounters (found c + 1) (added c + 1) (updated c) (removed c))
        (writes r ++ [Upsert key e])
        ({[slug item]} ∪ seen r)
  | unchanged =>
      mkRun (catalog r)
        (mkCounters (found c + 1) (added c) (updated c) (removed c))
        (writes r)
        ({[slug item]} ∪ seen r)
  | update =>
      let e := match catalog r !! key with
               | Some old => updated_entry now item old
               | None => added_entry now item
               end in
      mkRun (<[key := e]> (catalog r))
        (mkCounters (found c + 1) (added c) (updated c + 1) (removed c))
        (writes r ++ [Upsert key e])
        ({[slug item]} ∪ seen r)
  end.

(** Modelled from the spec: the item stream of a run through the missing
    merge engine, one item after the other. *)
Fixpoint mergeItems (sourceId : uuid) (now : timestamp) (items : list Normalized)
    (r : Run) : Run :=
  match items with
  | [] => r
  | item :: rest => mergeItems sourceId now rest (mergeItem sourceId now r item)
  end.

(** Modelled from the spec: stale, for the missing merge engine, is an
    active entry of the source whose slug was not seen in the run. *)
Definition stale (sourceId : uuid) (seen : gset string) (key : Key) (e : Entry) : bool :=
  String.eqb (fst key) sourceId
  && entry_isActive e
  && negb (bool_decide (snd key ∈ seen)).

(** Modelled from the spec: the soft removal of the missing merge
    engine: the entry stays, inactive. *)
Definition deactivated (e : Entry) : Entry :=
  mkEntry (entry_name e) (entry_description e) (entry_sourceCode e) (entry_tags e)
    (entry_fingerprint e) false (entry_viewCount e) (entry_updatedAt e).

(** Modelled from the spec: the staleness marking of the missing merge
    engine, one batch update after the item stream has been consumed:
    the active entries of the source whose slug is not among those seen
    become inactive; none is deleted. *)
Definition markStale (sourceId : uuid) (r : Run) : Run :=
  let gone := filter (fun ke => stale sourceId (seen r) ke.1 ke.2 = true) (catalog r) in
  let c := counters r in
  mkRun
    (map_imap (fun key e => Some (if stale sourceId (seen r) key e
                                  then deactivated e else e))
       (catalog r))
    (mkCounters (found c) (added c) (updated c) (removed c + Z.of_nat (size gone)))
    (writes r ++ map (fun ke => MarkInactive ke.1) (map_to_list gone))
    (seen r).

(** Modelled from the spec: a run of the missing crawl orchestrator for
    a source, over the normalized items the adapter and the normalizer
    delivered; catalog writes are taken to succeed. *)
Definition crawl (sourceId : uuid) (now : timestamp) (items : list Normalized)
    (cat : gmap Key Entry) : Run :=
  markStale sourceId
    (mergeItems sourceId now items (mkRun cat (mkCounters 0 0 0 0) [] ∅)).

End MergeEngine.

(** ** The services and routes around the ones above *)

(** *** services/component.service.ts: [getByIdWithRelations], and the
    handler of GET /api/components/:id *)

Module ComponentDetail.

(** [{ ...component, sourceWebsite, componentType }] with the whole
    joined rows. *)
Record WithRelations := mkWithRelations {
  component : Component.t;
  sourceWebsite : option SourceWebsite.t;
  componentType : option ComponentType.t;
}.

(** [getByIdWithRelations(id)]: the two left joins of [search], the row
    of the id, [limit(1)]. *)
Definition getByIdWithRelations (db : Db.t) (id : uuid) : option WithRelations :=
  match firstn 1
          (List.filter (fun r => String.eqb (Component.id (fst (fst r))) id)
             (SearchService.joinedRows db)) with
  | r :: _ => Some (mkWithRelations (fst (fst r)) (snd (fst r)) (snd r))
  | [] => None
  end.

(** The handler of GET /api/components/:id, past [validateParams]: a 404
    for an unknown id; else the component as read, and the view count is
    incremented without being awaited. *)
Definition getComponent (db : Db.t) (id : uuid) : Response WithRelations * Db.t :=
  match getByIdWithRelations db id with
  | None =>
      (Failure (errorHandler (ThrownApp (mkAppError 404
                  ("Component '" +:+ id +:+ "' not found")))), db)
  | Some found => (Json 200 found, ComponentService.incrementViewCount db id)
  end.

End ComponentDetail.

(** *** validation/schemas.ts: [paginationSchema] *)

Module Pagination.





(** [z.object({ slug: slugSchema })] on [req.params]. *)
Definition slugParams (v : Schemas.Value) : Result (list Schemas.ZodIssue) string :=
  Schemas.slugSchema "slug" v.

End Pagination.

(** *** services/source-website.service.ts and routes/sources.routes.ts *)

Module SourcesRoutes.

(** [SourceWebsiteService.getAll()]: the active source websites. *)
Definition getAll (db : Db.t) : list SourceWebsite.t :=
  List.filter (fun s => Bool.eqb (SourceWebsite.isActive s) true) (Db.sourceWebsites db).

Record SourceList := mkSourceList {
  sources : list SourceWebsite.t;
  total : Z;
}.

(** GET /api/sources *)
Definition getSources (db : Db.t) : Response SourceList :=
  let sources := getAll db in
  Json 200 (mkSourceList sources (Z.of_nat (length sources))).

(** GET /api/sources/:slug *)
Definition getSource (db : Db.t) (rawSlug : Schemas.Value)
  : Response SourceWebsite.t * Db.t :=
  validate Pagination.slugParams rawSlug
    (fun slug =>
       match SourceWebsiteService.getBySlug db slug with
       | None =>
           (Failure (errorHandler (ThrownApp (mkAppError 404
                       ("Source website '" +:+ slug +:+ "' not found")))), db)
       | Some source => (Json 200 source, db)
       end)
    db.


End SourcesRoutes.

(** *** services/component-type.service.ts *)

Module ComponentTypeService.

(** [getAll()]: the component types by ascending display order. *)
Definition getAll (db : Db.t) : list ComponentType.t :=
  sort_by (fun a b => ComponentType.displayOrder a <=? ComponentType.displayOrder b)
    (Db.componentTypes db).

(** [getBySlug(slug)] *)
Definition getBySlug (db : Db.t) (slug : string) : option ComponentType.t :=
  match firstn 1 (List.filter (fun t => String.eqb (ComponentType.slug t) slug)
                    (Db.componentTypes db)) with
  | t :: _ => Some t
  | [] => None
  end.

(** [NewComponentType], in the columns of [ComponentType.t]; the
    description and the remaining columns are stored and not read by
    the code modelled here. *)
Record NewComponentType := mkNew {
  new_id : option uuid;
  new_name : string;
  new_slug : string;
  new_displayOrder : option Z;
}.

Definition with_componentTypes (db : Db.t) (rows : list ComponentType.t) : Db.t :=
  Db.mk (Db.sourceWebsites db) rows (Db.components db) (Db.crawlJobs db)
    (Db.searchLogs db).

(** The constraints of [component_types] on an INSERT: the primary key,
    [name] and [slug] unique, both varchar(100). *)
Definition insert_ok (db : Db.t) (row : ComponentType.t) : bool :=
  negb (existsb (fun t => String.eqb (ComponentType.id t) (ComponentType.id row))
          (Db.componentTypes db))
  && negb (existsb (fun t => String.eqb (ComponentType.name t) (ComponentType.name row))
             (Db.componentTypes db))
  && negb (existsb (fun t => String.eqb (ComponentType.slug t) (ComponentType.slug row))
             (Db.componentTypes db))
  && (Z.of_nat (String.length (ComponentType.name row)) <=? 100)
  && (Z.of_nat (String.length (ComponentType.slug row)) <=? 100).

(** [create(data)] *)
Definition create (db : Db.t) (randomId : uuid) (data : NewComponentType)
  : Result AppError (ComponentType.t * Db.t) :=
  let row := ComponentType.mk (default randomId (new_id data)) (new_name data)
               (new_slug data) (default 0 (new_displayOrder data)) in
  if insert_ok db row
  then Ok (row, with_componentTypes db (Db.componentTypes db ++ [row]))
  else Err (mkAppError 500 "Failed to create component type").

(** [String.prototype.toLowerCase] on code units below 256: the ASCII
    capitals and the Latin-1 capitals (all of 192 to 222 but the
    multiplication sign). *)
Definition toLowerCase_char (c : ascii) : ascii :=
  let n := nat_of_ascii c in
  if ((65 <=? n) && (n <=? 90) || (192 <=? n) && (n <=? 222) && negb (n =? 215))%nat
  then ascii_of_nat (n + 32) else c.

(** The class [\s] on code units below 256. *)
Definition is_space (c : ascii) : bool :=
  let n := nat_of_ascii c in
  ((9 <=? n) && (n <=? 13) || (n =? 32) || (n =? 160))%nat.

(** [.replace(/\s+/g, '-')]: every maximal run of white space becomes
    one hyphen. *)
Fixpoint replace_spaces (in_run : bool) (cs : list ascii) : list ascii :=
  match cs with
  | [] => []
  | c :: rest =>
      if is_space c then
        if in_run then replace_spaces true rest
        else "-"%char :: replace_spaces true rest
      else c :: replace_spaces false rest
  end.

(** [name.toLowerCase().replace(/\s+/g, '-')] *)
Definition slugOf (name : string) : string :=
  string_of_list_ascii
    (replace_spaces false (map toLowerCase_char (list_ascii_of_string name))).

(** [findOrCreate(name, slug?)]: the type of the slug ([slug], or the
    one made from the name when [slug] is falsy), created when there is
    none.  Any failure is rethrown by the outer [catch]. *)
Definition findOrCreate (db : Db.t) (randomId : uuid) (name : string)
    (slug : option string) : Result AppError (ComponentType.t * Db.t) :=
  let typeSlug := if truthy slug then default "" slug else slugOf name in
  match getBySlug db typeSlug with
  | Some type => Ok (type, db)
  | None =>
      match create db randomId (mkNew None name typeSlug (Some 999)) with
      | Ok created => Ok created
      | Err _ => Err (mkAppError 500 "Failed to find or create component type")
      end
  end.

End ComponentTypeService.

(** *** routes/types.routes.ts *)

Module TypesRoutes.




End TypesRoutes.

(** *** services/stats.service.ts and routes/stats.routes.ts *)

Module StatsService.

Record CrawlStats := mkCrawlStats {
  totalCrawls : Z;
  successfulCrawls : Z;
  failedCrawls : Z;
  lastCrawlTime : option timestamp;
}.

(** [PlatformStats]; the optional fields are the details. *)
Record PlatformStats := mkStats {
  totalComponents : Z;
  totalSources : Z;
  totalTypes : Z;
  lastUpdateTime : option timestamp;
  popularComponents : option (list Component.t);
  componentsBySource : option (gmap string Z);
  componentsByType : option (gmap string Z);
  crawlStats : option CrawlStats;
}.

(** The two private fields of the service. *)
Record State := mkState {
  statsCache : option PlatformStats;
  cacheExpiry : option Z;
}.

Definition cacheDuration : Z := 5 * 60 * 1000.

(** SQL [MAX] over the non-null values: NULL when there is none. *)
Definition sql_max (values : list Z) : option Z :=
  fold_right (fun v acc => match acc with
                           | Some m => Some (Z.max v m)
                           | None => Some v
                           end) None values.

(** [count(components.id) ... groupBy(name)] over a left join, reduced
    into an object: the groups with a null or empty name are dropped. *)
Definition countByName {A} (name : A -> string)
    (rows : list (Component.t * option A)) : gmap string Z :=
  fold_right
    (fun r acc =>
       match snd r with
       | Some joined =>
           if truthy (Some (name joined))
           then <[name joined := default 0 (acc !! name joined) + 1]> acc
           else acc
       | None => acc
       end) ∅ rows.

Definition activeJoined {A} (rows : list (Component.t * option A))
  : list (Component.t * option A) :=
  List.filter (fun r => Bool.eqb (Component.isActive (fst r)) true) rows.

(** [getCrawlStats()] *)
Definition getCrawlStats (db : Db.t) : CrawlStats :=
  let successful :=
    List.filter (fun j => CrawlJob.status_eqb (CrawlJob.status j) CrawlJob.success)
      (Db.crawlJobs db) in
  mkCrawlStats
    (Z.of_nat (length (Db.crawlJobs db)))
    (Z.of_nat (length successful))
    (Z.of_nat (length
                 (List.filter
                    (fun j => CrawlJob.status_eqb (CrawlJob.status j) CrawlJob.failed)
                    (Db.crawlJobs db))))
    (sql_max (flat_map (fun j => match CrawlJob.completedAt j with
                                 | Some t => [t]
                                 | None => []
                                 end) successful)).

(** The statistics [getStats] computes when it does not answer from the
    cache. *)
Definition compute (db : Db.t) (includeDetails : bool) : Result AppError PlatformStats :=
  let totalComponents :=
    Z.of_nat (length (List.filter (fun c => Bool.eqb (Component.isActive c) true)
                        (Db.components db))) in
  let totalSources :=
    Z.of_nat (length (List.filter (fun s => Bool.eqb (SourceWebsite.isActive s) true)
                        (Db.sourceWebsites db))) in
  let totalTypes := Z.of_nat (length (Db.componentTypes db)) in
  let lastUpdateTime := sql_max (map Component.updatedAt (Db.components db)) in
  if includeDetails then
    match ComponentService.getPopular db 10 with
    | Err _ => Err (mkAppError 500 "Failed to fetch platform statistics")
    | Ok popular =>
        Ok (mkStats totalComponents totalSources totalTypes lastUpdateTime
              (Some popular)
              (Some (countByName SourceWebsite.name
                       (activeJoined
                          (Sql.leftJoin
                             (fun c s => String.eqb (Component.sourceWebsiteId c)
                                           (SourceWebsite.id s))
                             (Db.components db) (Db.sourceWebsites db)))))
              (Some (countByName ComponentType.name
                       (activeJoined
                          (Sql.leftJoin
                             (fun c t => String.eqb (Component.componentTypeId c)
                                           (ComponentType.id t))
                             (Db.components db) (Db.componentTypes db)))))
              (Some (getCrawlStats db)))
    end
  else
    Ok (mkStats totalComponents totalSources totalTypes lastUpdateTime
          None None None None).

(** [getStats(includeDetails)].  [now] is the [new Date()] of the cache
    check, [computedAt] the [Date.now()] of the cache update. *)
Definition getStats (db : Db.t) (st : State) (now computedAt : Z) (includeDetails : bool)
  : Result AppError (PlatformStats * State) :=
  match statsCache st, cacheExpiry st with
  | Some cached, Some expiry =>
      if now <? expiry then Ok (cached, st)
      else
        match compute db includeDetails with
        | Ok stats => Ok (stats, mkState (Some stats) (Some (computedAt + cacheDuration)))
        | Err e => Err e
        end
  | _, _ =>
      match compute db includeDetails with
      | Ok stats => Ok (stats, mkState (Some stats) (Some (computedAt + cacheDuration)))
      | Err e => Err e
      end
  end.


(** The body of GET /api/stats: [popularComponents || []]. *)
Record StatsBody := mkBody {
  body_totalComponents : Z;
  body_totalSources : Z;
  body_totalTypes : Z;
  body_lastUpdateTime : option timestamp;
  body_popularComponents : list Component.t;
}.

(** GET /api/stats *)
Definition getStatsRoute (db : Db.t) (st : State) (now computedAt : Z)
  : Response StatsBody * State :=
  match getStats db st now computedAt true with
  | Ok (stats, st') =>
      (Json 200 (mkBody (totalComponents stats) (totalSources stats) (totalTypes stats)
                   (lastUpdateTime stats) (default [] (popularComponents stats))), st')
  | Err e => (Failure (errorHandler (ThrownApp e)), st)
  end.

End StatsService.

(** ** A small catalog *)

Module Example.

Definition shadcn : SourceWebsite.t :=
  SourceWebsite.mk "src-1" "shadcn/ui" "https://ui.shadcn.com" "shadcn-ui"
    SourceWebsite.success 3 true.

Definition magic : SourceWebsite.t :=
  SourceWebsite.mk "src-2" "Magic UI" "https://magicui.design" "magic-ui"
    SourceWebsite.running 0 true.

Definition buttonType : ComponentType.t := ComponentType.mk "type-1" "Button" "button" 0.
Definition cardType : ComponentType.t := ComponentType.mk "type-2" "Card" "card" 1.

(** A card that is merely tagged "button". *)
Definition tagged : Component.t :=
  Component.mk "cmp-1" "src-1" "type-2" "Card" "card"
    (Some "A surface for content") "https://ui.shadcn.com/docs/components/card"
    "export const Card = 1"
    ["layout"; "button"] "hash-card" true 5 100 100.

(** A component named "Button", viewed more often. *)
Definition named : Component.t :=
  Component.mk "cmp-2" "src-1" "type-1" "Button" "button"
    (Some "Triggers an action") "https://ui.shadcn.com/docs/components/button"
    "export const Button = 1"
    ["action"] "hash-button" true 9 200 200.

(** A soft-removed component. *)
Definition retired : Component.t :=
  Component.mk "cmp-3" "src-1" "type-1" "Button Group" "button-group"
    None "https://ui.shadcn.com/docs/components/button-group"
    "export const ButtonGroup = 1"
    ["action"] "hash-group" false 2 300 300.

Definition staleJob : CrawlJob.t :=
  CrawlJob.mk "job-1" "src-2" CrawlJob.running (Some 1000) None 0 0 0 0 None 900.

Definition db : Db.t :=
  Db.mk [shadcn; magic] [buttonType; cardType] [tagged; named; retired] [staleJob] [].

Definition noFilter : SearchService.SearchFilter := SearchService.mkFilter None None.

(** The catalog before "Button" was added, and the service with the
    index built from it at time 0. *)
Definition olderDb : Db.t :=
  Db.mk [shadcn; magic] [buttonType; cardType] [tagged; retired] [staleJob] [].

Definition staleService : SearchService.State :=
  SearchService.buildSearchIndex olderDb [] 0.

(** A search function to run the examples with, in place of Fuse.js:
    the entries whose name contains the query. *)
Definition nameSearch (index : SearchService.Fuse) (query : string) (limit : Z)
  : list SearchService.IndexedComponent :=
  firstn (Z.to_nat limit)
    (List.filter (fun d => Sql.ilike (SearchService.indexed_name d) ("%" +:+ query +:+ "%"))
       (SearchService.collection index)).

(** A moment, more than five minutes after the index was built, at which
    a first call of [clientSearch] is waiting for the select of its
    rebuild. *)
Definition rebuilding : SearchService.World :=
  SearchService.mkWorld db staleService [SearchService.AwaitingSelect 399990 "card" 20].

(** The items of a crawl of the first source, and a catalog that holds
    an older "card" and a "badge" the source no longer reports. *)
Definition crawled : list MergeEngine.Normalized :=
  [MergeEngine.mkNormalized "card" "Card" (Some "A surface for content")
     "export const Card = 1" ["layout"] "fp-card-2";
   MergeEngine.mkNormalized "button" "Button" None
     "export const Button = 1" ["action"] "fp-button"].

Definition catalogBefore : gmap MergeEngine.Key MergeEngine.Entry :=
  <[("src-1", "card") :=
      MergeEngine.mkEntry "Card" None "export const Card = 0" [] "fp-card-1" true 7 50]>
    (<[("src-1", "badge") :=
         MergeEngine.mkEntry "Badge" None "export const Badge = 0" [] "fp-badge" true 1 50]>
       ∅).


(** A query of 501 characters, and a request that carries it. *)
Definition longQuery : string := string_of_list_ascii (repeat "a"%char 501).

Definition longRequest : Schemas.RawSearchQuery :=
  Schemas.mkRawSearch (Schemas.Str longQuery) Schemas.Undefined Schemas.Undefined
    Schemas.Missing.

(** A slug of two characters, the second a NUL byte. *)
Definition nulSlug : string := String "a"%char (String Ascii.zero EmptyString).

(** A second "button" of the same source, as a crawl would hand it to
    [create]. *)
Definition secondButton : ComponentService.NewComponent :=
  ComponentService.mkNew None "src-1" "type-1" "Button" "button"
    (Some "Another button") "https://ui.shadcn.com/docs/components/button"
    "export const Button = 2" (Some ["action"])
    "hash-button-2" None None None None.

End Example.

(** ** Notions used to state the properties *)

(** The components of the catalog that satisfy the conditions of a search. *)
Definition matching (db : Db.t) (query : string) (filter : SearchService.SearchFilter)
  : list Component.t :=
  List.filter (and_conditions (SearchService.conditions db query filter)) (Db.components db).

(** The components a search returned, in the order returned. *)
Definition returned (r : Result AppError (SearchService.SearchResult SearchService.ResultItem * Db.t))
  : list Component.t :=
  match r with
  | Ok (res, _) => map SearchService.component (SearchService.results res)
  | Err _ => []
  end.

(** What a call answers, without the database it leaves. *)
Definition outcome {E A} (r : Result E (A * Db.t)) : Result E A :=
  match r with
  | Ok (a, _) => Ok a
  | Err e => Err e
  end.


(** The primary keys of the two joined tables hold. *)
Definition joined_keys_unique (db : Db.t) : Prop :=
  NoDup (map SourceWebsite.id (Db.sourceWebsites db))
  /\ NoDup (map ComponentType.id (Db.componentTypes db)).

(** The components a browse listed. *)
Definition listed (r : Result AppError ComponentService.PaginatedComponents)
  : list Component.t :=
  match r with
  | Ok page => ComponentService.components page
  | Err _ => []
  end.

(** The database a call leaves. *)
Definition store_after {E A} (db : Db.t) (r : Result E (A * Db.t)) : Db.t :=
  match r with
  | Ok (_, db') => db'
  | Err _ => db
  end.

(** A filter value names a slug that no row of the table carries. *)
Definition names_unknown (slugs : list string) (supplied : option string) : Prop :=
  exists slug, supplied = Some slug /\ ~ In slug slugs.

(** [effective] is [supplied], or nothing when [supplied] names an
    unknown slug. *)
Definition dropped_if_unknown (slugs : list string) (supplied effective : option string)
  : Prop :=
  effective = supplied \/ (names_unknown slugs supplied /\ effective = None).

(** Some job of the source is running. *)
Definition has_running_job (db : Db.t) (sourceId : uuid) : Prop :=
  exists j, In j (Db.crawlJobs db)
            /\ CrawlJob.sourceWebsiteId j = sourceId
            /\ CrawlJob.status j = CrawlJob.running.

(** At most one active component per (sourceWebsiteId, slug): two active
    rows with the same pair are the same row. *)
Definition at_most_one_active (rows : list Component.t) : Prop :=
  forall i j (a b : Component.t),
    rows !! i = Some a -> rows !! j = Some b ->
    Component.isActive a = true -> Component.isActive b = true ->
    Component.sourceWebsiteId a = Component.sourceWebsiteId b ->
    Component.slug a = Component.slug b ->
    i = j.

(** The issues a schema raised on the field at [path]. *)
Definition issues_at {A} (path : string) (r : Result (list Schemas.ZodIssue) A)
  : list Schemas.ZodIssue :=
  List.filter (fun i => String.eqb (Schemas.path i) path) (Schemas.issues r).

(** The response of the error handler to the issues of a failed parse. *)
Definition validation_error (issues : list Schemas.ZodIssue) : ErrorResponse :=
  mkErrorResponse 400 "ZodError" "Validation error" issues.

(** An index built in one piece from all the active components of one
    of the states [dbs] of the database, in the order in which the
    database yielded them. *)
Definition built_from (dbs : list Db.t) (index : SearchService.Fuse) : Prop :=
  exists d order,
    In d dbs
    /\ index = SearchService.mkFuse (Sql.yield order (SearchService.allComponents d))
                 SearchService.fuseOptions.

(** An index is in place, and it is such an index. *)
Definition index_in_place (dbs : list Db.t) (st : SearchService.State) : Prop :=
  exists index, SearchService.fuseIndex st = Some index /\ built_from dbs index.

(** The index in place is a whole one: none yet, or the index of all
    the active components of one state of the database. *)
Definition whole_index (dbs : list Db.t) (st : SearchService.State) : Prop :=
  SearchService.fuseIndex st = None \/ index_in_place dbs st.

(** The answer to a call made at [startTime] for [query] and [limit] is
    the list that Fuse.js finds in such an index. *)
Definition answered_from
    (fuse_search : SearchService.Fuse -> string -> Z -> list SearchService.IndexedComponent)
    (dbs : list Db.t) (startTime : Z) (query : string) (limit : Z)
    (r : Result AppError (SearchService.SearchResult SearchService.IndexedComponent))
  : Prop :=
  exists index endTime,
    built_from dbs index
    /\ r = Ok (SearchService.mkResult (fuse_search index query limit)
                 (Z.of_nat (length (fuse_search index query limit)))
                 (endTime - startTime) None).

(** Where a call made at [startTime] for [query] and [limit] can be: at
    the select of its rebuild; past it, with a whole index in place; or
    answered from a whole index. *)
Definition call_progress
    (fuse_search : SearchService.Fuse -> string -> Z -> list SearchService.IndexedComponent)
    (dbs : list Db.t) (st : SearchService.State)
    (startTime : Z) (query : string) (limit : Z) (c : SearchService.Call) : Prop :=
  match c with
  | SearchService.AwaitingSelect t q l => (t, q, l) = (startTime, query, limit)
  | SearchService.AwaitingBuild t q l =>
      (t, q, l) = (startTime, query, limit) /\ index_in_place dbs st
  | SearchService.Returned r => answered_from fuse_search dbs startTime query limit r
  end.

(** No call is past its rebuild without a whole index in place, and
    every answer given was computed from a whole index. *)
Definition call_whole
    (fuse_search : SearchService.Fuse -> string -> Z -> list SearchService.IndexedComponent)
    (dbs : list Db.t) (st : SearchService.State) (c : SearchService.Call) : Prop :=
  match c with
  | SearchService.AwaitingSelect _ _ _ => True
  | SearchService.AwaitingBuild _ _ _ => index_in_place dbs st
  | SearchService.Returned r =>
      exists startTime query limit, answered_from fuse_search dbs startTime query limit r
  end.


(** The event is the reply of the database to the select of call [i]. *)
Definition replies_to (i : nat) (e : SearchService.Event) : bool :=
  match e with
  | SearchService.SelectReturns j _ _ => Nat.eqb j i
  | _ => false
  end.

(** The index is in place and at most five minutes old. *)
Definition index_fresh (st : SearchService.State) (now : Z) (index : SearchService.Fuse)
  : Prop :=
  SearchService.fuseIndex st = Some index
  /\ exists last, SearchService.lastIndexUpdate st = Some last /\ now - last <= 300000.

(** The index is missing, or older than five minutes. *)
Definition index_stale (st : SearchService.State) (now : Z) : Prop :=
  SearchService.fuseIndex st = None
  \/ SearchService.lastIndexUpdate st = None
  \/ exists last, SearchService.lastIndexUpdate st = Some last /\ 300000 < now - last.

(** The components a browse selects, before they are ordered and paged,
    and in the order of the sort. *)
Definition browsed (db : Db.t) (filter : ComponentService.ComponentFilter)
  : list Component.t :=
  List.filter (and_conditions (ComponentService.conditions db filter)) (Db.components db).

Definition browsed_in_order (db : Db.t) (filter : ComponentService.ComponentFilter)
    (sort : ComponentService.Sort) : list Component.t :=
  sort_by (ComponentService.orderBy sort) (browsed db filter).

(** The sort leaves no choice among the selected components: no two of
    them tie on the sort key.  (Among ties the database may order the
    rows differently from one query to the next.) *)
Definition order_determined (db : Db.t) (filter : ComponentService.ComponentFilter)
    (sort : ComponentService.Sort) : Prop :=
  forall a b,
    In a (browsed db filter) -> In b (browsed db filter) ->
    ComponentService.orderBy sort a b = true ->
    ComponentService.orderBy sort b a = true ->
    a = b.

(** Each element is in the given order with the next one. *)
Fixpoint in_order {A} (le : A -> A -> bool) (l : list A) : Prop :=
  match l with
  | a :: (b :: _) as rest => le a b = true /\ in_order le rest
  | _ => True
  end.

(** The constraints of [components] hold of the table. *)
Definition components_valid (db : Db.t) : Prop :=
  ComponentService.unique_ids (map Component.id (Db.components db)) = true
  /\ forallb (ComponentService.row_ok db) (Db.components db) = true.

(** The query folded to lower case, letter by letter. *)
Definition folded (query : string) : list ascii :=
  map Sql.lower (list_ascii_of_string query).

(** The status of a response. *)
Definition status_of {A} (r : Response A) : Z :=
  match r with
  | Json status _ => status
  | Failure e => status e
  end.

(** [Number.MAX_SAFE_INTEGER]: up to it the arithmetic of JavaScript
    numbers is that of the integers, and a LIMIT or an OFFSET fits the
    bigint of the database. *)
Definition max_safe_integer : Z := 9007199254740991.

(** The active components of the sources, and of the types, with a
    given name. *)
Definition active_of_source_named (db : Db.t) (name : string) : list Component.t :=
  List.filter
    (fun c => Bool.eqb (Component.isActive c) true
              && existsb (fun s => String.eqb (Component.sourceWebsiteId c)
                                     (SourceWebsite.id s)
                                   && String.eqb (SourceWebsite.name s) name)
                   (Db.sourceWebsites db))
    (Db.components db).

Definition active_of_type_named (db : Db.t) (name : string) : list Component.t :=
  List.filter
    (fun c => Bool.eqb (Component.isActive c) true
              && existsb (fun t => String.eqb (Component.componentTypeId c)
                                     (ComponentType.id t)
                                   && String.eqb (ComponentType.name t) name)
                   (Db.componentTypes db))
    (Db.components db).

(** The entry of a count in a [Record<string, number>]: absent when
    nothing was counted. *)
Definition count_entry (n : nat) : option Z :=
  match n with
  | O => None
  | S _ => Some (Z.of_nat n)
  end.


(** The row with one more view. *)
Definition viewed (c : Component.t) : Component.t :=
  Component.mk (Component.id c) (Component.sourceWebsiteId c)
    (Component.componentTypeId c) (Component.name c) (Component.slug c)
    (Component.description c) (Component.sourceUrl c) (Component.sourceCode c)
    (Component.tags c)
    (Component.contentHash c) (Component.isActive c)
    (Component.viewCount c + 1)
    (Component.createdAt c) (Component.updatedAt c).

(** * Properties *)

(** ** Queries *)

Lemma limit_Some {A} (n : Z) (rows l : list A) :
  Sql.limit n rows = Some l -> 0 <= n /\ l = firstn (Z.to_nat n) rows.
Proof.
  unfold Sql.limit. destruct (n <? 0) eqn:Hn; [discriminate|].
  intros [= <-]. split; [lia | reflexivity].
Qed.

Lemma limit_is_Some {A} (n : Z) (rows : list A) :
  0 <= n -> Sql.limit n rows = Some (firstn (Z.to_nat n) rows).
Proof.
  intros Hn. unfold Sql.limit. destruct (n <? 0) eqn:E; [lia | reflexivity].
Qed.

Lemma In_limited {A} (n : nat) (x : A) (l : list A) : In x (firstn n l) -> In x l.
Proof.
  revert l. induction n as [|n IH]; intros [|y l]; simpl; try easy.
  intros [->|H]; [now left | right; now apply IH].
Qed.

(** What the database yields is a rearrangement of the rows. *)
Lemma yield_Permutation {A} (order : list nat) (rows : list A) :
  Permutation (Sql.yield order rows) rows.
Proof.
  revert order. induction rows as [|r rest IH]; intros order; [reflexivity|].
  cbn [Sql.yield]. rewrite <- Permutation_middle, List.firstn_skipn.
  constructor. apply IH.
Qed.

Lemma In_yield {A} (order : list nat) (rows : list A) (x : A) :
  In x (Sql.yield order rows) <-> In x rows.
Proof.
  split; apply Permutation_in; [|symmetry]; apply yield_Permutation.
Qed.

Lemma length_yield {A} (order : list nat) (rows : list A) :
  length (Sql.yield order rows) = length rows.
Proof. apply Permutation_length, yield_Permutation. Qed.

Lemma map_yield {A B} (f : A -> B) (order : list nat) (rows : list A) :
  map f (Sql.yield order rows) = Sql.yield order (map f rows).
Proof.
  revert order. induction rows as [|r rest IH]; intros order; [reflexivity|].
  cbn [Sql.yield map].
  now rewrite <- IH, List.firstn_map, List.skipn_map, List.map_app.
Qed.

(** With no picks the rows come in the order of the table. *)
Lemma yield_nil {A} (rows : list A) : Sql.yield [] rows = rows.
Proof. induction rows as [|r rest IH]; [reflexivity|]. cbn. now rewrite IH. Qed.

(** Every rearrangement of the rows is the yield of some picks. *)
Lemma yield_any {A} (rows rows' : list A) :
  Permutation rows' rows -> exists order, Sql.yield order rows = rows'.
Proof.
  revert rows'. induction rows as [|r rest IH]; intros rows' Hp.
  - apply Permutation_sym, Permutation_nil in Hp. subst. now exists [].
  - assert (Hin : In r rows') by (eapply Permutation_in; [symmetry; exact Hp | now left]).
    apply in_split in Hin as (l1 & l2 & ->).
    apply Permutation_sym, Permutation_cons_app_inv, Permutation_sym in Hp.
    destruct (IH _ Hp) as (order & Ho).
    exists (length l1 :: order). cbn [Sql.yield hd tl]. rewrite Ho.
    rewrite List.firstn_app, List.firstn_all, Nat.sub_diag, List.skipn_app,
      List.skipn_all, Nat.sub_diag. cbn. now rewrite List.app_nil_r.
Qed.

Lemma leftJoin_cons {A B} (on : A -> B -> bool) a l r :
  Sql.leftJoin on (a :: l) r =
  match List.filter (on a) r with
  | [] => [(a, None)]
  | ms => map (fun b => (a, Some b)) ms
  end ++ Sql.leftJoin on l r.
Proof. reflexivity. Qed.

(** The rows a left row contributes to a join all carry it, and there is
    at least one. *)
Lemma leftJoin_block {A B} (on : A -> B -> bool) (a : A) (r : list B) :
  let block := match List.filter (on a) r with
               | [] => [(a, None)]
               | ms => map (fun b => (a, Some b)) ms
               end in
  block <> [] /\ Forall (fun x => fst x = a) block.
Proof.
  simpl. destruct (List.filter (on a) r) as [|b ms].
  - split; [discriminate | repeat constructor].
  - split; [discriminate|].
    apply List.Forall_forall. intros x [<- | Hx]; [reflexivity|].
    apply in_map_iff in Hx as (y & <- & _). reflexivity.
Qed.

Lemma filter_all {A} (p : A -> bool) (l : list A) :
  Forall (fun x => p x = true) l -> List.filter p l = l.
Proof.
  induction 1 as [|x l Hx _ IH]; simpl; [reflexivity|]. now rewrite Hx, IH.
Qed.

Lemma filter_none {A} (p : A -> bool) (l : list A) :
  Forall (fun x => p x = false) l -> List.filter p l = [].
Proof.
  induction 1 as [|x l Hx _ IH]; simpl; [reflexivity|]. now rewrite Hx, IH.
Qed.

(** A join never loses a left row: filtering on the left row after the
    join keeps at least as many rows as filtering before it. *)
Lemma leftJoin_filter_length {A B} (on : A -> B -> bool) (p : A -> bool) l r :
  (length (List.filter p l) <=
   length (List.filter (fun x => p (fst x)) (Sql.leftJoin on l r)))%nat.
Proof.
  induction l as [|a l IH]; [simpl; lia|].
  rewrite leftJoin_cons, List.filter_app, List.length_app.
  destruct (leftJoin_block on a r) as [Hne Hall].
  set (block := match List.filter (on a) r with
                | [] => [(a, None)]
                | ms => map (fun b => (a, Some b)) ms
                end) in *.
  simpl. destruct (p a) eqn:Hp.
  - rewrite (filter_all _ block).
    + destruct block; [congruence | simpl; lia].
    + eapply List.Forall_impl; [|exact Hall]. simpl. intros x ->. exact Hp.
  - lia.
Qed.

(** With at most one match per left row, a join has exactly one row per
    left row, in the order of the left table. *)
Lemma leftJoin_fst {A B} (on : A -> B -> bool) l r :
  (forall a, (length (List.filter (on a) r) <= 1)%nat) ->
  map fst (Sql.leftJoin on l r) = l.
Proof.
  intros Hone. induction l as [|a l IH]; [reflexivity|].
  rewrite leftJoin_cons, List.map_app, IH.
  specialize (Hone a). destruct (List.filter (on a) r) as [|b [|b' ms]]; simpl in *;
    [reflexivity | reflexivity | lia].
Qed.

Lemma unique_match {A} (key : A -> string) (k : string) (l : list A) :
  NoDup (map key l) ->
  (length (List.filter (fun x => String.eqb k (key x)) l) <= 1)%nat.
Proof.
  induction l as [|x l IH]; simpl; [lia|].
  intros Hnd. apply NoDup_cons in Hnd as [Hx Hnd].
  destruct (String.eqb k (key x)) eqn:E.
  - apply String.eqb_eq in E. subst k. simpl.
    rewrite filter_none; [simpl; lia|].
    apply List.Forall_forall. intros y Hy. apply String.eqb_neq. intros Heq.
    apply Hx. rewrite Heq. apply list_elem_of_In. now apply in_map.
  - now apply IH.
Qed.

Lemma map_filter_comm {A B} (f : A -> B) (p : B -> bool) (l : list A) :
  map f (List.filter (fun x => p (f x)) l) = List.filter p (map f l).
Proof.
  induction l as [|x l IH]; simpl; [reflexivity|].
  destruct (p (f x)); simpl; now rewrite IH.
Qed.

(** Under the primary keys the joined rows are the components, one row
    each, in the order of the table. *)
Lemma joinedRows_components (db : Db.t) :
  joined_keys_unique db ->
  map (fun r => fst (fst r)) (SearchService.joinedRows db) = Db.components db.
Proof.
  intros [Hs Ht]. unfold SearchService.joinedRows.
  rewrite <- (List.map_map fst fst).
  rewrite leftJoin_fst by (intros [c o]; simpl; now apply unique_match).
  apply leftJoin_fst. intros c. now apply unique_match.
Qed.

(** Logging a search touches [search_logs] only. *)
Lemma logSearch_components db query filters n t sid :
  Db.components (SearchService.logSearch db query filters n t sid) = Db.components db
  /\ Db.sourceWebsites (SearchService.logSearch db query filters n t sid)
     = Db.sourceWebsites db
  /\ Db.componentTypes (SearchService.logSearch db query filters n t sid)
     = Db.componentTypes db
  /\ Db.crawlJobs (SearchService.logSearch db query filters n t sid) = Db.crawlJobs db.
Proof. unfold SearchService.logSearch. now destruct (_ || _). Qed.

(** What [search] answers, spelled out. *)
Lemma search_Ok db order startTime endTime query limit filter sessionId r db' :
  SearchService.search db order startTime endTime query limit filter sessionId = Ok (r, db') ->
  0 <= limit
  /\ SearchService.results r =
     map SearchService.toItem
       (firstn (Z.to_nat limit)
          (Sql.yield order
             (List.filter
                (fun x => and_conditions (SearchService.conditions db query filter)
                            (fst (fst x)))
                (SearchService.joinedRows db))))
  /\ SearchService.total r = Z.of_nat (length (SearchService.results r))
  /\ Db.components db' = Db.components db.
Proof.
  unfold SearchService.search.
  destruct (negb (SearchService.binds query filter)); [discriminate|].
  destruct (Sql.limit limit _) as [rows|] eqn:Hl; [|discriminate].
  apply limit_Some in Hl as [Hn ->]. intros [= <- <-]. simpl.
  rewrite List.length_map. repeat split; try easy.
  destruct sessionId as [sid|]; [|reflexivity].
  destruct (negb _); [|reflexivity].
  apply logSearch_components.
Qed.

(** [search] answers whenever its parameters can be bound and the limit
    is not negative; with a parameter that cannot be bound it fails. *)
Lemma search_succeeds db order startTime endTime query limit filter sessionId :
  0 <= limit ->
  SearchService.binds query filter = true ->
  exists r db',
    SearchService.search db order startTime endTime query limit filter sessionId = Ok (r, db').
Proof.
  intros Hn Hb. unfold SearchService.search. rewrite Hb, limit_is_Some by assumption.
  cbn [negb]. eauto.
Qed.

Lemma search_unbound db order startTime endTime query limit filter sessionId :
  SearchService.binds query filter = false ->
  SearchService.search db order startTime endTime query limit filter sessionId
  = Err (mkAppError 500 "Search failed").
Proof. intros Hb. unfold SearchService.search. now rewrite Hb. Qed.

Lemma and_conditions_app (cs ds : list Condition) (c : Component.t) :
  and_conditions (cs ++ ds) c = and_conditions cs c && and_conditions ds c.
Proof. unfold and_conditions. apply forallb_app. Qed.

(** A component that satisfies the conditions of a search is active and
    matches the query. *)
Lemma conditions_sound db query filter c :
  and_conditions (SearchService.conditions db query filter) c = true ->
  Component.isActive c = true /\ SearchService.searchConditions query c = true.
Proof.
  unfold SearchService.conditions. rewrite !and_conditions_app.
  intros H. apply andb_true_iff in H as [Ha H].
  apply andb_true_iff in H as [_ H]. apply andb_true_iff in H as [_ H].
  unfold and_conditions in Ha, H. simpl in Ha, H.
  rewrite andb_true_r in Ha, H. split; [|exact H].
  now destruct (Component.isActive c).
Qed.

(** ** Search *)

(** C10.  The [total] of a search result is the length of the returned
    [results], which the limit caps; when more components match than the
    limit allows, [total] is the limit, not the number of matches. *)
Theorem search_total_is_returned_length
    db order startTime endTime query limit filter sessionId r db' :
  SearchService.search db order startTime endTime query limit filter sessionId = Ok (r, db') ->
  SearchService.total r = Z.of_nat (length (SearchService.results r))
  /\ SearchService.total r <= limit
  /\ (limit < Z.of_nat (length (matching db query filter)) ->
      SearchService.total r = limit
      /\ SearchService.total r < Z.of_nat (length (matching db query filter))).
Proof.
  intros H. apply search_Ok in H as (Hn & Hres & Htot & _).
  rewrite Htot, Hres, List.length_map, List.length_firstn, length_yield.
  pose proof (leftJoin_filter_length
                (fun (x : Component.t * option SourceWebsite.t) t =>
                   String.eqb (Component.componentTypeId (fst x)) (ComponentType.id t))
                (fun x => and_conditions (SearchService.conditions db query filter) (fst x))
                (Sql.leftJoin
                   (fun c s => String.eqb (Component.sourceWebsiteId c) (SourceWebsite.id s))
                   (Db.components db) (Db.sourceWebsites db))
                (Db.componentTypes db)) as H2.
  pose proof (leftJoin_filter_length
                (fun c s => String.eqb (Component.sourceWebsiteId c) (SourceWebsite.id s))
                (and_conditions (SearchService.conditions db query filter))
                (Db.components db) (Db.sourceWebsites db)) as H1.
  fold (matching db query filter) in H1.
  fold (SearchService.joinedRows db) in H2.
  split; [reflexivity|]. split; [lia|]. intros Hmore. lia.
Qed.

Lemma search_total_is_returned_length_witness :
  exists r,
    outcome (SearchService.search Example.db [] 0 3 "button" 1 Example.noFilter None) = Ok r
    /\ SearchService.total r = 1
    /\ SearchService.total r < Z.of_nat (length (matching Example.db "button" Example.noFilter)).
Proof.
  destruct (SearchService.search Example.db [] 0 3 "button" 1 Example.noFilter None)
    as [[r db']|e] eqn:E; [|vm_compute in E; discriminate].
  exists r.
  destruct (search_total_is_returned_length _ _ _ _ _ _ _ _ _ _ E) as (_ & _ & H).
  split; [reflexivity|]. apply H. vm_compute. reflexivity.
Defined.

(** The catalog of the example: "Card" is merely tagged "button", a
    component is named "Button" and has the higher view count. *)
Example tagged_only_by_tag :
  Sql.ilike (Component.name Example.tagged) "%button%" = false
  /\ Sql.ilike_nullable (Component.description Example.tagged) "%button%" = false
  /\ Sql.ilike (Sql.jsonb_text (Component.tags Example.tagged)) "%button%" = true
  /\ Sql.ilike (Component.name Example.named) "%button%" = true
  /\ Component.viewCount Example.tagged < Component.viewCount Example.named.
Proof. vm_compute. repeat split. Qed.

(** What [search] returns, under the primary keys of the joined tables:
    the components that satisfy its conditions, as the database yields
    them, up to the limit. *)
Lemma search_returned db order startTime endTime query limit filter sessionId :
  joined_keys_unique db ->
  0 <= limit ->
  SearchService.binds query filter = true ->
  returned (SearchService.search db order startTime endTime query limit filter sessionId)
  = firstn (Z.to_nat limit) (Sql.yield order (matching db query filter)).
Proof.
  intros Hkeys Hn Hb.
  destruct (search_succeeds db order startTime endTime query limit filter sessionId Hn Hb)
    as (r & db' & E).
  rewrite E. simpl.
  apply search_Ok in E as (_ & Hres & _ & _).
  rewrite Hres, List.map_map. unfold SearchService.toItem. simpl.
  rewrite <- List.firstn_map, map_yield. unfold matching.
  rewrite (map_filter_comm (fun x : Component.t * option SourceWebsite.t
                                    * option ComponentType.t => fst (fst x))
             (and_conditions (SearchService.conditions db query filter))).
  now rewrite joinedRows_components.
Qed.




(** ** Filters *)

Lemma filter_unknown {A} (key : A -> string) (slug : string) (l : list A) :
  ~ In slug (map key l) ->
  List.filter (fun x => String.eqb (key x) slug) l = [].
Proof.
  intros Hnot. apply filter_none, List.Forall_forall. intros x Hx.
  apply String.eqb_neq. intros <-. apply Hnot. now apply in_map.
Qed.

Lemma search_sourceConditions_dropped db supplied effective ty ty' :
  dropped_if_unknown (map SourceWebsite.slug (Db.sourceWebsites db)) supplied effective ->
  SearchService.sourceConditions db (SearchService.mkFilter supplied ty)
  = SearchService.sourceConditions db (SearchService.mkFilter effective ty').
Proof.
  intros [-> | [(slug & -> & Hnot) ->]]; [reflexivity|].
  unfold SearchService.sourceConditions, SearchService.sourceBySlug. simpl.
  rewrite filter_unknown by assumption. now destruct (negb _).
Qed.

Lemma search_typeConditions_dropped db supplied effective src src' :
  dropped_if_unknown (map ComponentType.slug (Db.componentTypes db)) supplied effective ->
  SearchService.typeConditions db (SearchService.mkFilter src supplied)
  = SearchService.typeConditions db (SearchService.mkFilter src' effective).
Proof.
  intros [-> | [(slug & -> & Hnot) ->]]; [reflexivity|].
  unfold SearchService.typeConditions, SearchService.typeBySlug. simpl.
  rewrite filter_unknown by assumption. now destruct (negb _).
Qed.

Lemma browse_sourceConditions_dropped db supplied effective ty ty' tags act :
  dropped_if_unknown (map SourceWebsite.slug (Db.sourceWebsites db)) supplied effective ->
  ComponentService.sourceConditions db (ComponentService.mkFilter supplied ty tags act)
  = ComponentService.sourceConditions db (ComponentService.mkFilter effective ty' tags act).
Proof.
  intros [-> | [(slug & -> & Hnot) ->]]; [reflexivity|].
  unfold ComponentService.sourceConditions, SearchService.sourceBySlug. simpl.
  rewrite filter_unknown by assumption. now destruct (negb _).
Qed.

Lemma browse_typeConditions_dropped db supplied effective src src' tags act :
  dropped_if_unknown (map ComponentType.slug (Db.componentTypes db)) supplied effective ->
  ComponentService.typeConditions db (ComponentService.mkFilter src supplied tags act)
  = ComponentService.typeConditions db (ComponentService.mkFilter src' effective tags act).
Proof.
  intros [-> | [(slug & -> & Hnot) ->]]; [reflexivity|].
  unfold ComponentService.typeConditions, SearchService.typeBySlug. simpl.
  rewrite filter_unknown by assumption. now destruct (negb _).
Qed.

(** The answer of [search] depends on the filter through its conditions
    and through the slugs it binds; the filter as supplied goes to the
    search log. *)
Lemma search_outcome_conditions db order startTime endTime query limit f g sessionId :
  SearchService.conditions db query f = SearchService.conditions db query g ->
  SearchService.binds query f = SearchService.binds query g ->
  outcome (SearchService.search db order startTime endTime query limit f sessionId)
  = outcome (SearchService.search db order startTime endTime query limit g sessionId).
Proof.
  intros E Eb. unfold SearchService.search. rewrite E, Eb.
  destruct (negb _); [reflexivity|].
  now destruct (Sql.limit limit _).
Qed.

Lemma dropped_binds slugs supplied effective :
  dropped_if_unknown slugs supplied effective ->
  Sql.optionally Sql.bindable supplied = true ->
  Sql.optionally Sql.bindable effective = true.
Proof. intros [-> | [_ ->]] H; [exact H | reflexivity]. Qed.

(** C9, as stated, fails: a filter slug that holds a NUL byte passes the
    schema of the filter and names no source of the store, and it is not
    dropped: the lookup of the slug cannot be bound, and [search] and
    [browse] fail with the 500 of their [catch], while the same calls
    without the filter answer. *)
Lemma unknown_slug_with_nul_fails :
  Schemas.sourceFilterSchema (Schemas.Str Example.nulSlug) = Ok (Some Example.nulSlug)
  /\ names_unknown (map SourceWebsite.slug (Db.sourceWebsites Example.db))
       (Some Example.nulSlug)
  /\ (forall order,
        SearchService.search Example.db order 0 3 "button" 10
          (SearchService.mkFilter (Some Example.nulSlug) None) None
        = Err (mkAppError 500 "Search failed"))
  /\ returned (SearchService.search Example.db [] 0 3 "button" 10 Example.noFilter None)
     = [Example.tagged; Example.named]
  /\ ComponentService.browse Example.db 1 20
       (ComponentService.mkFilter (Some Example.nulSlug) None None None)
       ComponentService.newest
     = Err (mkAppError 500 "Failed to browse components")
  /\ listed (ComponentService.browse Example.db 1 20
               (ComponentService.mkFilter None None None None) ComponentService.newest)
     = [Example.named; Example.tagged].
Proof.
  split; [vm_compute; reflexivity|]. split.
  - exists Example.nulSlug. split; [reflexivity|].
    apply (bool_decide_unpack _). vm_compute. exact I.
  - split; [intros order; reflexivity|]. vm_compute. repeat split.
Qed.

(** C9, amended.  A source or type filter that names a slug absent from
    the store, and that can be bound, is dropped: [search] and [browse]
    answer as they do without it (the rows of a search taken in the same
    order of yield), neither with an error nor with an empty result.  A
    filter slug that holds a NUL byte cannot be bound: the call fails
    with the 500 of its [catch]. *)
Theorem unknown_filter_slug_is_dropped db source source' type type' :
  dropped_if_unknown (map SourceWebsite.slug (Db.sourceWebsites db)) source source' ->
  dropped_if_unknown (map ComponentType.slug (Db.componentTypes db)) type type' ->
  Sql.optionally Sql.bindable source = true ->
  Sql.optionally Sql.bindable type = true ->
  (forall order startTime endTime query limit sessionId,
      outcome (SearchService.search db order startTime endTime query limit
                 (SearchService.mkFilter source type) sessionId)
      = outcome (SearchService.search db order startTime endTime query limit
                   (SearchService.mkFilter source' type') sessionId))
  /\ (forall page limit tags isActive sort,
         ComponentService.browse db page limit
           (ComponentService.mkFilter source type tags isActive) sort
         = ComponentService.browse db page limit
             (ComponentService.mkFilter source' type' tags isActive) sort)
  /\ (forall slug other order startTime endTime query limit sessionId page tags isActive
             sort,
         Sql.bindable slug = false ->
         SearchService.search db order startTime endTime query limit
           (SearchService.mkFilter (Some slug) other) sessionId
         = Err (mkAppError 500 "Search failed")
         /\ SearchService.search db order startTime endTime query limit
              (SearchService.mkFilter other (Some slug)) sessionId
            = Err (mkAppError 500 "Search failed")
         /\ ComponentService.browse db page limit
              (ComponentService.mkFilter (Some slug) other tags isActive) sort
            = Err (mkAppError 500 "Failed to browse components")
         /\ ComponentService.browse db page limit
              (ComponentService.mkFilter other (Some slug) tags isActive) sort
            = Err (mkAppError 500 "Failed to browse components")).
Proof.
  intros Hs Ht Hbs Hbt.
  pose proof (dropped_binds _ _ _ Hs Hbs) as Hbs'.
  pose proof (dropped_binds _ _ _ Ht Hbt) as Hbt'.
  split; [|split].
  - intros. apply search_outcome_conditions.
    + unfold SearchService.conditions.
      now rewrite (search_sourceConditions_dropped db source source' type type' Hs),
        (search_typeConditions_dropped db type type' source source' Ht).
    + unfold SearchService.binds. cbn [SearchService.source SearchService.type].
      now rewrite Hbs, Hbt, Hbs', Hbt'.
  - intros. unfold ComponentService.browse, ComponentService.conditions,
      ComponentService.filter_binds.
    cbn [ComponentService.sourceSlug ComponentService.typeSlug ComponentService.isActive].
    rewrite Hbs, Hbt, Hbs', Hbt'.
    now rewrite (browse_sourceConditions_dropped db source source' type type' tags isActive Hs),
      (browse_typeConditions_dropped db type type' source source' tags isActive Ht).
  - intros slug other order startTime endTime query limit sessionId page tags isActive sort
      Hnul.
    repeat split.
    + apply search_unbound. unfold SearchService.binds. simpl. now rewrite Hnul.
    + apply search_unbound. unfold SearchService.binds. simpl.
      rewrite Hnul. now rewrite andb_false_r.
    + unfold ComponentService.browse, ComponentService.filter_binds. simpl.
      now rewrite Hnul.
    + unfold ComponentService.browse, ComponentService.filter_binds. simpl.
      rewrite Hnul. now rewrite andb_false_r.
Qed.

Lemma unknown_filter_slug_is_dropped_witness :
  returned (SearchService.search Example.db [] 0 3 "button" 10
              (SearchService.mkFilter (Some "no-such-source") (Some "card")) None)
  = [Example.tagged]
  /\ listed (ComponentService.browse Example.db 1 20
               (ComponentService.mkFilter (Some "no-such-source") (Some "card") None None)
               ComponentService.newest)
     = [Example.tagged].
Proof.
  destruct (unknown_filter_slug_is_dropped Example.db
              (Some "no-such-source") None (Some "card") (Some "card"))
    as (Hs & Hb & _).
  - right. split; [|reflexivity]. exists "no-such-source". split; [reflexivity|].
    apply (bool_decide_unpack _). vm_compute. exact I.
  - left. reflexivity.
  - reflexivity.
  - reflexivity.
  - split.
    + unfold returned.
      specialize (Hs [] 0 3 "button" 10 None). unfold outcome in Hs.
      destruct (SearchService.search Example.db [] 0 3 "button" 10
                  (SearchService.mkFilter (Some "no-such-source") (Some "card")) None)
        as [[r d]|e];
        destruct (SearchService.search Example.db [] 0 3 "button" 10
                    (SearchService.mkFilter None (Some "card")) None)
        as [[r' d']|e'] eqn:E'; vm_compute in E'; try discriminate.
      injection Hs as ->. injection E' as <- _. reflexivity.
    + rewrite Hb. vm_compute. reflexivity.
Defined.

(** ** Inactive components *)

Lemma In_offset {A} (n : nat) (x : A) (l : list A) : In x (skipn n l) -> In x l.
Proof.
  revert l. induction n as [|n IH]; intros [|y l]; simpl; try easy.
  intros H. right. now apply IH.
Qed.

Lemma In_insert_by {A} (le : A -> A -> bool) (x y : A) (l : list A) :
  In y (insert_by le x l) <-> y = x \/ In y l.
Proof.
  induction l as [|z l IH]; simpl.
  - intuition.
  - destruct (le x z); simpl; [intuition|]. rewrite IH. intuition.
Qed.

Lemma In_sort_by {A} (le : A -> A -> bool) (y : A) (l : list A) :
  In y (sort_by le l) <-> In y l.
Proof.
  induction l as [|x l IH]; simpl; [reflexivity|].
  rewrite In_insert_by, IH. intuition.
Qed.

(** Every component [search] returns is active. *)
Lemma returned_active db order startTime endTime query limit filter sessionId c :
  In c (returned (SearchService.search db order startTime endTime query limit filter sessionId)) ->
  Component.isActive c = true.
Proof.
  unfold returned.
  destruct (SearchService.search _ _ _ _ _ _ _ _) as [[r db']|e] eqn:E; [|easy].
  apply search_Ok in E as (_ & Hres & _ & _). rewrite Hres, List.map_map.
  intros Hc. apply in_map_iff in Hc as (x & <- & Hx). simpl.
  apply In_limited, In_yield, List.filter_In in Hx as [_ Hx].
  now apply conditions_sound in Hx.
Qed.

(** Every component [browse] lists under the default of [isActive] is
    active. *)
Lemma listed_active db page limit sourceSlug typeSlug tags sort c :
  In c (listed (ComponentService.browse db page limit
                  (ComponentService.mkFilter sourceSlug typeSlug tags None) sort)) ->
  Component.isActive c = true.
Proof.
  unfold listed, ComponentService.browse.
  destruct (negb (ComponentService.filter_binds _)); [easy|].
  destruct (Sql.offset _ _) as [rest|] eqn:Eo; [|easy].
  destruct (Sql.limit _ _) as [rows|] eqn:El; [|easy].
  simpl. intros Hc.
  apply limit_Some in El as [_ ->]. apply In_limited in Hc.
  unfold Sql.offset in Eo. destruct (_ <? 0); [discriminate|]. injection Eo as <-.
  apply In_offset, In_sort_by, List.filter_In in Hc as [_ Hc].
  unfold ComponentService.conditions in Hc. simpl in Hc.
  apply andb_true_iff in Hc as [Hc _].
  now destruct (Component.isActive c).
Qed.

(** C5.  A component with [isActive = false] is in no result of [search]
    and in no page of [browse] under the default of the [isActive]
    filter, and its row stays in the table. *)
Theorem inactive_component_excluded_row_kept db c :
  In c (Db.components db) ->
  Component.isActive c = false ->
  (forall order startTime endTime query limit filter sessionId,
      ~ In c (returned (SearchService.search db order startTime endTime query limit
                          filter sessionId))
      /\ In c (Db.components
                 (store_after db (SearchService.search db order startTime endTime query limit
                                    filter sessionId))))
  /\ (forall page limit sourceSlug typeSlug tags sort,
         ~ In c (listed (ComponentService.browse db page limit
                           (ComponentService.mkFilter sourceSlug typeSlug tags None)
                           sort))).
Proof.
  intros Hin Hinactive. split.
  - intros. split.
    + intros Hc. apply returned_active in Hc. congruence.
    + unfold store_after.
      destruct (SearchService.search _ _ _ _ _ _ _ _) as [[r db']|e] eqn:E; [|exact Hin].
      apply search_Ok in E as (_ & _ & _ & ->). exact Hin.
  - intros. intros Hc. apply listed_active in Hc. congruence.
Qed.

Lemma inactive_component_excluded_row_kept_witness :
  ~ In Example.retired
      (returned (SearchService.search Example.db [] 0 3 "button" 10 Example.noFilter
                   (Some "session")))
  /\ In Example.retired
       (Db.components
          (store_after Example.db
             (SearchService.search Example.db [] 0 3 "button" 10 Example.noFilter
                (Some "session"))))
  /\ ~ In Example.retired
         (listed (ComponentService.browse Example.db 1 20
                    (ComponentService.mkFilter None None None None)
                    ComponentService.newest)).
Proof.
  destruct (inactive_component_excluded_row_kept Example.db Example.retired) as [Hs Hb].
  - simpl. right. right. left. reflexivity.
  - reflexivity.
  - destruct (Hs [] 0 3 "button" 10 Example.noFilter (Some "session")) as [H1 H2].
    split; [exact H1|]. split; [exact H2|]. apply Hb.
Defined.

(** Soft removal: setting [isActive] to false through [update] keeps the
    number of rows, and the row is still found by its id. *)
Lemma soft_removal_keeps_row db now id c' db' :
  ComponentService.update db now id
    (ComponentService.mkPatch None None None None None None None None None None
       (Some false) None None) = Ok (Some c', db') ->
  length (Db.components db') = length (Db.components db)
  /\ Component.isActive c' = false
  /\ Component.id c' = id
  /\ In c' (Db.components db').
Proof.
  unfold ComponentService.update.
  destruct (_ && _); [|discriminate].
  destruct (List.filter _ (Db.components db)) as [|c rest] eqn:Ef; [discriminate|].
  intros [= <- <-]. simpl. rewrite List.length_map.
  assert (Hc : In c (List.filter (fun c => String.eqb (Component.id c) id) (Db.components db)))
    by (rewrite Ef; now left).
  apply List.filter_In in Hc as [Hc Hid].
  repeat split.
  - now apply String.eqb_eq.
  - apply in_map_iff. exists c. rewrite Hid. split; [reflexivity | exact Hc].
Qed.

(** ** The crawl trigger *)

Lemma getBySlug_In db slug source :
  SourceWebsiteService.getBySlug db slug = Some source ->
  In source (Db.sourceWebsites db) /\ SourceWebsite.slug source = slug.
Proof.
  unfold SourceWebsiteService.getBySlug.
  destruct (List.filter _ (Db.sourceWebsites db)) as [|s rest] eqn:E; [discriminate|].
  simpl. intros [= ->].
  assert (H : In source (List.filter (fun s => String.eqb (SourceWebsite.slug s) slug)
                           (Db.sourceWebsites db))) by (rewrite E; now left).
  apply List.filter_In in H as [H1 H2]. split; [exact H1 | now apply String.eqb_eq].
Qed.

(** The select of the route finds a running job exactly when the source
    has one. *)
Lemma runningJob_None db sourceId :
  CrawlRoutes.runningJob db sourceId = None <-> ~ has_running_job db sourceId.
Proof.
  unfold CrawlRoutes.runningJob, has_running_job.
  destruct (List.filter _ (Db.crawlJobs db)) as [|j rest] eqn:E; simpl.
  - split; [|reflexivity]. intros _ (j & Hj & Hs & Hr).
    assert (H : In j []); [|destruct H].
    rewrite <- E. apply List.filter_In. split; [exact Hj|].
    rewrite Hs, Hr, String.eqb_refl. reflexivity.
  - split; [discriminate|]. intros H. exfalso. apply H. exists j.
    assert (Hj : In j (j :: rest)) by now left.
    rewrite <- E in Hj. apply List.filter_In in Hj as [Hj Hc].
    apply andb_true_iff in Hc as [Hs Hr]. apply String.eqb_eq in Hs.
    repeat split; try assumption. now destruct (CrawlJob.status j).
Qed.

(** A fresh id for a job of a known source passes the constraints. *)
Lemma insert_ok_fresh db id source now :
  In source (Db.sourceWebsites db) ->
  ~ In id (map CrawlJob.id (Db.crawlJobs db)) ->
  CrawlRoutes.insert_ok db (CrawlRoutes.newJob id (SourceWebsite.id source) now) = true.
Proof.
  intros Hsrc Hfresh. unfold CrawlRoutes.insert_ok. simpl.
  apply andb_true_iff. split.
  - apply negb_true_iff. apply not_true_is_false. intros H.
    apply existsb_exists in H as (j & Hj & Heq). apply String.eqb_eq in Heq.
    apply Hfresh. rewrite <- Heq. now apply in_map.
  - apply existsb_exists. exists source. split; [exact Hsrc | apply String.eqb_refl].
Qed.

(** What a successful trigger stored. *)
Lemma triggerCrawl_stored db id now sourceSlug force job db' :
  CrawlRoutes.triggerCrawl db id now sourceSlug force = Ok (job, db') ->
  CrawlJob.id job = id
  /\ CrawlJob.status job = CrawlJob.pending
  /\ db' = CrawlRoutes.with_crawlJobs db (Db.crawlJobs db ++ [job])
  /\ List.filter (fun j => String.eqb (CrawlJob.id j) id) (Db.crawlJobs db) = [].
Proof.
  unfold CrawlRoutes.triggerCrawl.
  destruct (SourceWebsiteService.getBySlug db sourceSlug) as [source|]; [|discriminate].
  assert (H : (if CrawlRoutes.insert_ok db (CrawlRoutes.newJob id (SourceWebsite.id source) now)
               then Ok (CrawlRoutes.newJob id (SourceWebsite.id source) now,
                        CrawlRoutes.with_crawlJobs db
                          (Db.crawlJobs db
                             ++ [CrawlRoutes.newJob id (SourceWebsite.id source) now]))
               else Err ThrownDb) = Ok (job, db') ->
              CrawlJob.id job = id
              /\ CrawlJob.status job = CrawlJob.pending
              /\ db' = CrawlRoutes.with_crawlJobs db (Db.crawlJobs db ++ [job])
              /\ List.filter (fun j => String.eqb (CrawlJob.id j) id) (Db.crawlJobs db) = []).
  { destruct (CrawlRoutes.insert_ok db _) eqn:Ei; [|discriminate].
    intros [= <- <-]. repeat split.
    unfold CrawlRoutes.insert_ok in Ei. apply andb_true_iff in Ei as [Ei _].
    apply negb_true_iff in Ei. cbn [CrawlRoutes.newJob CrawlJob.id] in Ei.
    apply filter_none, List.Forall_forall. intros j Hj.
    destruct (String.eqb (CrawlJob.id j) id) eqn:E; [|reflexivity].
    assert (Hex : existsb (fun j => String.eqb (CrawlJob.id j) id) (Db.crawlJobs db) = true)
      by (apply existsb_exists; now exists j).
    congruence. }
  destruct (negb force); simpl; [|exact H].
  destruct (CrawlRoutes.runningJob db (SourceWebsite.id source)); simpl; [discriminate|].
  exact H.
Qed.


(** C1.  Without force, a trigger for a source that has a running job
    fails with the 409 conflict error and leaves the store as it was: no
    job is added.  For a source with no running job (and an id for the
    job that is not taken) it returns a new job, pending, of that
    source, and this job is the one row added to the table of crawl
    jobs; no other table changes. *)
Theorem trigger_conflict_or_new_job db id now sourceSlug source :
  SourceWebsiteService.getBySlug db sourceSlug = Some source ->
  (has_running_job db (SourceWebsite.id source) ->
   CrawlRoutes.triggerCrawl db id now sourceSlug false
   = Err (ThrownApp (mkAppError 409 "Crawl already in progress for this source"))
   /\ store_after db (CrawlRoutes.triggerCrawl db id now sourceSlug false) = db)
  /\ (~ has_running_job db (SourceWebsite.id source) ->
      ~ In id (map CrawlJob.id (Db.crawlJobs db)) ->
      exists job db',
        CrawlRoutes.triggerCrawl db id now sourceSlug false = Ok (job, db')
        /\ CrawlJob.id job = id
        /\ CrawlJob.sourceWebsiteId job = SourceWebsite.id source
        /\ CrawlJob.status job = CrawlJob.pending
        /\ Db.crawlJobs db' = Db.crawlJobs db ++ [job]
        /\ Db.sourceWebsites db' = Db.sourceWebsites db
        /\ Db.componentTypes db' = Db.componentTypes db
        /\ Db.components db' = Db.components db
        /\ Db.searchLogs db' = Db.searchLogs db).
Proof.
  intros Hsrc. split.
  - intros Hrun. unfold CrawlRoutes.triggerCrawl. rewrite Hsrc. simpl.
    destruct (CrawlRoutes.runningJob db (SourceWebsite.id source)) as [j|] eqn:Er;
      [split; reflexivity|].
    apply runningJob_None in Er. contradiction.
  - intros Hnone Hfresh.
    assert (Hjob : CrawlRoutes.triggerCrawl db id now sourceSlug false
                   = Ok (CrawlRoutes.newJob id (SourceWebsite.id source) now,
                         CrawlRoutes.with_crawlJobs db
                           (Db.crawlJobs db
                              ++ [CrawlRoutes.newJob id (SourceWebsite.id source) now]))).
    { unfold CrawlRoutes.triggerCrawl. rewrite Hsrc. simpl.
      apply runningJob_None in Hnone. rewrite Hnone. simpl.
      apply getBySlug_In in Hsrc as [Hin _]. now rewrite insert_ok_fresh. }
    eexists _, _. split; [exact Hjob|]. repeat split.
Qed.

Lemma trigger_conflict_or_new_job_witness :
  CrawlRoutes.triggerCrawl Example.db "job-2" 2000 "magic-ui" false
  = Err (ThrownApp (mkAppError 409 "Crawl already in progress for this source"))
  /\ exists job db',
       CrawlRoutes.triggerCrawl Example.db "job-2" 2000 "shadcn-ui" false = Ok (job, db')
       /\ CrawlJob.status job = CrawlJob.pending
       /\ Db.crawlJobs db' = [Example.staleJob; job].
Proof.
  split.
  - destruct (trigger_conflict_or_new_job Example.db "job-2" 2000 "magic-ui" Example.magic)
      as [H _].
    + reflexivity.
    + apply H. exists Example.staleJob. simpl. repeat split. now left.
  - destruct (trigger_conflict_or_new_job Example.db "job-2" 2000 "shadcn-ui" Example.shadcn)
      as [_ H].
    + reflexivity.
    + destruct H as (job & db' & E & _ & _ & Hst & Hjobs & _).
      * intros (j & [<- | []] & Hs & _). vm_compute in Hs. discriminate.
      * apply (bool_decide_unpack _). vm_compute. exact I.
      * exists job, db'. split; [exact E|]. split; [exact Hst | exact Hjobs].
Defined.

(** C2, as stated, fails: with force the stale job is still running
    after the trigger, next to the new job; nothing cancels it. *)
Lemma force_leaves_stale_job_running :
  CrawlRoutes.triggerCrawl Example.db "job-2" 2000 "magic-ui" true
  = Ok (CrawlRoutes.newJob "job-2" "src-2" 2000,
        CrawlRoutes.with_crawlJobs Example.db
          [Example.staleJob; CrawlRoutes.newJob "job-2" "src-2" 2000])
  /\ CrawlJob.status Example.staleJob = CrawlJob.running
  /\ CrawlJob.sourceWebsiteId Example.staleJob
     = CrawlJob.sourceWebsiteId (CrawlRoutes.newJob "job-2" "src-2" 2000).
Proof. vm_compute. repeat split. Qed.

(** C2, amended.  With force the check for a running job is skipped: the
    trigger inserts and returns a new pending job and leaves every
    existing job, a running one included, as it is. *)
Theorem trigger_with_force_only_inserts db id now sourceSlug source :
  SourceWebsiteService.getBySlug db sourceSlug = Some source ->
  ~ In id (map CrawlJob.id (Db.crawlJobs db)) ->
  exists job db',
    CrawlRoutes.triggerCrawl db id now sourceSlug true = Ok (job, db')
    /\ CrawlJob.status job = CrawlJob.pending
    /\ CrawlJob.sourceWebsiteId job = SourceWebsite.id source
    /\ Db.crawlJobs db' = Db.crawlJobs db ++ [job]
    /\ Db.components db' = Db.components db.
Proof.
  intros Hsrc Hfresh. unfold CrawlRoutes.triggerCrawl. rewrite Hsrc. simpl.
  apply getBySlug_In in Hsrc as [Hin _].
  rewrite insert_ok_fresh by assumption.
  eexists _, _. split; [reflexivity|]. repeat split.
Qed.

Lemma trigger_with_force_only_inserts_witness :
  exists job db',
    CrawlRoutes.triggerCrawl Example.db "job-2" 2000 "magic-ui" true = Ok (job, db')
    /\ Db.crawlJobs db' = [Example.staleJob; job].
Proof.
  destruct (trigger_with_force_only_inserts Example.db "job-2" 2000 "magic-ui" Example.magic)
    as (job & db' & E & _ & _ & Hjobs & _).
  - reflexivity.
  - apply (bool_decide_unpack _). vm_compute. exact I.
  - exists job, db'. split; [exact E | exact Hjobs].
Defined.

(** ** The catalog invariant *)

(** C3, on the code: [create] is a plain insert and the index on
    (sourceWebsiteId, slug) is not unique, so a second active "button"
    of the same source is stored next to the first. *)
Theorem create_stores_second_active_row :
  at_most_one_active (Db.components Example.db)
  /\ exists row db',
      ComponentService.create Example.db "cmp-9" 400 Example.secondButton = Ok (row, db')
      /\ Db.components db' = Db.components Example.db ++ [row]
      /\ Component.isActive row = true
      /\ Component.sourceWebsiteId row = Component.sourceWebsiteId Example.named
      /\ Component.slug row = Component.slug Example.named
      /\ ~ at_most_one_active (Db.components db').
Proof.
  split.
  - intros i j a b Hi Hj Ha Hb Hs Hg.
    destruct i as [|[|[|i]]], j as [|[|[|j]]]; simpl in Hi, Hj;
      try discriminate; try reflexivity;
      injection Hi as <-; injection Hj as <-; discriminate.
  - eexists _, _. split; [vm_compute; reflexivity|].
    repeat split. intros H.
    specialize (H 1%nat 3%nat _ _ eq_refl eq_refl eq_refl eq_refl eq_refl eq_refl).
    discriminate.
Qed.

(** ** Validation of the search query *)

Lemma string_min_max_issues path lo hi v i :
  In i (Schemas.issues (Schemas.string_min_max path lo hi v)) -> Schemas.path i = path.
Proof.
  unfold Schemas.string_min_max.
  destruct v as [|s|l|b|]; simpl; try (intros [<-|[]]; reflexivity).
  destruct (_ <? lo); [intros [<-|[]]; reflexivity|].
  destruct (hi <? _); [intros [<-|[]]; reflexivity|]. intros [].
Qed.

Lemma optional_issues {A} (schema : Schemas.Value -> Result (list Schemas.ZodIssue) A) v i :
  In i (Schemas.issues (Schemas.optional schema v)) -> In i (Schemas.issues (schema v)).
Proof.
  unfold Schemas.optional. destruct v as [|s|l|b|]; simpl; [tauto| | | |].
  - now destruct (schema (Schemas.Str s)).
  - now destruct (schema (Schemas.Strs l)).
  - now destruct (schema (Schemas.Boolean b)).
  - now destruct (schema Schemas.Other).
Qed.

Lemma limit_issues v i :
  In i (Schemas.issues (Schemas.int_min_max_default "limit" 1 100 20 v)) ->
  Schemas.path i = "limit".
Proof.
  unfold Schemas.int_min_max_default. destruct v as [|z|]; simpl; try easy.
  - destruct (z <? 1); [intros [<-|[]]; reflexivity|].
    destruct (100 <? z); [intros [<-|[]]; reflexivity|]. intros [].
  - intros [<-|[]]; reflexivity.
Qed.

(** When the field [q] parses, no issue of the schema is about [q]. *)
Lemma searchQuerySchema_q_accepted raw s :
  Schemas.string_min_max "q" 2 500 (Schemas.raw_q raw) = Ok s ->
  issues_at "q" (Schemas.searchQuerySchema raw) = [].
Proof.
  intros Hq. unfold issues_at. apply filter_none, List.Forall_forall. intros i Hi.
  apply String.eqb_neq. intros Hp.
  unfold Schemas.searchQuerySchema in Hi. rewrite Hq in Hi.
  assert (Hin : In i (Schemas.issues (Schemas.sourceFilterSchema (Schemas.raw_source raw))
                      ++ Schemas.issues (Schemas.typeFilterSchema (Schemas.raw_type raw))
                      ++ Schemas.issues (Schemas.int_min_max_default "limit" 1 100 20
                                           (Schemas.raw_limit raw)))).
  { destruct (Schemas.sourceFilterSchema _), (Schemas.typeFilterSchema _),
      (Schemas.int_min_max_default _ _ _ _ _); simpl in *; try easy. }
  apply in_app_or in Hin as [Hin | Hin]; [|apply in_app_or in Hin as [Hin | Hin]].
  - apply optional_issues, string_min_max_issues in Hin. congruence.
  - apply optional_issues, string_min_max_issues in Hin. congruence.
  - apply limit_issues in Hin. congruence.
Qed.

(** When the field [q] does not parse, the schema fails and reports the
    issues of [q] first. *)
Lemma searchQuerySchema_q_rejected raw e :
  Schemas.string_min_max "q" 2 500 (Schemas.raw_q raw) = Err e ->
  exists others, Schemas.searchQuerySchema raw = Err (e ++ others).
Proof.
  intros Hq. unfold Schemas.searchQuerySchema. rewrite Hq. simpl. eauto.
Qed.

(** C6, as stated, fails: a query of 501 characters is rejected, and for
    its length. *)
Lemma long_query_rejected_for_length :
  String.length Example.longQuery = 501%nat
  /\ Schemas.searchQuerySchema Example.longRequest
     = Err [Schemas.mkIssue Schemas.too_big "q"]
  /\ Routes.getSearch Example.db [] 0 3 None "session" Example.longRequest
     = (Failure (validation_error [Schemas.mkIssue Schemas.too_big "q"]), Example.db).
Proof. vm_compute. repeat split. Qed.

(** C6, amended.  A query shorter than 2 characters fails the request
    with the 400 validation error, raised on [q] as too small, and the
    search does not run: the store is as before and the response does not
    depend on it.  A query longer than 500 characters fails the same way,
    as too big.  A query of 2 to 500 characters raises no issue on [q]. *)
Theorem search_query_length_validated
    db order startTime endTime sessionHeader randomSession raw s :
  Schemas.raw_q raw = Schemas.Str s ->
  (Schemas.str_length s < 2 ->
   exists issues,
     Routes.getSearch db order startTime endTime sessionHeader randomSession raw
     = (Failure (validation_error issues), db)
     /\ In (Schemas.mkIssue Schemas.too_small "q") issues)
  /\ (500 < Schemas.str_length s ->
      exists issues,
        Routes.getSearch db order startTime endTime sessionHeader randomSession raw
        = (Failure (validation_error issues), db)
        /\ In (Schemas.mkIssue Schemas.too_big "q") issues)
  /\ (2 <= Schemas.str_length s <= 500 ->
      issues_at "q" (Schemas.searchQuerySchema raw) = []).
Proof.
  intros Hq. repeat split.
  - intros Hshort.
    destruct (searchQuerySchema_q_rejected raw [Schemas.mkIssue Schemas.too_small "q"])
      as [others E].
    { rewrite Hq. unfold Schemas.string_min_max.
      destruct (Schemas.str_length s <? 2) eqn:E; [reflexivity | lia]. }
    unfold Routes.getSearch, validate. rewrite E.
    eexists. split; [reflexivity|]. now left.
  - intros Hlong.
    destruct (searchQuerySchema_q_rejected raw [Schemas.mkIssue Schemas.too_big "q"])
      as [others E].
    { rewrite Hq. unfold Schemas.string_min_max.
      destruct (Schemas.str_length s <? 2) eqn:E; [lia|].
      destruct (500 <? Schemas.str_length s) eqn:E'; [reflexivity | lia]. }
    unfold Routes.getSearch, validate. rewrite E.
    eexists. split; [reflexivity|]. now left.
  - intros [Hlo Hhi]. apply (searchQuerySchema_q_accepted raw s).
    rewrite Hq. unfold Schemas.string_min_max.
    destruct (Schemas.str_length s <? 2) eqn:E; [lia|].
    destruct (500 <? Schemas.str_length s) eqn:E'; [lia|]. reflexivity.
Qed.

Lemma search_query_length_validated_witness :
  (exists issues,
      Routes.getSearch Example.db [] 0 3 None "session"
        (Schemas.mkRawSearch (Schemas.Str "a") Schemas.Undefined Schemas.Undefined
           Schemas.Missing)
      = (Failure (validation_error issues), Example.db)
      /\ In (Schemas.mkIssue Schemas.too_small "q") issues)
  /\ (exists issues,
         Routes.getSearch Example.db [] 0 3 None "session" Example.longRequest
         = (Failure (validation_error issues), Example.db)
         /\ In (Schemas.mkIssue Schemas.too_big "q") issues)
  /\ issues_at "q"
       (Schemas.searchQuerySchema
          (Schemas.mkRawSearch (Schemas.Str "ab") Schemas.Undefined Schemas.Undefined
             Schemas.Missing)) = [].
Proof.
  split; [|split].
  - apply (search_query_length_validated Example.db [] 0 3 None "session" _ "a").
    + reflexivity.
    + vm_compute. reflexivity.
  - apply (search_query_length_validated Example.db [] 0 3 None "session" _ Example.longQuery).
    + reflexivity.
    + vm_compute. reflexivity.
  - apply (search_query_length_validated Example.db [] 0 3 None "session" _ "ab").
    + reflexivity.
    + vm_compute. split; discriminate.
Defined.

(** ** The search index *)

Lemma needsUpdate_fresh st now index :
  index_fresh st now index -> SearchService.needsUpdate st now = false.
Proof.
  intros [Hi (last & Hl & Hage)]. unfold SearchService.needsUpdate.
  rewrite Hi, Hl. unfold SearchService.indexUpdateInterval. apply Z.ltb_ge. lia.
Qed.

Lemma needsUpdate_stale st now :
  index_stale st now -> SearchService.needsUpdate st now = true.
Proof.
  unfold SearchService.needsUpdate.
  intros [Hi | [Hl | (last & Hl & Hage)]].
  - now rewrite Hi.
  - rewrite Hl. now destruct (SearchService.fuseIndex st).
  - rewrite Hl. destruct (SearchService.fuseIndex st); [|reflexivity].
    unfold SearchService.indexUpdateInterval. apply Z.ltb_lt. lia.
Qed.

Lemma built_from_more dbs dbs' index :
  (forall d, In d dbs -> In d dbs') -> built_from dbs index -> built_from dbs' index.
Proof. intros Hsub (d & order & Hd & Hi). exists d, order. split; [auto | exact Hi]. Qed.

Lemma databases_head db events : In db (SearchService.databases db events).
Proof.
  revert db. induction events as [|e events IH]; intros db; [now left|].
  destruct e; simpl; auto.
Qed.

Lemma databases_step fuse_search w e events d :
  In d (SearchService.databases
          (SearchService.database (SearchService.step fuse_search w e)) events) ->
  In d (SearchService.databases (SearchService.database w) (e :: events)).
Proof.
  destruct e as [startTime now endTime query limit | i order builtAt | i endTime | db'];
    simpl.
  - auto.
  - now destruct (SearchService.calls w !! i) as [[| |]|].
  - now destruct (SearchService.calls w !! i) as [[| |]|].
  - auto.
Qed.

(** What holds of a world and is kept by every event, holds after a
    run; [dbs] are the states the database goes through. *)
Lemma run_invariant fuse_search (Inv : SearchService.World -> Prop) dbs :
  (forall w e, In (SearchService.database w) dbs -> Inv w ->
               Inv (SearchService.step fuse_search w e)) ->
  forall events w,
    (forall d, In d (SearchService.databases (SearchService.database w) events) ->
               In d dbs) ->
    Inv w -> Inv (SearchService.run fuse_search w events).
Proof.
  intros Hstep. induction events as [|e events IH]; intros w Hsub Hw; [exact Hw|].
  unfold SearchService.run in *. cbn [fold_left]. apply IH.
  - intros d Hd. apply Hsub. now apply (databases_step fuse_search).
  - apply Hstep; [|exact Hw]. apply Hsub. destruct e; simpl; auto using databases_head.
Qed.

Lemma built_index_in_place dbs db order builtAt :
  In db dbs -> index_in_place dbs (SearchService.buildSearchIndex db order builtAt).
Proof.
  intros Hdb. eexists. split; [reflexivity|]. exists db, order. now split.
Qed.

Lemma answer_in_place fuse_search dbs st startTime endTime query limit :
  index_in_place dbs st ->
  answered_from fuse_search dbs startTime query limit
    (SearchService.answer fuse_search st startTime endTime query limit).
Proof.
  intros (index & Hi & Hb). unfold SearchService.answer. rewrite Hi.
  exists index, endTime. now split.
Qed.

(** A call that waits for its rebuild goes on to be answered from a
    whole index, whatever happens around it. *)
Lemma step_call_progress fuse_search dbs i startTime query limit w e :
  In (SearchService.database w) dbs ->
  (exists c, SearchService.calls w !! i = Some c
             /\ call_progress fuse_search dbs (SearchService.service w)
                  startTime query limit c) ->
  exists c, SearchService.calls (SearchService.step fuse_search w e) !! i = Some c
            /\ call_progress fuse_search dbs
                 (SearchService.service (SearchService.step fuse_search w e))
                 startTime query limit c.
Proof.
  intros Hdb (c & Hc & Hp).
  destruct e as [t now endTime q l | j order builtAt | j endTime | db']; simpl.
  - exists c. split; [now apply lookup_app_l_Some | exact Hp].
  - destruct (SearchService.calls w !! j) as [[t q l | t q l | r]|] eqn:Ej;
      try (exists c; now split).
    simpl. destruct (decide (j = i)) as [-> | Hne].
    + rewrite Hc in Ej. injection Ej as ->. simpl in Hp.
      exists (SearchService.AwaitingBuild t q l). split.
      * apply list_lookup_insert_eq. now apply lookup_lt_Some in Hc.
      * split; [exact Hp | now apply built_index_in_place].
    + exists c. split; [now rewrite list_lookup_insert_ne|].
      destruct c as [t' q' l' | t' q' l' | r]; simpl in *; [exact Hp | | exact Hp].
      split; [apply Hp | now apply built_index_in_place].
  - destruct (SearchService.calls w !! j) as [[t q l | t q l | r]|] eqn:Ej;
      try (exists c; now split).
    simpl. destruct (decide (j = i)) as [-> | Hne].
    + rewrite Hc in Ej. injection Ej as ->. simpl in Hp. destruct Hp as [[= -> -> ->] Hin].
      eexists. split.
      * apply list_lookup_insert_eq. now apply lookup_lt_Some in Hc.
      * simpl. now apply answer_in_place.
    + exists c. split; [now rewrite list_lookup_insert_ne | exact Hp].
  - exists c. now split.
Qed.

(** The index in place stays a whole one, and every answer is computed
    from a whole index. *)
Lemma step_calls_whole fuse_search dbs w e :
  In (SearchService.database w) dbs ->
  whole_index dbs (SearchService.service w)
  /\ List.Forall (call_whole fuse_search dbs (SearchService.service w))
       (SearchService.calls w) ->
  whole_index dbs (SearchService.service (SearchService.step fuse_search w e))
  /\ List.Forall
       (call_whole fuse_search dbs
          (SearchService.service (SearchService.step fuse_search w e)))
       (SearchService.calls (SearchService.step fuse_search w e)).
Proof.
  intros Hdb [Hw Hcalls].
  destruct e as [t now endTime q l | j order builtAt | j endTime | db']; simpl.
  - split; [exact Hw|]. apply Forall_app. split; [exact Hcalls|].
    constructor; [|constructor]. unfold SearchService.clientSearch_enter.
    destruct (SearchService.needsUpdate _ _) eqn:En; [exact I|].
    simpl. exists t, q, l. apply answer_in_place.
    destruct Hw as [Hnone | Hin]; [|exact Hin].
    unfold SearchService.needsUpdate in En. now rewrite Hnone in En.
  - destruct (SearchService.calls w !! j) as [[t q l | t q l | r]|] eqn:Ej;
      try (now split).
    simpl.
    assert (Hin : index_in_place dbs
                    (SearchService.buildSearchIndex (SearchService.database w) order
                       builtAt)) by now apply built_index_in_place.
    split; [now right|]. apply Forall_insert; [|exact Hin].
    eapply Forall_impl; [exact Hcalls|]. intros [t' q' l' | t' q' l' | r]; simpl; auto.
  - destruct (SearchService.calls w !! j) as [[t q l | t q l | r]|] eqn:Ej;
      try (now split).
    simpl. split; [exact Hw|]. apply Forall_insert; [exact Hcalls|].
    simpl. exists t, q, l. apply answer_in_place.
    apply (Forall_lookup_1 _ _ _ _ Hcalls Ej).
  - now split.
Qed.

(** A call stays at the select of its rebuild until the database
    replies to it. *)
Lemma step_waits fuse_search i startTime query limit w e :
  SearchService.calls w !! i = Some (SearchService.AwaitingSelect startTime query limit) ->
  replies_to i e = false ->
  SearchService.calls (SearchService.step fuse_search w e) !! i
  = Some (SearchService.AwaitingSelect startTime query limit).
Proof.
  intros Hc He.
  destruct e as [t now endTime q l | j order builtAt | j endTime | db']; simpl.
  - now apply lookup_app_l_Some.
  - simpl in He. apply Nat.eqb_neq in He.
    destruct (SearchService.calls w !! j) as [[t q l | t q l | r]|]; try exact Hc.
    simpl. now rewrite list_lookup_insert_ne.
  - destruct (SearchService.calls w !! j) as [[t q l | t q l | r]|] eqn:Ej; try exact Hc.
    simpl. rewrite list_lookup_insert_ne; [exact Hc|].
    intros ->. rewrite Hc in Ej. discriminate.
  - exact Hc.
Qed.

Lemma run_waits fuse_search i startTime query limit events :
  forall w,
    SearchService.calls w !! i = Some (SearchService.AwaitingSelect startTime query limit) ->
    forallb (fun e => negb (replies_to i e)) events = true ->
    SearchService.calls (SearchService.run fuse_search w events) !! i
    = Some (SearchService.AwaitingSelect startTime query limit).
Proof.
  induction events as [|e events IH]; intros w Hc Hev; [exact Hc|].
  cbn [forallb] in Hev. apply andb_true_iff in Hev as [He Hev].
  unfold SearchService.run in *. cbn [fold_left]. apply IH; [|exact Hev].
  apply step_waits; [exact Hc | now apply negb_true_iff].
Qed.

(** A call that is past the select of its rebuild does not come back to
    it. *)
Lemma step_past fuse_search i w e :
  (exists c, SearchService.calls w !! i = Some c
             /\ forall t q l, c <> SearchService.AwaitingSelect t q l) ->
  exists c, SearchService.calls (SearchService.step fuse_search w e) !! i = Some c
            /\ forall t q l, c <> SearchService.AwaitingSelect t q l.
Proof.
  intros (c & Hc & Hp).
  destruct e as [t now endTime q l | j order builtAt | j endTime | db']; simpl.
  - exists c. split; [now apply lookup_app_l_Some | exact Hp].
  - destruct (SearchService.calls w !! j) as [[t q l | t q l | r]|] eqn:Ej;
      try (exists c; now split).
    simpl. exists c. split; [|exact Hp]. rewrite list_lookup_insert_ne; [exact Hc|].
    intros ->. rewrite Hc in Ej. injection Ej as ->. now apply (Hp t q l).
  - destruct (SearchService.calls w !! j) as [[t q l | t q l | r]|] eqn:Ej;
      try (exists c; now split).
    simpl. destruct (decide (j = i)) as [-> | Hne].
    + exists (SearchService.Returned
                (SearchService.answer fuse_search (SearchService.service w) t endTime q l)).
      split; [|intros t' q' l'; discriminate].
      apply list_lookup_insert_eq. now apply lookup_lt_Some in Hc.
    + exists c. split; [now rewrite list_lookup_insert_ne | exact Hp].
  - exists c. now split.
Qed.

(** Once the database has replied to its select, the call is past it. *)
Lemma run_replied fuse_search i startTime query limit events :
  forall w,
    SearchService.calls w !! i = Some (SearchService.AwaitingSelect startTime query limit) ->
    forallb (fun e => negb (replies_to i e)) events = false ->
    exists c, SearchService.calls (SearchService.run fuse_search w events) !! i = Some c
              /\ forall t q l, c <> SearchService.AwaitingSelect t q l.
Proof.
  induction events as [|e events IH]; intros w Hc Hev; [discriminate|].
  cbn [forallb] in Hev. unfold SearchService.run in *. cbn [fold_left].
  destruct (replies_to i e) eqn:He.
  - apply (run_invariant fuse_search
             (fun w' => exists c, SearchService.calls w' !! i = Some c
                                  /\ forall t q l, c <> SearchService.AwaitingSelect t q l)
             (SearchService.databases
                (SearchService.database (SearchService.step fuse_search w e)) events)).
    + intros w' e' _. apply step_past.
    + auto.
    + destruct e as [t now endTime q l | j order builtAt | j endTime | db'];
        try discriminate.
      simpl in He. apply Nat.eqb_eq in He. subst j. simpl. rewrite Hc. simpl.
      exists (SearchService.AwaitingBuild startTime query limit).
      split; [|intros t' q' l'; discriminate].
      apply list_lookup_insert_eq. now apply lookup_lt_Some in Hc.
  - simpl in Hev. apply IH; [|exact Hev]. now apply step_waits.
Qed.

(** C7, as stated, fails: a query that arrives while a rebuild is in
    progress over a stale index is not answered from that index.  It
    suspends in a rebuild of its own, and its answer, given after that
    rebuild, is computed from the rebuilt index. *)
Lemma query_during_rebuild_waits :
  index_stale (SearchService.service Example.rebuilding) 400000
  /\ SearchService.fuseIndex (SearchService.service Example.rebuilding)
     = Some (SearchService.mkFuse (SearchService.allComponents Example.olderDb)
               SearchService.fuseOptions)
  /\ (forall fuse_search,
         SearchService.calls
           (SearchService.step fuse_search Example.rebuilding
              (SearchService.Request 400000 400000 400001 "button" 20))
         = [SearchService.AwaitingSelect 399990 "card" 20;
            SearchService.AwaitingSelect 400000 "button" 20])
  /\ (forall fuse_search order,
         SearchService.calls
           (SearchService.run fuse_search Example.rebuilding
              [SearchService.Request 400000 400000 400001 "button" 20;
               SearchService.SelectReturns 1 order 400005;
               SearchService.BuildReturns 1 400006]) !! 1%nat
         = Some (SearchService.Returned
                   (SearchService.answer fuse_search
                      (SearchService.buildSearchIndex Example.db order 400005)
                      400000 400006 "button" 20)))
  /\ (forall order,
         SearchService.fuseIndex (SearchService.buildSearchIndex Example.db order 400005)
         <> SearchService.fuseIndex (SearchService.service Example.rebuilding)).
Proof.
  split; [|split; [|split; [|split]]].
  - right. right. exists 0. split; [reflexivity | lia].
  - reflexivity.
  - intros fuse_search. reflexivity.
  - intros fuse_search order. reflexivity.
  - intros order H.
    apply (f_equal (option_map (fun f => length (SearchService.collection f)))) in H.
    change (option_map _
              (SearchService.fuseIndex
                 (SearchService.buildSearchIndex Example.db order 400005)))
      with (Some (length (Sql.yield order (SearchService.allComponents Example.db))))
      in H.
    rewrite length_yield in H. vm_compute in H. discriminate.
Qed.

(** C7, amended.  A call of [clientSearch] that finds the index in place
    and at most five minutes old is answered at once from that index and
    rebuilds nothing.  A call that finds the index missing or older is
    not answered from it: it suspends at the select of a rebuild of its
    own.  Whatever calls, replies of the database and changes of the
    catalog come in between, it is still there exactly as long as the
    database has not replied to that select; and at every moment it is
    there, or past it with a whole index in place, or answered with what
    Fuse.js finds in a whole index: one built in one piece from all the
    active components of one state the database went through meanwhile.
    And in every run of a service that starts with a whole index (or
    none) and no call in flight, the index in place stays a whole one
    and every answer given is computed from a whole index. *)
Theorem client_search_index_use
    (fuse_search : SearchService.Fuse -> string -> Z -> list SearchService.IndexedComponent) :
  (forall db order st index startTime now builtAt endTime query limit,
      index_fresh st now index ->
      SearchService.clientSearch_enter fuse_search st startTime now endTime query limit
      = SearchService.Returned
          (Ok (SearchService.mkResult (fuse_search index query limit)
                 (Z.of_nat (length (fuse_search index query limit)))
                 (endTime - startTime) None))
      /\ snd (SearchService.clientSearch fuse_search db order st startTime now builtAt
                endTime query limit) = st)
  /\ (forall st startTime now endTime query limit,
         index_stale st now ->
         SearchService.clientSearch_enter fuse_search st startTime now endTime query limit
         = SearchService.AwaitingSelect startTime query limit)
  /\ (forall w i startTime query limit events,
         SearchService.calls w !! i
         = Some (SearchService.AwaitingSelect startTime query limit) ->
         (SearchService.calls (SearchService.run fuse_search w events) !! i
          = Some (SearchService.AwaitingSelect startTime query limit)
          <-> forallb (fun e => negb (replies_to i e)) events = true)
         /\ exists c,
             SearchService.calls (SearchService.run fuse_search w events) !! i = Some c
             /\ call_progress fuse_search
                  (SearchService.databases (SearchService.database w) events)
                  (SearchService.service (SearchService.run fuse_search w events))
                  startTime query limit c)
  /\ (forall w events,
         whole_index [SearchService.database w] (SearchService.service w) ->
         SearchService.calls w = [] ->
         whole_index (SearchService.databases (SearchService.database w) events)
           (SearchService.service (SearchService.run fuse_search w events))
         /\ List.Forall
              (call_whole fuse_search
                 (SearchService.databases (SearchService.database w) events)
                 (SearchService.service (SearchService.run fuse_search w events)))
              (SearchService.calls (SearchService.run fuse_search w events))).
Proof.
  split; [|split; [|split]].
  - intros db order st index startTime now builtAt endTime query limit Hfresh.
    unfold SearchService.clientSearch, SearchService.clientSearch_enter.
    rewrite (needsUpdate_fresh st now index Hfresh).
    destruct Hfresh as [Hi _]. unfold SearchService.answer. rewrite Hi.
    split; reflexivity.
  - intros st startTime now endTime query limit Hstale.
    unfold SearchService.clientSearch_enter.
    now rewrite (needsUpdate_stale st now Hstale).
  - intros w i startTime query limit events Hc. split.
    + split; [|now apply run_waits].
      intros Hstill.
      destruct (forallb (fun e => negb (replies_to i e)) events) eqn:Hev; [reflexivity|].
      destruct (run_replied fuse_search i startTime query limit events w Hc Hev)
        as (c & Hc' & Hpast).
      rewrite Hstill in Hc'. injection Hc' as <-. now destruct (Hpast startTime query limit).
    + apply (run_invariant fuse_search
               (fun w' => exists c,
                    SearchService.calls w' !! i = Some c
                    /\ call_progress fuse_search
                         (SearchService.databases (SearchService.database w) events)
                         (SearchService.service w') startTime query limit c)
               (SearchService.databases (SearchService.database w) events)).
      * intros w' e Hdb Hw'.
        now apply (step_call_progress fuse_search _ i startTime query limit w' e Hdb).
      * auto.
      * eexists. split; [exact Hc | reflexivity].
  - intros w events Hw Hcalls.
    apply (run_invariant fuse_search
             (fun w' => whole_index
                          (SearchService.databases (SearchService.database w) events)
                          (SearchService.service w')
                        /\ List.Forall
                             (call_whole fuse_search
                                (SearchService.databases (SearchService.database w) events)
                                (SearchService.service w'))
                             (SearchService.calls w'))
             (SearchService.databases (SearchService.database w) events)).
    + intros w' e Hdb Hw'. now apply step_calls_whole.
    + auto.
    + split; [|rewrite Hcalls; constructor].
      destruct Hw as [Hnone | (index & Hi & Hb)]; [now left | right].
      exists index. split; [exact Hi|].
      apply (built_from_more [SearchService.database w]); [|exact Hb].
      intros d [<- | []]. apply databases_head.
Qed.

Lemma client_search_index_use_witness :
  SearchService.clientSearch_enter Example.nameSearch Example.staleService
    10 20 21 "card" 20
  = SearchService.Returned
      (Ok (SearchService.mkResult
             [SearchService.mkIndexed "cmp-1" "Card" (Some "A surface for content")
                ["layout"; "button"] "card"]
             1 11 None))
  /\ SearchService.clientSearch_enter Example.nameSearch Example.staleService
       400000 400000 400001 "button" 20
     = SearchService.AwaitingSelect 400000 "button" 20
  /\ SearchService.calls
       (SearchService.run Example.nameSearch Example.rebuilding
          [SearchService.Request 400000 400000 400001 "button" 20;
           SearchService.CatalogChanges Example.olderDb]) !! 0%nat
     = Some (SearchService.AwaitingSelect 399990 "card" 20)
  /\ whole_index [Example.olderDb; Example.db]
       (SearchService.service
          (SearchService.run Example.nameSearch
             (SearchService.mkWorld Example.olderDb Example.staleService [])
             [SearchService.CatalogChanges Example.db;
              SearchService.Request 400000 400000 400001 "button" 20;
              SearchService.SelectReturns 0 [] 400005])).
Proof.
  destruct (client_search_index_use Example.nameSearch)
    as (Hfresh & Hstale & Hwait & Hwhole).
  split; [|split; [|split]].
  - destruct (Hfresh Example.db [] Example.staleService
                (SearchService.mkFuse (SearchService.allComponents Example.olderDb)
                   SearchService.fuseOptions) 10 20 25 21 "card" 20) as [E _].
    + split; [reflexivity|]. exists 0. split; [reflexivity | lia].
    + rewrite E. vm_compute. reflexivity.
  - apply Hstale. right. right. exists 0. split; [reflexivity | lia].
  - apply (Hwait Example.rebuilding 0%nat 399990 "card" 20); reflexivity.
  - apply (Hwhole (SearchService.mkWorld Example.olderDb Example.staleService [])
             [SearchService.CatalogChanges Example.db;
              SearchService.Request 400000 400000 400001 "button" 20;
              SearchService.SelectReturns 0 [] 400005]); [|reflexivity].
    right. eexists. split; [reflexivity|].
    exists Example.olderDb, []. split; [now left | reflexivity].
Defined.

(** ** Re-crawling unchanged data *)

(** [existsByHash] holds exactly when a component of the source carries
    the hash. *)
Lemma existsByHash_true db contentHash sourceWebsiteId :
  ComponentService.existsByHash db contentHash sourceWebsiteId = true <->
  exists c, In c (Db.components db)
            /\ Component.contentHash c = contentHash
            /\ Component.sourceWebsiteId c = sourceWebsiteId.
Proof.
  unfold ComponentService.existsByHash.
  destruct (List.filter _ (Db.components db)) as [|c rest] eqn:E; simpl.
  - split; [discriminate|]. intros (c & Hc & Hh & Hs).
    assert (H : In c []); [|destruct H].
    rewrite <- E. apply List.filter_In. split; [exact Hc|].
    rewrite Hh, Hs, !String.eqb_refl. reflexivity.
  - split; [|reflexivity]. intros _. exists c.
    assert (Hc : In c (c :: rest)) by now left.
    rewrite <- E in Hc. apply List.filter_In in Hc as [Hc Hb].
    apply andb_true_iff in Hb as [Hh Hs].
    apply String.eqb_eq in Hh, Hs. auto.
Qed.

Section Merge.

Variable sourceId : uuid.



(** An item touches the entry of its own key only. *)
Lemma mergeItem_other now r item key :
  key <> (sourceId, MergeEngine.slug item) ->
  MergeEngine.catalog (MergeEngine.mergeItem sourceId now r item) !! key
  = MergeEngine.catalog r !! key.
Proof.
  intros Hne. unfold MergeEngine.mergeItem, MergeEngine.classify.
  destruct (MergeEngine.catalog r !! (sourceId, MergeEngine.slug item)) as [old|].
  - destruct (String.eqb _ _); simpl; [reflexivity|].
    now apply lookup_insert_ne.
  - simpl. now apply lookup_insert_ne.
Qed.


Lemma mergeItems_other now items :
  forall r key,
    (forall item, In item items -> key <> (sourceId, MergeEngine.slug item)) ->
    MergeEngine.catalog (MergeEngine.mergeItems sourceId now items r) !! key
    = MergeEngine.catalog r !! key.
Proof.
  induction items as [|item items IH]; intros r key Hkey; [reflexivity|].
  simpl. rewrite IH by (intros i Hi; apply Hkey; now right).
  apply mergeItem_other, Hkey. now left.
Qed.













End Merge.

(** The first run of the example adds one item, updates one and removes
    one; nothing is deleted from the catalog. *)
Example first_crawl_counts :
  MergeEngine.counters (MergeEngine.crawl "src-1" 100 Example.crawled Example.catalogBefore)
  = MergeEngine.mkCounters 2 1 1 1
  /\ length (MergeEngine.writes
               (MergeEngine.crawl "src-1" 100 Example.crawled Example.catalogBefore))
     = 3%nat
  /\ size (MergeEngine.catalog
             (MergeEngine.crawl "src-1" 100 Example.crawled Example.catalogBefore))
     = 3%nat.
Proof. vm_compute. repeat split. Qed.




(** ** The routes *)

(** The LIKE patterns of [search]: a wildcard in the query is a
    wildcard of the pattern, a backslash escapes it. *)
Example like_wildcards :
  Sql.ilike "Card" "%c_rd%" = true
  /\ Sql.ilike "Card" "%c\_rd%" = false
  /\ Sql.ilike "100% cotton" "%0\% C%" = true
  /\ Sql.ilike "Button" "%" = true
  /\ Sql.jsonb_text ["layout"; "button"]
     = string_of_list_ascii
         (["["%char; Sql.dquote] ++ list_ascii_of_string "layout"
          ++ [Sql.dquote; ","%char; " "%char; Sql.dquote]
          ++ list_ascii_of_string "button" ++ [Sql.dquote; "]"%char]).
Proof. vm_compute. repeat split. Qed.

(** GET /api/components never lists an inactive component. *)
Lemma getComponents_active db raw page c :
  fst (Routes.getComponents db raw) = Json 200 page ->
  In c (ComponentService.components page) ->
  Component.isActive c = true.
Proof.
  unfold Routes.getComponents, validate.
  destruct (Schemas.componentBrowseSchema raw) as [query|issues]; [|discriminate].
  destruct (ComponentService.browse _ _ _ _ _) as [result|e] eqn:E; [|discriminate].
  simpl. intros [= <-] Hc.
  eapply listed_active. rewrite E. exact Hc.
Qed.

(** GET /api/search never returns an inactive component, and writes no
    table but the search log. *)
Lemma getSearch_active db order startTime endTime sessionHeader randomSession raw result c :
  fst (Routes.getSearch db order startTime endTime sessionHeader randomSession raw)
  = Json 200 result ->
  In c (map SearchService.component (SearchService.results result)) ->
  Component.isActive c = true
  /\ Db.components
       (snd (Routes.getSearch db order startTime endTime sessionHeader randomSession raw))
     = Db.components db.
Proof.
  unfold Routes.getSearch, validate.
  destruct (Schemas.searchQuerySchema raw) as [query|issues]; [|discriminate].
  destruct (SearchService.search _ _ _ _ _ _ _ _) as [[r db']|e] eqn:E; [|discriminate].
  simpl. intros [= <-] Hc. split.
  - eapply returned_active. rewrite E. exact Hc.
  - now apply search_Ok in E as (_ & _ & _ & ->).
Qed.

(** POST /api/crawl/trigger, with a valid key and body and without
    force, answers 409 while the source has a running job, and the store
    is as before. *)
Lemma postTrigger_conflict db expectedKey apiKey id now raw body source :
  CrawlRoutes.requireApiKey expectedKey apiKey = true ->
  Schemas.crawlTriggerSchema raw = Ok body ->
  Schemas.force body = false ->
  SourceWebsiteService.getBySlug db (Schemas.sourceSlug body) = Some source ->
  has_running_job db (SourceWebsite.id source) ->
  CrawlRoutes.postTrigger db expectedKey apiKey id now raw
  = (Failure (mkErrorResponse 409 "Error" "Crawl already in progress for this source" []),
     db).
Proof.
  intros Hkey Hbody Hforce Hsrc Hrun.
  unfold CrawlRoutes.postTrigger, validate. rewrite Hkey, Hbody, Hforce.
  unfold CrawlRoutes.triggerCrawl. rewrite Hsrc. simpl.
  destruct (CrawlRoutes.runningJob db (SourceWebsite.id source)) eqn:Er; [reflexivity|].
  apply runningJob_None in Er. contradiction.
Qed.

(** The force flag defaults to false when the body leaves it out. *)
Example force_defaults_to_false :
  Schemas.crawlTriggerSchema
    (Schemas.mkRawTrigger (Schemas.Str "magic-ui") Schemas.Undefined)
  = Ok (Schemas.mkTrigger "magic-ui" false)
  /\ CrawlRoutes.postTrigger Example.db (Some "key") (Some "key") "job-2" 2000
       (Schemas.mkRawTrigger (Schemas.Str "magic-ui") Schemas.Undefined)
     = (Failure (mkErrorResponse 409 "Error" "Crawl already in progress for this source" []),
        Example.db).
Proof. vm_compute. repeat split. Qed.

(** * Further properties of the services *)

(** ** Paging and ordering of [browse] *)

Lemma length_insert_by {A} (le : A -> A -> bool) (x : A) (l : list A) :
  length (insert_by le x l) = S (length l).
Proof.
  induction l as [|y l IH]; simpl; [reflexivity|].
  destruct (le x y); simpl; [reflexivity | now rewrite IH].
Qed.

Lemma length_sort_by {A} (le : A -> A -> bool) (l : list A) :
  length (sort_by le l) = length l.
Proof.
  induction l as [|x l IH]; simpl; [reflexivity|].
  now rewrite length_insert_by, IH.
Qed.

Lemma in_order_insert_by {A} (le : A -> A -> bool) (x : A) (l : list A) :
  (forall a b, le a b = true \/ le b a = true) ->
  in_order le l -> in_order le (insert_by le x l).
Proof.
  intros Htotal. induction l as [|y l IH]; intros Hl; simpl; [exact I|].
  destruct (le x y) eqn:Exy.
  - split; assumption.
  - assert (Hyx : le y x = true) by (destruct (Htotal x y); congruence).
    destruct l as [|z l]; simpl.
    + split; [exact Hyx | exact I].
    + destruct Hl as [Hyz Hl]. specialize (IH Hl). simpl in IH.
      destruct (le x z); simpl; auto.
Qed.

Lemma in_order_sort_by {A} (le : A -> A -> bool) (l : list A) :
  (forall a b, le a b = true \/ le b a = true) -> in_order le (sort_by le l).
Proof.
  intros Htotal. induction l as [|x l IH]; simpl; [exact I|].
  now apply in_order_insert_by.
Qed.

Lemma in_order_tail {A} (le : A -> A -> bool) (x : A) (l : list A) :
  in_order le (x :: l) -> in_order le l.
Proof. destruct l as [|y l]; simpl; [trivial | now intros [_ H]]. Qed.

Lemma in_order_skipn {A} (le : A -> A -> bool) (n : nat) (l : list A) :
  in_order le l -> in_order le (skipn n l).
Proof.
  revert l. induction n as [|n IH]; intros [|x l] H; simpl; trivial.
  apply IH. now apply in_order_tail in H.
Qed.

Lemma in_order_firstn {A} (le : A -> A -> bool) (n : nat) (l : list A) :
  in_order le l -> in_order le (firstn n l).
Proof.
  revert l. induction n as [|n IH]; intros [|x l] H; simpl; trivial.
  destruct l as [|y l]; [now destruct n|].
  destruct H as [Hxy H]. specialize (IH (y :: l) H).
  destruct n as [|n]; simpl in *; [exact I | split; assumption].
Qed.

Lemma orderBy_total sort a b :
  ComponentService.orderBy sort a b = true \/ ComponentService.orderBy sort b a = true.
Proof.
  destruct sort; simpl.
  - destruct (Z.leb_spec (Component.createdAt b) (Component.createdAt a)); [now left|].
    right. apply Z.leb_le. lia.
  - destruct (Z.leb_spec (Component.viewCount b) (Component.viewCount a)); [now left|].
    right. apply Z.leb_le. lia.
  - apply String.leb_total.
Qed.

(** What [browse] answers for a page and a limit the database accepts. *)
Lemma browse_Ok db page limit filter sort :
  0 <= limit -> 0 <= (page - 1) * limit ->
  ComponentService.filter_binds filter = true ->
  ComponentService.browse db page limit filter sort
  = Ok (ComponentService.mkPaginated
          (firstn (Z.to_nat limit)
             (skipn (Z.to_nat ((page - 1) * limit)) (browsed_in_order db filter sort)))
          (ComponentService.mkPagination page limit
             (Z.of_nat (length (browsed db filter)))
             (ceil_div (Z.of_nat (length (browsed db filter))) limit)
             (js_lt page (ceil_div (Z.of_nat (length (browsed db filter))) limit))
             (1 <? page))).
Proof.
  intros Hl Ho Hb. unfold ComponentService.browse, Sql.offset.
  fold (browsed db filter). fold (browsed_in_order db filter sort).
  rewrite Hb. cbn [negb].
  destruct ((page - 1) * limit <? 0) eqn:E; [lia|].
  now rewrite limit_is_Some.
Qed.


(** X1.  For a page from 1 and a limit from 1 (whose product is a safe
    integer) and filter slugs that can be bound, [browse] answers;
    [total] counts the selected components; the page holds what is left of them
    after the pages before it, at most [limit]; [totalPages] is the
    least number of pages that holds them all; [hasNext] says that
    components remain after this page and [hasPrevious] that the page
    is not the first. *)
Theorem browse_page_bounds db page limit filter sort :
  1 <= page -> 1 <= limit -> page * limit <= max_safe_integer ->
  ComponentService.filter_binds filter = true ->
  exists r pages,
    ComponentService.browse db page limit filter sort = Ok r
    /\ let p := ComponentService.pagination r in
       let total := Z.of_nat (length (browsed db filter)) in
       ComponentService.total p = total
       /\ Z.of_nat (length (ComponentService.components r))
          = Z.min limit (Z.max 0 (total - (page - 1) * limit))
       /\ ComponentService.totalPages p = Finite pages
       /\ (pages - 1) * limit < total <= pages * limit
       /\ (ComponentService.hasNext p = true <-> page * limit < total)
       /\ (ComponentService.hasPrevious p = true <-> 1 < page).
Proof.
  intros Hp Hl _ Hb.
  assert (Ho : 0 <= (page - 1) * limit) by nia.
  rewrite (browse_Ok db page limit filter sort) by (lia || exact Hb).
  set (total := Z.of_nat (length (browsed db filter))).
  assert (Ht : 0 <= total) by (subst total; lia).
  exists (ComponentService.mkPaginated
            (firstn (Z.to_nat limit)
               (skipn (Z.to_nat ((page - 1) * limit)) (browsed_in_order db filter sort)))
            (ComponentService.mkPagination page limit total (ceil_div total limit)
               (js_lt page (ceil_div total limit)) (1 <? page))),
    (- (- total / limit)).
  split; [reflexivity|]. cbn zeta. simpl.
  assert (Hceil : ceil_div total limit = Finite (- (- total / limit))).
  { unfold ceil_div. destruct (limit =? 0) eqn:E; [lia | reflexivity]. }
  pose proof (Z.div_mod (- total) limit ltac:(lia)) as Hdm.
  pose proof (Z.mod_pos_bound (- total) limit ltac:(lia)) as Hmod.
  set (q := - total / limit) in *. set (m := (- total) mod limit) in *.
  rewrite Hceil. simpl.
  split; [reflexivity|]. split.
  - rewrite List.length_firstn, List.length_skipn.
    unfold browsed_in_order. rewrite length_sort_by. fold total.
    set (off := (page - 1) * limit) in *. lia.
  - split; [reflexivity|]. split; [nia|]. split.
    + rewrite Z.ltb_lt. nia.
    + apply Z.ltb_lt.
Qed.

Lemma browse_page_bounds_witness :
  exists r,
    ComponentService.browse Example.db 2 1
      (ComponentService.mkFilter None None None None) ComponentService.popular = Ok r
    /\ ComponentService.components r = [Example.tagged]
    /\ ComponentService.total (ComponentService.pagination r) = 2
    /\ ComponentService.totalPages (ComponentService.pagination r) = Finite 2
    /\ ComponentService.hasNext (ComponentService.pagination r) = false
    /\ ComponentService.hasPrevious (ComponentService.pagination r) = true.
Proof.
  destruct (browse_page_bounds Example.db 2 1
              (ComponentService.mkFilter None None None None) ComponentService.popular)
    as (r & pages & E & _); [lia | lia | unfold max_safe_integer; lia | reflexivity |].
  exists r. split; [exact E|].
  vm_compute in E. injection E as <-. vm_compute. repeat split.
Defined.

(** X2.  Paging loses no component: when no two selected components
    tie on the sort key, the component at position [i] of the selected
    components, in the order of the sort, is on page [i / limit + 1],
    at position [i mod limit] (for a limit from 1 that keeps the offset
    of that page a safe integer, and filter slugs that can be bound). *)
Theorem browse_component_on_its_page db limit filter sort (i : nat) c :
  1 <= limit ->
  Z.of_nat i + limit <= max_safe_integer ->
  ComponentService.filter_binds filter = true ->
  order_determined db filter sort ->
  browsed_in_order db filter sort !! i = Some c ->
  exists r,
    ComponentService.browse db (Z.of_nat i / limit + 1) limit filter sort = Ok r
    /\ ComponentService.components r !! Z.to_nat (Z.of_nat i mod limit) = Some c.
Proof.
  intros Hl _ Hb _ Hi.
  pose proof (Z.div_mod (Z.of_nat i) limit ltac:(lia)) as Hdm.
  pose proof (Z.mod_pos_bound (Z.of_nat i) limit ltac:(lia)) as Hmod.
  pose proof (Z.div_pos (Z.of_nat i) limit ltac:(lia) ltac:(lia)) as Hdiv.
  assert (Hoff : (Z.of_nat i / limit + 1 - 1) * limit = limit * (Z.of_nat i / limit))
    by lia.
  rewrite browse_Ok by (nia || exact Hb).
  eexists. split; [reflexivity|]. simpl.
  rewrite lookup_take_lt by lia. rewrite lookup_drop, Hoff.
  replace (Z.to_nat (limit * (Z.of_nat i / limit)) + Z.to_nat (Z.of_nat i mod limit))%nat
    with i by lia.
  exact Hi.
Qed.

Lemma browse_component_on_its_page_witness :
  exists r,
    ComponentService.browse Example.db 2 1
      (ComponentService.mkFilter None None None None) ComponentService.popular = Ok r
    /\ ComponentService.components r !! 0%nat = Some Example.tagged.
Proof.
  apply (browse_component_on_its_page Example.db 1
           (ComponentService.mkFilter None None None None) ComponentService.popular
           1%nat Example.tagged).
  - lia.
  - unfold max_safe_integer. lia.
  - reflexivity.
  - intros a b [<- | [<- | []]] [<- | [<- | []]] Hab Hba;
      try reflexivity; vm_compute in Hab, Hba; discriminate.
  - reflexivity.
Defined.

Lemma listed_in_order db page limit filter sort :
  in_order (ComponentService.orderBy sort)
    (listed (ComponentService.browse db page limit filter sort)).
Proof.
  unfold listed, ComponentService.browse.
  destruct (negb (ComponentService.filter_binds _)); [exact I|].
  destruct (Sql.offset _ _) as [rest|] eqn:Eo; [|exact I].
  destruct (Sql.limit _ _) as [rows|] eqn:El; [|exact I]. simpl.
  apply limit_Some in El as [_ ->].
  unfold Sql.offset in Eo. destruct (_ <? 0); [discriminate|]. injection Eo as <-.
  apply in_order_firstn, in_order_skipn, in_order_sort_by, orderBy_total.
Qed.

(** X3.  The page of a browse sorted as popular is by descending view
    count: no component on it has fewer views than the next one.  The
    page of a browse sorted as newest is by descending creation time. *)
Theorem browse_page_in_order db page limit filter :
  in_order (fun a b => Component.viewCount b <=? Component.viewCount a)
    (listed (ComponentService.browse db page limit filter ComponentService.popular))
  /\ in_order (fun a b => Component.createdAt b <=? Component.createdAt a)
       (listed (ComponentService.browse db page limit filter ComponentService.newest)).
Proof.
  split.
  - apply (listed_in_order db page limit filter ComponentService.popular).
  - apply (listed_in_order db page limit filter ComponentService.newest).
Qed.

(** The pages of the example by popularity: the most viewed first. *)
Example browse_popular_first :
  listed (ComponentService.browse Example.db 1 20
            (ComponentService.mkFilter None None None None) ComponentService.popular)
  = [Example.named; Example.tagged]
  /\ listed (ComponentService.browse Example.db 1 20
               (ComponentService.mkFilter None None None (Some false))
               ComponentService.name)
     = [Example.retired].
Proof. vm_compute. split; reflexivity. Qed.


Lemma int_min_max_default_Ok path lo hi d v z :
  lo <= d <= hi -> Schemas.int_min_max_default path lo hi d v = Ok z -> lo <= z <= hi.
Proof.
  unfold Schemas.int_min_max_default. intros Hd.
  destruct v as [|n|]; [intros [= <-]; lia | | discriminate].
  destruct (Z.ltb_spec n lo); [discriminate|].
  destruct (Z.ltb_spec hi n); [discriminate | intros [= <-]; lia].
Qed.


Lemma searchQuerySchema_Ok raw query :
  Schemas.searchQuerySchema raw = Ok query ->
  1 <= Schemas.limit query <= 100
  /\ 2 <= Schemas.str_length (Schemas.q query) <= 500.
Proof.
  unfold Schemas.searchQuerySchema.
  destruct (Schemas.string_min_max _ _ _ _) as [q|] eqn:Eq; [|discriminate].
  destruct (Schemas.sourceFilterSchema _); [|discriminate].
  destruct (Schemas.typeFilterSchema _); [|discriminate].
  destruct (Schemas.int_min_max_default _ _ _ _ _) as [l|] eqn:El; [|discriminate].
  intros [= <-]. simpl.
  apply int_min_max_default_Ok in El; [|lia]. split; [lia|].
  unfold Schemas.string_min_max in Eq. destruct (Schemas.raw_q raw); try discriminate.
  destruct (Z.ltb_spec (Schemas.str_length s) 2); [discriminate|].
  destruct (Z.ltb_spec 500 (Schemas.str_length s)); [discriminate|].
  injection Eq as <-. lia.
Qed.







(** ** Filters that name a known slug *)

(** What [browse] lists satisfies its conditions. *)
Lemma listed_conditions db page limit filter sort c :
  In c (listed (ComponentService.browse db page limit filter sort)) ->
  and_conditions (ComponentService.conditions db filter) c = true.
Proof.
  unfold listed, ComponentService.browse.
  destruct (negb (ComponentService.filter_binds _)); [easy|].
  destruct (Sql.offset _ _) as [rest|] eqn:Eo; [|easy].
  destruct (Sql.limit _ _) as [rows|] eqn:El; [|easy].
  simpl. intros Hc.
  apply limit_Some in El as [_ ->]. apply In_limited in Hc.
  unfold Sql.offset in Eo. destruct (_ <? 0); [discriminate|]. injection Eo as <-.
  now apply In_offset, In_sort_by, List.filter_In in Hc as [_ Hc].
Qed.

(** What [search] returns satisfies its conditions. *)
Lemma returned_conditions db order startTime endTime query limit filter sessionId c :
  In c (returned (SearchService.search db order startTime endTime query limit filter sessionId)) ->
  and_conditions (SearchService.conditions db query filter) c = true.
Proof.
  unfold returned.
  destruct (SearchService.search _ _ _ _ _ _ _ _) as [[r db']|e] eqn:E; [|easy].
  apply search_Ok in E as (_ & Hres & _ & _). rewrite Hres, List.map_map.
  intros Hc. apply in_map_iff in Hc as (x & <- & Hx). simpl.
  now apply In_limited, In_yield, List.filter_In in Hx as [_ Hx].
Qed.

Lemma and_conditions_In (conds : list Condition) (cond : Condition) c :
  and_conditions conds c = true -> In cond conds -> cond c = true.
Proof.
  unfold and_conditions. intros H Hin.
  apply (proj1 (forallb_forall _ _) H cond Hin).
Qed.

(** X5.  A source filter that names a known slug is applied: [browse]
    lists, and [search] returns, only components of the first source
    with that slug; and likewise for a type filter. *)
Theorem known_filter_slug_is_applied db :
  (forall slug source,
      SourceWebsiteService.getBySlug db slug = Some source ->
      slug <> "" ->
      (forall page limit typeSlug tags isActive sort c,
          In c (listed (ComponentService.browse db page limit
                          (ComponentService.mkFilter (Some slug) typeSlug tags isActive)
                          sort)) ->
          Component.sourceWebsiteId c = SourceWebsite.id source)
      /\ (forall order startTime endTime query limit type sessionId c,
             In c (returned (SearchService.search db order startTime endTime query limit
                               (SearchService.mkFilter (Some slug) type) sessionId)) ->
             Component.sourceWebsiteId c = SourceWebsite.id source))
  /\ (forall slug type,
         ComponentTypeService.getBySlug db slug = Some type ->
         slug <> "" ->
         (forall page limit sourceSlug tags isActive sort c,
             In c (listed (ComponentService.browse db page limit
                             (ComponentService.mkFilter sourceSlug (Some slug) tags isActive)
                             sort)) ->
             Component.componentTypeId c = ComponentType.id type)
         /\ (forall order startTime endTime query limit source sessionId c,
                In c (returned (SearchService.search db order startTime endTime query limit
                                  (SearchService.mkFilter source (Some slug)) sessionId)) ->
                Component.componentTypeId c = ComponentType.id type)).
Proof.
  split.
  - intros slug source Hsrc Hne.
    assert (Htruthy : truthy (Some slug) = true).
    { simpl. apply negb_true_iff. now apply String.eqb_neq. }
    unfold SourceWebsiteService.getBySlug in Hsrc.
    split.
    + intros page limit typeSlug tags isActive sort c Hc.
      apply listed_conditions in Hc.
      apply String.eqb_eq.
      apply (and_conditions_In _ (fun c => String.eqb (Component.sourceWebsiteId c)
                                             (SourceWebsite.id source)) c Hc).
      unfold ComponentService.conditions, ComponentService.sourceConditions.
      cbn [ComponentService.sourceSlug]. rewrite Htruthy.
      unfold SearchService.sourceBySlug.
      destruct (firstn 1 _) as [|s rest]; [discriminate|]. injection Hsrc as ->.
      apply in_or_app. right. apply in_or_app. left. now left.
    + intros order startTime endTime query limit type sessionId c Hc.
      apply returned_conditions in Hc.
      apply String.eqb_eq.
      apply (and_conditions_In _ (fun c => String.eqb (Component.sourceWebsiteId c)
                                             (SourceWebsite.id source)) c Hc).
      unfold SearchService.conditions, SearchService.sourceConditions.
      cbn [SearchService.source]. rewrite Htruthy.
      unfold SearchService.sourceBySlug.
      destruct (firstn 1 _) as [|s rest]; [discriminate|]. injection Hsrc as ->.
      apply in_or_app. right. apply in_or_app. left. now left.
  - intros slug type Hty Hne.
    assert (Htruthy : truthy (Some slug) = true).
    { simpl. apply negb_true_iff. now apply String.eqb_neq. }
    unfold ComponentTypeService.getBySlug in Hty.
    split.
    + intros page limit sourceSlug tags isActive sort c Hc.
      apply listed_conditions in Hc.
      apply String.eqb_eq.
      apply (and_conditions_In _ (fun c => String.eqb (Component.componentTypeId c)
                                             (ComponentType.id type)) c Hc).
      unfold ComponentService.conditions, ComponentService.typeConditions.
      cbn [ComponentService.typeSlug]. rewrite Htruthy.
      unfold SearchService.typeBySlug.
      destruct (firstn 1 _) as [|s rest]; [discriminate|]. injection Hty as ->.
      apply in_or_app. right. apply in_or_app. right. now left.
    + intros order startTime endTime query limit source sessionId c Hc.
      apply returned_conditions in Hc.
      apply String.eqb_eq.
      apply (and_conditions_In _ (fun c => String.eqb (Component.componentTypeId c)
                                             (ComponentType.id type)) c Hc).
      unfold SearchService.conditions, SearchService.typeConditions.
      cbn [SearchService.type]. rewrite Htruthy.
      unfold SearchService.typeBySlug.
      destruct (firstn 1 _) as [|s rest]; [discriminate|]. injection Hty as ->.
      apply in_or_app. right. apply in_or_app. right. apply in_or_app. left. now left.
Qed.

Lemma known_filter_slug_is_applied_witness :
  Forall (fun c => Component.sourceWebsiteId c = "src-1")
    (listed (ComponentService.browse Example.db 1 20
               (ComponentService.mkFilter (Some "shadcn-ui") None None None)
               ComponentService.newest))
  /\ Forall (fun c => Component.componentTypeId c = "type-2")
       (returned (SearchService.search Example.db [] 0 3 "button" 10
                    (SearchService.mkFilter None (Some "card")) None)).
Proof.
  destruct (known_filter_slug_is_applied Example.db) as [Hsource Htype].
  split; apply List.Forall_forall; intros c Hc.
  - destruct (Hsource "shadcn-ui" Example.shadcn) as [Hb _];
      [reflexivity | discriminate |].
    apply (Hb _ _ _ _ _ _ _ Hc).
  - destruct (Htype "card" Example.cardType) as [_ Hs];
      [reflexivity | discriminate |].
    apply (Hs _ _ _ _ _ _ _ _ Hc).
Defined.

(** ** Creating, updating, viewing and deleting components *)

Lemma with_components_same db : ComponentService.with_components db (Db.components db) = db.
Proof. now destruct db. Qed.

Lemma map_unchanged {A} (f : A -> A) (l : list A) :
  (forall x, In x l -> f x = x) -> map f l = l.
Proof.
  induction l as [|x l IH]; intros H; simpl; [reflexivity|].
  rewrite H by now left. rewrite IH; [reflexivity|]. intros y Hy. apply H. now right.
Qed.

Lemma filter_map_key {A} (p : A -> bool) (f : A -> A) (l : list A) :
  (forall x, p (f x) = p x) ->
  List.filter p (map f l) = map f (List.filter p l).
Proof.
  intros Hp. induction l as [|x l IH]; simpl; [reflexivity|].
  rewrite Hp. destruct (p x); simpl; now rewrite IH.
Qed.

Lemma getById_In db id c :
  ComponentService.getById db id = Some c -> In c (Db.components db) /\ Component.id c = id.
Proof.
  unfold ComponentService.getById.
  destruct (List.filter _ (Db.components db)) as [|x rest] eqn:E; [discriminate|].
  simpl. intros [= ->].
  assert (H : In c (List.filter (fun c => String.eqb (Component.id c) id)
                      (Db.components db))) by (rewrite E; now left).
  apply List.filter_In in H as [H1 H2]. split; [exact H1 | now apply String.eqb_eq].
Qed.

Lemma getById_None db id :
  ComponentService.getById db id = None <->
  forall c, In c (Db.components db) -> Component.id c <> id.
Proof.
  unfold ComponentService.getById.
  destruct (List.filter _ (Db.components db)) as [|x rest] eqn:E; simpl.
  - split; [|reflexivity]. intros _ c Hc Hid.
    assert (H : In c []); [|destruct H].
    rewrite <- E. apply List.filter_In. split; [exact Hc | now apply String.eqb_eq].
  - split; [discriminate|]. intros H. exfalso.
    assert (Hx : In x (x :: rest)) by now left.
    rewrite <- E in Hx. apply List.filter_In in Hx as [Hx Hid].
    apply (H x Hx). now apply String.eqb_eq.
Qed.

(** X6.  A created component is found again: [getById] of its id
    returns the stored row, [existsByHash] holds of its hash and source,
    the table has one row more, and every other id is looked up as
    before. *)
Theorem create_then_lookup db randomId now data row db' :
  ComponentService.create db randomId now data = Ok (row, db') ->
  ComponentService.getById db' (Component.id row) = Some row
  /\ ComponentService.existsByHash db' (Component.contentHash row)
       (Component.sourceWebsiteId row) = true
  /\ length (Db.components db') = S (length (Db.components db))
  /\ ComponentService.getById db (Component.id row) = None
  /\ (forall id, id <> Component.id row ->
                 ComponentService.getById db' id = ComponentService.getById db id).
Proof.
  unfold ComponentService.create.
  destruct (_ && ComponentService.insert_ok db _) eqn:Eok; [|discriminate].
  intros [= <- <-]. set (row := ComponentService.inserted randomId now data) in *.
  apply andb_true_iff in Eok as [_ Eok].
  apply andb_true_iff in Eok as [[Hfresh _]%andb_true_iff _].
  apply negb_true_iff in Hfresh.
  assert (Hnone : List.filter (fun c => String.eqb (Component.id c) (Component.id row))
                    (Db.components db) = []).
  { apply filter_none, List.Forall_forall. intros c Hc.
    destruct (String.eqb (Component.id c) (Component.id row)) eqn:E; [|reflexivity].
    rewrite <- Hfresh. symmetry. apply existsb_exists. eauto. }
  repeat split.
  - unfold ComponentService.getById, ComponentService.with_components.
    cbn [Db.components]. rewrite List.filter_app, Hnone.
    cbn [List.filter app]. now rewrite String.eqb_refl.
  - apply existsByHash_true. exists row.
    unfold ComponentService.with_components. cbn [Db.components]. repeat split.
    apply in_or_app. right. now left.
  - unfold ComponentService.with_components. cbn [Db.components].
    rewrite List.length_app. simpl. lia.
  - unfold ComponentService.getById. now rewrite Hnone.
  - intros id Hid. unfold ComponentService.getById, ComponentService.with_components.
    cbn [Db.components]. rewrite List.filter_app. cbn [List.filter].
    destruct (String.eqb (Component.id row) id) eqn:E.
    + apply String.eqb_eq in E. congruence.
    + now rewrite List.app_nil_r.
Qed.

Lemma create_then_lookup_witness :
  exists row db',
    ComponentService.create Example.db "cmp-9" 400 Example.secondButton = Ok (row, db')
    /\ ComponentService.getById db' "cmp-9" = Some row
    /\ ComponentService.existsByHash db' "hash-button-2" "src-1" = true.
Proof.
  destruct (ComponentService.create Example.db "cmp-9" 400 Example.secondButton)
    as [[row db']|e] eqn:E; [|vm_compute in E; discriminate].
  exists row, db'. split; [reflexivity|].
  destruct (create_then_lookup _ _ _ _ _ _ E) as (Hget & Hhash & _).
  vm_compute in E. injection E as <- <-. split; [exact Hget | exact Hhash].
Defined.

Lemma unique_ids_app_fresh ids id :
  ComponentService.unique_ids ids = true ->
  existsb (String.eqb id) ids = false ->
  ComponentService.unique_ids (ids ++ [id]) = true.
Proof.
  induction ids as [|i ids IH]; simpl; [reflexivity|].
  intros Hu Hf. apply andb_true_iff in Hu as [Hi Hu].
  apply orb_false_iff in Hf as [Hne Hf].
  rewrite existsb_app. cbn [existsb]. rewrite orb_false_r.
  apply negb_true_iff in Hi. unfold uuid in *. rewrite Hi. cbn [orb].
  rewrite String.eqb_sym in Hne. rewrite Hne. cbn [negb andb]. now apply IH.
Qed.

Lemma unique_ids_filter {A} (key : A -> uuid) (p : A -> bool) (l : list A) :
  ComponentService.unique_ids (map key l) = true ->
  ComponentService.unique_ids (map key (List.filter p l)) = true.
Proof.
  induction l as [|x l IH]; simpl; [reflexivity|].
  intros Hu. apply andb_true_iff in Hu as [Hx Hu].
  destruct (p x); simpl; [|now apply IH].
  rewrite IH by assumption. rewrite andb_true_r.
  apply negb_true_iff. apply negb_true_iff in Hx.
  destruct (existsb (String.eqb (key x)) (map key (List.filter p l))) eqn:E;
    [|reflexivity].
  rewrite <- Hx. symmetry.
  apply existsb_exists in E as (k & Hk & Heq).
  apply existsb_exists. exists k. split; [|exact Heq].
  apply in_map_iff in Hk as (y & <- & Hy). apply in_map.
  now apply List.filter_In in Hy as [Hy _].
Qed.

(** X7.  The constraints of the table (distinct ids, both foreign keys,
    the column lengths) hold after every write of the service that
    succeeds: [create], [update], [incrementViewCount], [delete]. *)
Theorem component_writes_keep_constraints db :
  components_valid db ->
  (forall randomId now data row db',
      ComponentService.create db randomId now data = Ok (row, db') ->
      components_valid db')
  /\ (forall now id data updated db',
         ComponentService.update db now id data = Ok (updated, db') ->
         components_valid db')
  /\ (forall id, components_valid (ComponentService.incrementViewCount db id))
  /\ (forall id, components_valid (snd (ComponentService.delete db id))).
Proof.
  intros [Hu Hok]. split; [|split; [|split]].
  - intros randomId now data row db'. unfold ComponentService.create.
    destruct (_ && ComponentService.insert_ok db _) eqn:Eok; [|discriminate].
    intros [= <- <-]. apply andb_true_iff in Eok as [_ Eok].
    apply andb_true_iff in Eok as [[Hfresh _]%andb_true_iff Hrow].
    apply negb_true_iff in Hfresh.
    split; simpl.
    + rewrite List.map_app. simpl. apply unique_ids_app_fresh; [exact Hu|].
      rewrite <- Hfresh. clear. induction (Db.components db) as [|c l IH]; simpl;
        [reflexivity|]. rewrite IH. f_equal. apply String.eqb_sym.
    + rewrite forallb_app. apply andb_true_iff. split; [exact Hok|].
      cbn [forallb]. rewrite andb_true_r. exact Hrow.
  - intros now id data updated db'. unfold ComponentService.update.
    destruct (_ && _) eqn:Echeck; [|discriminate].
    intros [= _ <-]. apply andb_true_iff in Echeck as [[_ Hu']%andb_true_iff Hpatched].
    split; simpl; [exact Hu'|].
    apply forallb_forall. intros c' Hc'.
    apply in_map_iff in Hc' as (c & <- & Hc).
    pose proof (proj1 (forallb_forall _ _) Hpatched c Hc) as Hp.
    pose proof (proj1 (forallb_forall _ _) Hok c Hc) as Hc0.
    cbv beta in Hp.
    destruct (String.eqb (Component.id c) id); cbn [negb orb] in Hp;
      [exact Hp | exact Hc0].
  - intros id. unfold ComponentService.incrementViewCount.
    destruct (existsb _ _); [now split|].
    split; simpl.
    + rewrite List.map_map.
      rewrite (List.map_ext _ Component.id); [exact Hu|].
      intros c. now destruct (String.eqb (Component.id c) id).
    + apply forallb_forall. intros c' Hc'.
      apply in_map_iff in Hc' as (c & <- & Hc).
      pose proof (proj1 (forallb_forall _ _) Hok c Hc) as Hc0.
      destruct (String.eqb (Component.id c) id); exact Hc0.
  - intros id. split; simpl.
    + now apply unique_ids_filter.
    + apply forallb_forall. intros c Hc. apply List.filter_In in Hc as [Hc _].
      apply (proj1 (forallb_forall _ _) Hok c Hc).
Qed.

Lemma component_writes_keep_constraints_witness :
  components_valid (ComponentService.incrementViewCount Example.db "cmp-2")
  /\ components_valid (snd (ComponentService.delete Example.db "cmp-1")).
Proof.
  destruct (component_writes_keep_constraints Example.db) as (_ & _ & Hview & Hdel).
  - split; vm_compute; reflexivity.
  - split; [apply Hview | apply Hdel].
Defined.

Lemma patched_id now data c :
  ComponentService.set_id data = None ->
  Component.id (ComponentService.patched now data c) = Component.id c.
Proof. intros H. unfold ComponentService.patched. simpl. now rewrite H. Qed.

(** X8.  [update] of an id that no row carries writes nothing.  When
    every value of the data can be bound to its column (text without a
    NUL byte and within the length of a varchar column, a view count
    that is an [integer], a date the database reads) it returns null;
    otherwise the statement fails at the binding, although no row has
    the id, and [update] throws its AppError 500. *)
Theorem update_of_unknown_id db now id data :
  ComponentService.unique_ids (map Component.id (Db.components db)) = true ->
  ComponentService.getById db id = None ->
  store_after db (ComponentService.update db now id data) = db
  /\ (ComponentService.patch_binds data = true ->
      ComponentService.update db now id data = Ok (None, db))
  /\ (ComponentService.patch_binds data = false ->
      ComponentService.update db now id data
      = Err (mkAppError 500 "Failed to update component")).
Proof.
  intros Hu Hnone. pose proof (proj1 (getById_None db id) Hnone) as Hno.
  assert (Hmiss : forall c, In c (Db.components db) ->
                            String.eqb (Component.id c) id = false).
  { intros c Hc. apply String.eqb_neq. now apply Hno. }
  assert (Hup : ComponentService.update db now id data
                = if ComponentService.patch_binds data then Ok (None, db)
                  else Err (mkAppError 500 "Failed to update component")).
  { unfold ComponentService.update.
    rewrite (map_unchanged _ (Db.components db))
      by (intros c Hc; now rewrite (Hmiss c Hc)).
    rewrite Hu. rewrite andb_true_r.
    replace (forallb _ (Db.components db)) with true.
    - rewrite andb_true_r.
      rewrite filter_none by (apply List.Forall_forall; exact Hmiss).
      now rewrite with_components_same.
    - symmetry. apply forallb_forall. intros c Hc. now rewrite (Hmiss c Hc). }
  rewrite Hup. split; [|split].
  - now destruct (ComponentService.patch_binds data).
  - now intros ->.
  - now intros ->.
Qed.

Lemma update_of_unknown_id_witness :
  ComponentService.update Example.db 500 "cmp-404"
    (ComponentService.mkPatch None None None (Some "Renamed") None None None None None
       None None None None)
  = Ok (None, Example.db)
  /\ ComponentService.update Example.db 500 "cmp-404"
       (ComponentService.mkPatch None None None None None None None None None
          None None (Some 2147483648) None)
     = Err (mkAppError 500 "Failed to update component").
Proof.
  split.
  - apply (update_of_unknown_id Example.db 500 "cmp-404"); vm_compute; reflexivity.
  - apply (update_of_unknown_id Example.db 500 "cmp-404"); vm_compute; reflexivity.
Defined.

(** X9.  An update that does not change the id is read back: [getById]
    returns the row [update] returned, stamped with the time of the
    update and marked as the data say; every other id is looked up as
    before. *)
Theorem update_then_lookup db now id data updated db' :
  ComponentService.set_id data = None ->
  ComponentService.update db now id data = Ok (Some updated, db') ->
  ComponentService.getById db' id = Some updated
  /\ Component.id updated = id
  /\ Component.updatedAt updated = now
  /\ (forall b, ComponentService.set_isActive data = Some b ->
                Component.isActive updated = b)
  /\ (exists before, ComponentService.getById db id = Some before
                     /\ updated = ComponentService.patched now data before)
  /\ length (Db.components db') = length (Db.components db)
  /\ (forall other, other <> id ->
                    ComponentService.getById db' other = ComponentService.getById db other).
Proof.
  intros Hid. unfold ComponentService.update.
  destruct (_ && _); [|discriminate].
  destruct (List.filter (fun c => String.eqb (Component.id c) id) (Db.components db))
    as [|c rest] eqn:Ef; [discriminate|].
  intros [= <- <-].
  assert (Hc : String.eqb (Component.id c) id = true).
  { assert (H : In c (List.filter (fun c => String.eqb (Component.id c) id)
                        (Db.components db))) by (rewrite Ef; now left).
    now apply List.filter_In in H as [_ H]. }
  assert (Hkey : forall k x,
             String.eqb (Component.id (if String.eqb (Component.id x) id
                                       then ComponentService.patched now data x else x)) k
             = String.eqb (Component.id x) k).
  { intros k x. destruct (String.eqb (Component.id x) id); [|reflexivity].
    now rewrite patched_id. }
  split; [|split; [|split; [|split; [|split; [|split]]]]].
  - unfold ComponentService.getById, ComponentService.with_components.
    cbn [Db.components].
    rewrite (filter_map_key (fun c => String.eqb (Component.id c) id)) by (intros; apply Hkey).
    rewrite Ef. cbn [map firstn]. now rewrite Hc.
  - rewrite patched_id by assumption. now apply String.eqb_eq.
  - reflexivity.
  - intros b Hb. unfold ComponentService.patched. simpl. now rewrite Hb.
  - exists c. split; [|reflexivity]. unfold ComponentService.getById. now rewrite Ef.
  - unfold ComponentService.with_components. cbn [Db.components].
    apply List.length_map.
  - intros other Hother.
    unfold ComponentService.getById, ComponentService.with_components.
    cbn [Db.components].
    rewrite (filter_map_key (fun c => String.eqb (Component.id c) other))
      by (intros; apply Hkey).
    rewrite map_unchanged; [reflexivity|].
    intros x Hx. apply List.filter_In in Hx as [_ Hx]. apply String.eqb_eq in Hx.
    destruct (String.eqb (Component.id x) id) eqn:E; [|reflexivity].
    apply String.eqb_eq in E. congruence.
Qed.

Lemma update_then_lookup_witness :
  exists updated db',
    ComponentService.update Example.db 500 "cmp-2"
      (ComponentService.mkPatch None None None None None None None None None None
         (Some false) None None) = Ok (Some updated, db')
    /\ ComponentService.getById db' "cmp-2" = Some updated
    /\ Component.isActive updated = false
    /\ Component.updatedAt updated = 500.
Proof.
  destruct (ComponentService.update Example.db 500 "cmp-2"
              (ComponentService.mkPatch None None None None None None None None None None
                 (Some false) None None))
    as [[[updated|] db']|e] eqn:E; try (vm_compute in E; discriminate).
  exists updated, db'. split; [reflexivity|].
  destruct (update_then_lookup Example.db 500 "cmp-2"
              (ComponentService.mkPatch None None None None None None None None None None
                 (Some false) None None) updated db' eq_refl E)
    as (Hget & _ & Hat & Hact & _).
  split; [exact Hget|]. split; [now apply Hact | exact Hat].
Defined.

(** X10.  After [delete] the id is not found; every other id is looked
    up as before; deleting again changes nothing more; and deleting an
    id that no row carries leaves the store as it is.  [delete] answers
    true in every case. *)
Theorem delete_then_lookup db id :
  fst (ComponentService.delete db id) = true
  /\ ComponentService.getById (snd (ComponentService.delete db id)) id = None
  /\ (forall other, other <> id ->
                    ComponentService.getById (snd (ComponentService.delete db id)) other
                    = ComponentService.getById db other)
  /\ snd (ComponentService.delete (snd (ComponentService.delete db id)) id)
     = snd (ComponentService.delete db id)
  /\ (ComponentService.getById db id = None -> snd (ComponentService.delete db id) = db).
Proof.
  split; [reflexivity|]. split; [|split; [|split]].
  - apply getById_None. simpl. intros c Hc Hid.
    apply List.filter_In in Hc as [_ Hc]. apply negb_true_iff in Hc.
    apply String.eqb_neq in Hc. contradiction.
  - intros other Hother. unfold ComponentService.getById. simpl.
    assert (Hl : forall l,
               List.filter (fun c => String.eqb (Component.id c) other)
                 (List.filter (fun c => negb (String.eqb (Component.id c) id)) l)
               = List.filter (fun c => String.eqb (Component.id c) other) l).
    { induction l as [|c l IH]; [reflexivity|]. simpl.
      destruct (String.eqb (Component.id c) id) eqn:Eid; simpl.
      - apply String.eqb_eq in Eid.
        destruct (String.eqb (Component.id c) other) eqn:Eo; [|exact IH].
        apply String.eqb_eq in Eo. congruence.
      - destruct (String.eqb (Component.id c) other); [now rewrite IH | exact IH]. }
    now rewrite Hl.
  - simpl. unfold ComponentService.with_components. simpl. f_equal.
    apply filter_all, List.Forall_forall. intros c Hc.
    now apply List.filter_In in Hc as [_ Hc].
  - intros Hnone. pose proof (proj1 (getById_None db id) Hnone) as Hno. simpl.
    rewrite filter_all; [apply with_components_same|].
    apply List.Forall_forall. intros c Hc. apply negb_true_iff, String.eqb_neq.
    now apply Hno.
Qed.

Lemma delete_then_lookup_witness :
  snd (ComponentService.delete Example.db "cmp-404") = Example.db
  /\ ComponentService.getById (snd (ComponentService.delete Example.db "cmp-1")) "cmp-1"
     = None.
Proof.
  split.
  - apply (delete_then_lookup Example.db "cmp-404"). reflexivity.
  - apply (delete_then_lookup Example.db "cmp-1").
Defined.

(** ** The page of one component *)

Lemma leftJoin_In {A B} (on : A -> B -> bool) l r x :
  In x (Sql.leftJoin on l r) ->
  In (fst x) l
  /\ match snd x with
     | Some b => In b r /\ on (fst x) b = true
     | None => forall b, In b r -> on (fst x) b = false
     end.
Proof.
  induction l as [|a l IH]; [intros []|].
  rewrite leftJoin_cons. intros Hx. apply in_app_or in Hx as [Hx | Hx].
  - destruct (List.filter (on a) r) as [|b ms] eqn:E.
    + destruct Hx as [<- | []]. simpl. split; [now left|].
      intros b Hb. destruct (on a b) eqn:Eb; [|reflexivity].
      assert (H : In b (List.filter (on a) r)) by (apply List.filter_In; now split).
      rewrite E in H. destruct H.
    + apply in_map_iff in Hx as (y & <- & Hy). simpl. split; [now left|].
      rewrite <- E in Hy. now apply List.filter_In in Hy.
  - destruct (IH Hx) as [H1 H2]. split; [now right | exact H2].
Qed.

(** The first joined row of a left row that passes a test carries the
    first left row that passes it. *)
Lemma leftJoin_first {A B} (on : A -> B -> bool) (p : A -> bool) l r :
  hd_error (map fst (List.filter (fun x => p (fst x)) (Sql.leftJoin on l r)))
  = hd_error (List.filter p l).
Proof.
  induction l as [|a l IH]; [reflexivity|].
  rewrite leftJoin_cons, List.filter_app, List.map_app.
  destruct (leftJoin_block on a r) as [Hne Hall].
  set (block := match List.filter (on a) r with
                | [] => [(a, None)]
                | ms => map (fun b => (a, Some b)) ms
                end) in *.
  simpl. destruct (p a) eqn:Hp.
  - rewrite (filter_all _ block).
    + destruct block as [|x block]; [congruence|].
      apply List.Forall_inv in Hall. simpl. now rewrite Hall.
    + eapply List.Forall_impl; [|exact Hall]. simpl. intros x ->. exact Hp.
  - rewrite (filter_none _ block); [exact IH|].
    eapply List.Forall_impl; [|exact Hall]. simpl. intros x ->. exact Hp.
Qed.

Lemma hd_error_map {A B} (f : A -> B) (l : list A) :
  hd_error (map f l) = option_map f (hd_error l).
Proof. now destruct l. Qed.

(** [getByIdWithRelations] finds the component [getById] finds. *)
Lemma getByIdWithRelations_component db id :
  option_map ComponentDetail.component (ComponentDetail.getByIdWithRelations db id)
  = ComponentService.getById db id.
Proof.
  unfold ComponentDetail.getByIdWithRelations, ComponentService.getById.
  pose proof (leftJoin_first
                (fun (r : Component.t * option SourceWebsite.t) t =>
                   String.eqb (Component.componentTypeId (fst r)) (ComponentType.id t))
                (fun r => String.eqb (Component.id (fst r)) id)
                (Sql.leftJoin
                   (fun c s => String.eqb (Component.sourceWebsiteId c) (SourceWebsite.id s))
                   (Db.components db) (Db.sourceWebsites db))
                (Db.componentTypes db)) as H2.
  pose proof (leftJoin_first
                (fun c s => String.eqb (Component.sourceWebsiteId c) (SourceWebsite.id s))
                (fun c => String.eqb (Component.id c) id)
                (Db.components db) (Db.sourceWebsites db)) as H1.
  fold (SearchService.joinedRows db) in H2.
  apply (f_equal (option_map fst)) in H2.
  rewrite <- !hd_error_map, H1 in H2.
  destruct (List.filter _ (SearchService.joinedRows db)) as [|x xs];
    destruct (List.filter _ (Db.components db)) as [|c cs]; simpl in *;
    congruence.
Qed.

Lemma incrementViewCount_unique db id c :
  ComponentService.unique_ids (map Component.id (Db.components db)) = true ->
  ComponentService.getById db id = Some c ->
  forall x, In x (Db.components db) -> String.eqb (Component.id x) id = true -> x = c.
Proof.
  unfold ComponentService.getById. intros Hu.
  induction (Db.components db) as [|y l IH]; simpl; [discriminate|].
  simpl in Hu. apply andb_true_iff in Hu as [Hy Hu]. apply negb_true_iff in Hy.
  destruct (String.eqb (Component.id y) id) eqn:Ey.
  - simpl. intros [= ->] x [<- | Hx] Hxid; [reflexivity|]. exfalso.
    apply String.eqb_eq in Ey, Hxid.
    assert (Hex : existsb (String.eqb (Component.id c)) (map Component.id l) = true).
    { apply existsb_exists. exists (Component.id x). split; [now apply in_map|].
      apply String.eqb_eq. congruence. }
    unfold uuid in *. congruence.
  - intros Hc x [<- | Hx] Hxid; [congruence|]. now apply IH.
Qed.

(** X11.  GET /api/components/:id on a table with its primary key.  For
    an id that no component carries the answer is 404 and nothing is
    stored.  For the id of a component the answer is 200 with the
    component as it was read, and afterwards the component has one more
    view (none more at the largest integer of the column, where the
    failed increment is swallowed); every other component is as
    before. *)
Theorem get_component_counts_a_view db id :
  ComponentService.unique_ids (map Component.id (Db.components db)) = true ->
  match ComponentService.getById db id with
  | None =>
      status_of (fst (ComponentDetail.getComponent db id)) = 404
      /\ snd (ComponentDetail.getComponent db id) = db
  | Some c =>
      (exists found, fst (ComponentDetail.getComponent db id) = Json 200 found
                     /\ ComponentDetail.component found = c)
      /\ ComponentService.getById (snd (ComponentDetail.getComponent db id)) id
         = Some (if Component.viewCount c <? 2147483647 then viewed c else c)
      /\ (forall other, other <> id ->
            ComponentService.getById (snd (ComponentDetail.getComponent db id)) other
            = ComponentService.getById db other)
  end.
Proof.
  intros Hu. pose proof (getByIdWithRelations_component db id) as Hrel.
  unfold ComponentDetail.getComponent.
  destruct (ComponentService.getById db id) as [c|] eqn:Hget;
    destruct (ComponentDetail.getByIdWithRelations db id) as [found|];
    try discriminate; [|split; reflexivity].
  injection Hrel as Hrel. cbn [fst snd].
  split; [exists found; now split|].
  pose proof (incrementViewCount_unique db id c Hu Hget) as Hone.
  destruct (getById_In _ _ _ Hget) as [Hin Hcid].
  unfold ComponentService.incrementViewCount.
  fold (viewed) in *.
  assert (Hover : existsb (fun c0 => String.eqb (Component.id c0) id
                                     && (2147483647 <? Component.viewCount c0 + 1))
                    (Db.components db)
                  = negb (Component.viewCount c <? 2147483647)).
  { destruct (Component.viewCount c <? 2147483647) eqn:Elt; cbn [negb].
    - apply not_true_is_false. intros Hex. apply existsb_exists in Hex as (x & Hx & Hxb).
      apply andb_true_iff in Hxb as [Hxid Hxo]. rewrite (Hone x Hx Hxid) in Hxo. lia.
    - apply existsb_exists. exists c. split; [exact Hin|].
      apply andb_true_iff. split; [now apply String.eqb_eq | lia]. }
  rewrite Hover. destruct (Component.viewCount c <? 2147483647) eqn:Elt; cbn [negb].
  - assert (Hkey : forall k x,
               String.eqb (Component.id (if String.eqb (Component.id x) id
                                         then viewed x else x)) k
               = String.eqb (Component.id x) k).
    { intros k x. now destruct (String.eqb (Component.id x) id). }
    split.
    + unfold ComponentService.getById in *. unfold ComponentService.with_components.
      cbn [Db.components].
      change (fun c0 : Component.t =>
                if String.eqb (Component.id c0) id
                then Component.mk (Component.id c0) (Component.sourceWebsiteId c0)
                       (Component.componentTypeId c0) (Component.name c0)
                       (Component.slug c0) (Component.description c0)
                       (Component.sourceUrl c0)
                       (Component.sourceCode c0) (Component.tags c0)
                       (Component.contentHash c0) (Component.isActive c0)
                       (Component.viewCount c0 + 1) (Component.createdAt c0)
                       (Component.updatedAt c0)
                else c0)
        with (fun x => if String.eqb (Component.id x) id then viewed x else x).
      rewrite (filter_map_key (fun c => String.eqb (Component.id c) id))
        by (intros; apply Hkey).
      destruct (List.filter _ (Db.components db)) as [|x rest]; [discriminate|].
      simpl in Hget. injection Hget as ->. cbn [map firstn].
      apply String.eqb_eq in Hcid. now rewrite Hcid.
    + intros other Hother.
      unfold ComponentService.getById, ComponentService.with_components.
      cbn [Db.components].
      change (fun c0 : Component.t =>
                if String.eqb (Component.id c0) id
                then Component.mk (Component.id c0) (Component.sourceWebsiteId c0)
                       (Component.componentTypeId c0) (Component.name c0)
                       (Component.slug c0) (Component.description c0)
                       (Component.sourceUrl c0)
                       (Component.sourceCode c0) (Component.tags c0)
                       (Component.contentHash c0) (Component.isActive c0)
                       (Component.viewCount c0 + 1) (Component.createdAt c0)
                       (Component.updatedAt c0)
                else c0)
        with (fun x => if String.eqb (Component.id x) id then viewed x else x).
      rewrite (filter_map_key (fun c => String.eqb (Component.id c) other))
        by (intros; apply Hkey).
      rewrite map_unchanged; [reflexivity|].
      intros x Hx. apply List.filter_In in Hx as [_ Hx]. apply String.eqb_eq in Hx.
      destruct (String.eqb (Component.id x) id) eqn:E; [|reflexivity].
      apply String.eqb_eq in E. congruence.
  - split; [exact Hget | reflexivity].
Qed.

Lemma get_component_counts_a_view_witness :
  (exists found, fst (ComponentDetail.getComponent Example.db "cmp-1") = Json 200 found
                 /\ ComponentDetail.component found = Example.tagged)
  /\ ComponentService.getById (snd (ComponentDetail.getComponent Example.db "cmp-1")) "cmp-1"
     = Some (viewed Example.tagged).
Proof.
  pose proof (get_component_counts_a_view Example.db "cmp-1" eq_refl) as H.
  change (ComponentService.getById Example.db "cmp-1") with (Some Example.tagged) in H.
  destruct H as (Hfound & Hview & _). split; [exact Hfound | exact Hview].
Defined.

(** ** The most viewed components *)

Lemma in_order_head {A} (le : A -> A -> bool) (a : A) (l : list A) :
  (forall x y z, le x y = true -> le y z = true -> le x z = true) ->
  in_order le (a :: l) -> forall b, In b l -> le a b = true.
Proof.
  intros Htrans. revert a. induction l as [|y l IH]; intros a H b Hb; [destruct Hb|].
  destruct H as [Hay H]. destruct Hb as [<- | Hb]; [exact Hay|].
  eapply Htrans; [exact Hay|]. now apply IH.
Qed.

(** In a sorted list each element of a prefix is in order with each
    element of the rest. *)
Lemma in_order_split {A} (le : A -> A -> bool) (n : nat) (l : list A) :
  (forall x y z, le x y = true -> le y z = true -> le x z = true) ->
  in_order le l ->
  forall a b, In a (firstn n l) -> In b (skipn n l) -> le a b = true.
Proof.
  intros Htrans. revert l. induction n as [|n IH]; intros [|x l] H a b Ha Hb;
    simpl in *; try contradiction.
  destruct Ha as [<- | Ha].
  - eapply in_order_head; eauto. eapply In_limited with (n := length l).
    rewrite List.firstn_all. clear -Hb. revert l Hb.
    induction n as [|n IH]; intros [|y l] Hb; simpl in *; auto.
  - eapply IH; eauto. now apply in_order_tail in H.
Qed.

(** X12.  [getPopular(limit)] with a limit that is not negative (and a
    safe integer) returns active components of the table, as many as the limit allows, by
    descending view count; no active component that is left out has more
    views than one that is returned. *)
Theorem popular_are_the_most_viewed db limit :
  0 <= limit <= max_safe_integer ->
  exists rows,
    ComponentService.getPopular db limit = Ok rows
    /\ length rows
       = Nat.min (Z.to_nat limit)
           (length (List.filter (fun c => Bool.eqb (Component.isActive c) true)
                      (Db.components db)))
    /\ (forall c, In c rows -> In c (Db.components db) /\ Component.isActive c = true)
    /\ in_order (fun a b => Component.viewCount b <=? Component.viewCount a) rows
    /\ (forall c r, In c (Db.components db) -> Component.isActive c = true ->
                    ~ In c rows -> In r rows ->
                    Component.viewCount c <= Component.viewCount r).
Proof.
  intros [Hl _]. unfold ComponentService.getPopular. rewrite limit_is_Some by exact Hl.
  set (active := List.filter (fun c => Bool.eqb (Component.isActive c) true)
                   (Db.components db)).
  set (le := ComponentService.orderBy ComponentService.popular).
  assert (Htrans : forall x y z, le x y = true -> le y z = true -> le x z = true).
  { unfold le. simpl. intros x y z Hxy Hyz. apply Z.leb_le. lia. }
  assert (Hsorted : in_order le (sort_by le active))
    by apply in_order_sort_by, orderBy_total.
  eexists. split; [reflexivity|]. split; [|split; [|split]].
  - now rewrite List.length_firstn, length_sort_by.
  - intros c Hc. apply In_limited, In_sort_by in Hc.
    apply List.filter_In in Hc as [Hc Ha]. split; [exact Hc|].
    now destruct (Component.isActive c).
  - now apply in_order_firstn.
  - intros c r Hc Ha Hout Hr.
    assert (Hrest : In c (skipn (Z.to_nat limit) (sort_by le active))).
    { assert (Hin : In c (sort_by le active)).
      { apply In_sort_by, List.filter_In. split; [exact Hc | now rewrite Ha]. }
      rewrite <- (List.firstn_skipn (Z.to_nat limit)) in Hin.
      apply in_app_or in Hin as [Hin | Hin]; [contradiction | exact Hin]. }
    pose proof (in_order_split le _ _ Htrans Hsorted r c Hr Hrest) as H.
    unfold le in H. simpl in H. lia.
Qed.

Lemma popular_are_the_most_viewed_witness :
  exists rows,
    ComponentService.getPopular Example.db 1 = Ok rows
    /\ length rows = 1%nat
    /\ (forall r, In r rows -> Component.viewCount Example.tagged <= Component.viewCount r).
Proof.
  destruct (popular_are_the_most_viewed Example.db 1) as (rows & Hget & Hlen & _ & _ & Hmost);
    [unfold max_safe_integer; lia|].
  exists rows. split; [exact Hget|]. split; [exact Hlen|].
  intros r Hr. apply Hmost; [now left | reflexivity | | exact Hr].
  vm_compute in Hget. injection Hget as <-. intros [H | []]. discriminate H.
Defined.

(** ** The query of a search as a pattern *)

Lemma lower_idempotent c : Sql.lower (Sql.lower c) = Sql.lower c.
Proof. destruct c as [[] [] [] [] [] [] [] []]; reflexivity. Qed.

Lemma lower_keeps_wildcards c :
  Ascii.eqb (Sql.lower c) "%" = Ascii.eqb c "%"
  /\ Ascii.eqb (Sql.lower c) "_" = Ascii.eqb c "_"
  /\ Ascii.eqb (Sql.lower c) "\" = Ascii.eqb c "\".
Proof. destruct c as [[] [] [] [] [] [] [] []]; repeat split. Qed.

Lemma like_cons c p s :
  Sql.like (c :: p) s =
  if Ascii.eqb c "%" then
    Sql.like p s || match s with [] => false | _ :: s' => Sql.like (c :: p) s' end
  else if Ascii.eqb c "_" then
    match s with [] => false | _ :: s' => Sql.like p s' end
  else if Ascii.eqb c "\" then
    match p with
    | [] => false
    | d :: p' => match s with
                 | [] => false
                 | e :: s' => Sql.ascii_ieqb d e && Sql.like p' s'
                 end
    end
  else
    match s with
    | [] => false
    | e :: s' => Sql.ascii_ieqb c e && Sql.like p s'
    end.
Proof.
  cbn [Sql.like].
  destruct (Ascii.eqb c "%"); [now destruct s|].
  destruct (Ascii.eqb c "_"); [reflexivity|].
  destruct (Ascii.eqb c "\"); [now destruct p | reflexivity].
Qed.

(** Folding the letters of a pattern to lower case does not change what
    it matches. *)
Lemma like_lower_pattern p s : Sql.like (map Sql.lower p) s = Sql.like p s.
Proof.
  remember (length p) as n eqn:Hn. revert p Hn s.
  induction n as [n IH] using lt_wf_ind. intros [|c p] Hn; [reflexivity|].
  simpl in Hn.
  assert (IHp : forall s, Sql.like (map Sql.lower p) s = Sql.like p s)
    by (intros s; apply (IH (length p)); [lia | reflexivity]).
  destruct (lower_keeps_wildcards c) as (Hpc & Hus & Hbs).
  induction s as [|e s IHs].
  - cbn [map]. rewrite !like_cons, Hpc, Hus, Hbs, IHp.
    destruct (Ascii.eqb c "%"); [reflexivity|].
    destruct (Ascii.eqb c "_"); [reflexivity|].
    destruct (Ascii.eqb c "\"); [now destruct p | reflexivity].
  - cbn [map] in *. rewrite (like_cons (Sql.lower c)), (like_cons c), Hpc, Hus, Hbs, !IHp.
    destruct (Ascii.eqb c "%"); [now rewrite IHs|].
    destruct (Ascii.eqb c "_"); [reflexivity|].
    destruct (Ascii.eqb c "\").
    + destruct p as [|d p]; [reflexivity|]. cbn [map].
      unfold Sql.ascii_ieqb. rewrite lower_idempotent. f_equal.
      apply (IH (length p)); [simpl in Hn; lia | reflexivity].
    + unfold Sql.ascii_ieqb. now rewrite lower_idempotent.
Qed.

Lemma like_same_folded p q s :
  map Sql.lower p = map Sql.lower q -> Sql.like p s = Sql.like q s.
Proof.
  intros H. now rewrite <- (like_lower_pattern p), <- (like_lower_pattern q), H.
Qed.

Lemma list_ascii_of_string_app a b :
  list_ascii_of_string (a +:+ b) = list_ascii_of_string a ++ list_ascii_of_string b.
Proof. induction a as [|c a IH]; simpl; [reflexivity | now rewrite IH]. Qed.

Lemma length_list_ascii s : length (list_ascii_of_string s) = String.length s.
Proof. induction s as [|c s IH]; simpl; [reflexivity | now rewrite IH]. Qed.

Lemma and_conditions_ext conds1 conds2 c :
  Forall2 (fun f g => f c = g c) conds1 conds2 ->
  and_conditions conds1 c = and_conditions conds2 c.
Proof.
  unfold and_conditions. induction 1 as [|f g l1 l2 Hfg _ IH]; simpl; [reflexivity|].
  now rewrite Hfg, IH.
Qed.

Lemma ilike_same_folded value q1 q2 before after :
  folded q1 = folded q2 ->
  Sql.ilike value (before +:+ q1 +:+ after) = Sql.ilike value (before +:+ q2 +:+ after).
Proof.
  unfold folded, Sql.ilike. intros H. apply like_same_folded.
  rewrite !list_ascii_of_string_app, !List.map_app. now rewrite H.
Qed.

Lemma searchConditions_same_folded q1 q2 c :
  folded q1 = folded q2 ->
  SearchService.searchConditions q1 c = SearchService.searchConditions q2 c.
Proof.
  intros H. unfold SearchService.searchConditions, Sql.ilike_nullable.
  rewrite (ilike_same_folded (Component.name c) q1 q2 "%" "%" H).
  rewrite (ilike_same_folded (Sql.jsonb_text (Component.tags c)) q1 q2 "%" "%" H).
  destruct (Component.description c) as [d|]; [|reflexivity].
  now rewrite (ilike_same_folded d q1 q2 "%" "%" H).
Qed.

Lemma conditions_same_folded db q1 q2 filter c :
  folded q1 = folded q2 ->
  and_conditions (SearchService.conditions db q1 filter) c
  = and_conditions (SearchService.conditions db q2 filter) c.
Proof.
  intros H. unfold SearchService.conditions.
  rewrite !and_conditions_app. f_equal. f_equal. f_equal.
  unfold and_conditions. simpl. now rewrite (searchConditions_same_folded q1 q2 c H).
Qed.

Lemma generateSuggestions_same_folded db q1 q2 :
  folded q1 = folded q2 ->
  SearchService.generateSuggestions db q1 = SearchService.generateSuggestions db q2.
Proof.
  intros H. unfold SearchService.generateSuggestions.
  assert (Hlen : String.length q1 = String.length q2).
  { rewrite <- !length_list_ascii.
    rewrite <- (List.length_map Sql.lower (list_ascii_of_string q1)).
    rewrite <- (List.length_map Sql.lower (list_ascii_of_string q2)).
    unfold folded in H. now rewrite H. }
  rewrite Hlen. destruct (_ <? 3); [reflexivity|].
  f_equal. f_equal. f_equal. apply List.filter_ext. intros c. f_equal.
  pose proof (ilike_same_folded (Component.name c) q1 q2 "" "%" H) as E.
  exact E.
Qed.

Lemma lower_zero c : Ascii.eqb Ascii.zero (Sql.lower c) = Ascii.eqb Ascii.zero c.
Proof. destruct c as [[] [] [] [] [] [] [] []]; reflexivity. Qed.

Lemma bindable_same_folded q1 q2 :
  folded q1 = folded q2 -> Sql.bindable q1 = Sql.bindable q2.
Proof.
  intros H. unfold Sql.bindable. f_equal.
  assert (Hl : forall l, existsb (Ascii.eqb Ascii.zero) (map Sql.lower l)
                         = existsb (Ascii.eqb Ascii.zero) l).
  { induction l as [|c l IH]; [reflexivity|]. cbn [map existsb].
    now rewrite lower_zero, IH. }
  rewrite <- (Hl (list_ascii_of_string q1)), <- (Hl (list_ascii_of_string q2)).
  unfold folded in H. now rewrite H.
Qed.

(** X13.  A search does not tell capital from small letters in the
    query: two queries that are the same once their letters A to Z are
    folded to lower case get the same results, the same total and the
    same suggestions, whatever the catalog, the limit and the filters,
    the rows taken as the database yields them, in the same order for
    both.  (The log row keeps the query as typed.) *)
Theorem search_ignores_letter_case db order startTime endTime q1 q2 limit filter sessionId :
  folded q1 = folded q2 ->
  outcome (SearchService.search db order startTime endTime q1 limit filter sessionId)
  = outcome (SearchService.search db order startTime endTime q2 limit filter sessionId).
Proof.
  intros H. unfold SearchService.search, SearchService.binds.
  rewrite (bindable_same_folded q1 q2 H).
  destruct (negb _); [reflexivity|].
  rewrite (List.filter_ext
             (fun r => and_conditions (SearchService.conditions db q1 filter) (fst (fst r)))
             (fun r => and_conditions (SearchService.conditions db q2 filter) (fst (fst r)))
             (fun r => conditions_same_folded db q1 q2 filter (fst (fst r)) H)).
  rewrite (generateSuggestions_same_folded db q1 q2 H).
  now destruct (Sql.limit _ _).
Qed.

Lemma search_ignores_letter_case_witness :
  outcome (SearchService.search Example.db [] 0 3 "BUTTON" 10 Example.noFilter None)
  = outcome (SearchService.search Example.db [] 0 3 "button" 10 Example.noFilter None)
  /\ returned (SearchService.search Example.db [] 0 3 "BUTTON" 10 Example.noFilter None)
     = [Example.tagged; Example.named].
Proof.
  split.
  - apply search_ignores_letter_case. reflexivity.
  - vm_compute. reflexivity.
Defined.

Lemma like_percents n s : Sql.like (repeat "%"%char (S n)) s = true.
Proof.
  induction n as [|n IH].
  - induction s as [|e s IHs]; cbn [repeat] in *; rewrite like_cons; cbn [Ascii.eqb].
    + reflexivity.
    + simpl. exact IHs.
  - change (repeat "%"%char (S (S n))) with ("%"%char :: repeat "%"%char (S n)).
    rewrite like_cons, IH. reflexivity.
Qed.

Lemma percents_bindable n :
  Sql.bindable (string_of_list_ascii (repeat "%"%char n)) = true.
Proof.
  unfold Sql.bindable. rewrite list_ascii_of_string_of_list_ascii.
  induction n as [|n IH]; [reflexivity|]. exact IH.
Qed.

(** X14.  The query is used as a LIKE pattern as it is typed: a percent
    sign in it is a wildcard.  So a query made of percent signs only
    matches every component: with source and type filters that can be
    bound, the search returns the first [limit] of the components that a
    browse with the same filters selects, taken in the order in which the
    database yields them; when no more than [limit] are selected, it
    returns them all. *)
Theorem percent_query_lists_the_catalog
    db order startTime endTime (n : nat) limit source type sessionId :
  joined_keys_unique db ->
  0 <= limit <= max_safe_integer ->
  Sql.optionally Sql.bindable source = true ->
  Sql.optionally Sql.bindable type = true ->
  returned (SearchService.search db order startTime endTime
              (string_of_list_ascii (repeat "%"%char n)) limit
              (SearchService.mkFilter source type) sessionId)
  = firstn (Z.to_nat limit)
      (Sql.yield order (browsed db (ComponentService.mkFilter source type None None)))
  /\ (Z.of_nat (length (browsed db (ComponentService.mkFilter source type None None)))
      <= limit ->
      returned (SearchService.search db order startTime endTime
                  (string_of_list_ascii (repeat "%"%char n)) limit
                  (SearchService.mkFilter source type) sessionId)
      ≡ₚ browsed db (ComponentService.mkFilter source type None None)).
Proof.
  intros Hkeys [Hn _] Hsrc Hty.
  assert (Hm : matching db (string_of_list_ascii (repeat "%"%char n))
                 (SearchService.mkFilter source type)
               = browsed db (ComponentService.mkFilter source type None None)).
  { unfold matching, browsed. apply List.filter_ext. intros c.
    unfold SearchService.conditions, ComponentService.conditions.
    rewrite !and_conditions_app.
    assert (Hq : and_conditions
                   [SearchService.searchConditions
                      (string_of_list_ascii (repeat "%"%char n))] c = true).
    { unfold and_conditions, SearchService.searchConditions, Sql.ilike. cbn [forallb].
      rewrite !list_ascii_of_string_app, list_ascii_of_string_of_list_ascii.
      change (list_ascii_of_string "%") with (repeat "%"%char 1).
      rewrite <- !List.repeat_app.
      now rewrite (like_percents (n + 1)). }
    rewrite Hq, !andb_true_r. reflexivity. }
  rewrite search_returned; [rewrite Hm | exact Hkeys | exact Hn |].
  - split; [reflexivity|]. intros Hall.
    rewrite List.firstn_all2 by (rewrite length_yield; lia).
    apply yield_Permutation.
  - unfold SearchService.binds. cbn [SearchService.source SearchService.type].
    now rewrite Hsrc, Hty, percents_bindable.
Qed.

Lemma percent_query_lists_the_catalog_witness :
  returned (SearchService.search Example.db [1%nat] 0 3 "%%" 10 Example.noFilter None)
  = [Example.named; Example.tagged].
Proof.
  destruct (percent_query_lists_the_catalog Example.db [1%nat] 0 3 2 10 None None None)
    as [H _].
  - split; apply (bool_decide_unpack _); vm_compute; exact I.
  - unfold max_safe_integer. lia.
  - reflexivity.
  - reflexivity.
  - change (string_of_list_ascii (repeat "%"%char 2)) with "%%" in H.
    change (SearchService.mkFilter None None) with Example.noFilter in H.
    rewrite H. vm_compute. reflexivity.
Defined.

(** ** The log of searches *)

(** X15.  Every search GET /api/search answers is logged once, under the
    session id of the x-session-id header or else a fresh uuid, with the
    query, the filters, the number of results returned and the response
    time; no other table changes.  Only a session header of more than
    100 characters, or one with a NUL byte in it, loses the row: the
    failed insert is swallowed and the search is answered all the
    same. *)
Theorem search_route_logs_the_search
    db order startTime endTime sessionHeader randomSession raw result db' :
  randomSession <> "" ->
  0 <= endTime - startTime <= 2147483647 ->
  Routes.getSearch db order startTime endTime sessionHeader randomSession raw
  = (Json 200 result, db') ->
  exists query,
    Schemas.searchQuerySchema raw = Ok query
    /\ let sessionId :=
         if truthy sessionHeader then default randomSession sessionHeader
         else randomSession in
       db' = if (100 <? Z.of_nat (String.length sessionId))
                || negb (Sql.bindable sessionId) then db
             else Db.mk (Db.sourceWebsites db) (Db.componentTypes db) (Db.components db)
                    (Db.crawlJobs db)
                    (Db.searchLogs db
                       ++ [Db.mkSearchLog (Schemas.q query)
                             (Schemas.source query, Schemas.type query)
                             (SearchService.total result) (endTime - startTime)
                             sessionId]).
Proof.
  intros Hrnd _. unfold Routes.getSearch, validate.
  destruct (Schemas.searchQuerySchema raw) as [query|issues] eqn:E; [|discriminate].
  pose proof (searchQuerySchema_Ok _ _ E) as [Hl Hq]. unfold Schemas.str_length in Hq.
  unfold SearchService.search.
  destruct (negb (SearchService.binds _ _)); [discriminate|].
  rewrite limit_is_Some by lia.
  intros [= <- <-]. exists query. split; [reflexivity|]. cbn zeta.
  cbn [SearchService.total].
  assert (Hlog : forall sid n,
             SearchService.logSearch db (Schemas.q query)
               (SearchService.mkFilter (Schemas.source query) (Schemas.type query))
               n (endTime - startTime) sid
             = if (100 <? Z.of_nat (String.length sid)) || negb (Sql.bindable sid) then db
               else Db.mk (Db.sourceWebsites db) (Db.componentTypes db) (Db.components db)
                      (Db.crawlJobs db)
                      (Db.searchLogs db
                         ++ [Db.mkSearchLog (Schemas.q query)
                               (Schemas.source query, Schemas.type query)
                               n (endTime - startTime) sid])).
  { intros sid n. unfold SearchService.logSearch.
    destruct (Z.ltb_spec 500 (Z.of_nat (String.length (Schemas.q query)))); [lia|].
    reflexivity. }
  destruct (truthy sessionHeader) eqn:Eh.
  - destruct sessionHeader as [h|]; [|discriminate]. unfold truthy in Eh.
    cbv beta iota. rewrite Eh. apply Hlog.
  - assert (Ht : negb (String.eqb randomSession "") = true)
      by (apply negb_true_iff, String.eqb_neq; exact Hrnd).
    cbv beta iota. rewrite Ht. apply Hlog.
Qed.

Lemma search_route_logs_the_search_witness :
  exists result db',
    Routes.getSearch Example.db [] 0 3 None "session-1"
      (Schemas.mkRawSearch (Schemas.Str "button") Schemas.Undefined Schemas.Undefined
         Schemas.Missing) = (Json 200 result, db')
    /\ Db.searchLogs db' = [Db.mkSearchLog "button" (None, None) 2 3 "session-1"].
Proof.
  destruct (Routes.getSearch Example.db [] 0 3 None "session-1"
              (Schemas.mkRawSearch (Schemas.Str "button") Schemas.Undefined
                 Schemas.Undefined Schemas.Missing))
    as [[status result|e] db'] eqn:E; [|vm_compute in E; discriminate].
  assert (Hs : status = 200) by (vm_compute in E; congruence). subst status.
  exists result, db'. split; [reflexivity|].
  destruct (search_route_logs_the_search Example.db [] 0 3 None "session-1" _ result db'
              ltac:(discriminate) ltac:(lia) E) as (query & Hq & Hdb).
  vm_compute in Hq. injection Hq as <-.
  rewrite Hdb. vm_compute in E. injection E as <- _. reflexivity.
Defined.

(** ** Suggestions *)

Lemma In_distinct x l : In x (SearchService.distinct l) <-> In x l.
Proof.
  induction l as [|y l IH]; simpl; [reflexivity|].
  rewrite List.filter_In, IH. split.
  - intros [H | [H _]]; auto.
  - intros [H | H]; [now left|].
    destruct (String.eqb y x) eqn:E.
    + left. now apply String.eqb_eq.
    + right. split; [exact H | reflexivity].
Qed.

Lemma NoDup_filter_list {A} (p : A -> bool) (l : list A) :
  List.NoDup l -> List.NoDup (List.filter p l).
Proof.
  induction 1 as [|x l Hx _ IH]; simpl; [constructor|].
  destruct (p x); [|exact IH]. constructor; [|exact IH].
  intros H. apply Hx. now apply List.filter_In in H.
Qed.

Lemma NoDup_distinct l : List.NoDup (SearchService.distinct l).
Proof.
  induction l as [|x l IH]; simpl; constructor.
  - intros H. apply List.filter_In in H as [_ H].
    now rewrite String.eqb_refl in H.
  - now apply NoDup_filter_list.
Qed.

Lemma NoDup_firstn_list {A} (n : nat) (l : list A) :
  List.NoDup l -> List.NoDup (firstn n l).
Proof.
  intros H. revert n. induction H as [|x l Hx _ IH]; intros [|n]; simpl; try constructor.
  - intros Hin. apply Hx. now apply In_limited in Hin.
  - apply IH.
Qed.

(** X16.  The suggestions of a search: none for a query of fewer than 3
    characters; otherwise at most five names, no name twice, each the
    name of an active component that matches the query followed by the
    wildcard; and a matching name is left out only when five others are
    suggested. *)
Theorem suggestions_are_distinct_active_names db query :
  (length (SearchService.generateSuggestions db query) <= 5)%nat
  /\ List.NoDup (SearchService.generateSuggestions db query)
  /\ (forall n, In n (SearchService.generateSuggestions db query) ->
        exists c, In c (Db.components db)
                  /\ Component.isActive c = true
                  /\ Component.name c = n
                  /\ Sql.ilike n (query +:+ "%") = true)
  /\ (Z.of_nat (String.length query) < 3 -> SearchService.generateSuggestions db query = [])
  /\ (forall c, 3 <= Z.of_nat (String.length query) ->
        In c (Db.components db) -> Component.isActive c = true ->
        Sql.ilike (Component.name c) (query +:+ "%") = true ->
        In (Component.name c) (SearchService.generateSuggestions db query)
        \/ length (SearchService.generateSuggestions db query) = 5%nat).
Proof.
  unfold SearchService.generateSuggestions.
  destruct (Z.ltb_spec (Z.of_nat (String.length query)) 3) as [Hshort | Hlong].
  - split; [simpl; lia|]. split; [constructor|]. split; [intros n []|].
    split; [reflexivity|]. intros c H. lia.
  - set (names := SearchService.distinct _).
    split; [rewrite List.length_firstn; lia|].
    split; [apply NoDup_firstn_list, NoDup_distinct|].
    split; [|split; [lia|]].
    + intros n Hn. apply In_limited in Hn. subst names.
      apply In_distinct, in_map_iff in Hn as (c & Hname & Hc).
      apply List.filter_In in Hc as [Hc Hcond].
      apply andb_true_iff in Hcond as [Hact Hlike].
      exists c. split; [exact Hc|]. split; [now destruct (Component.isActive c)|].
      split; [exact Hname | now rewrite <- Hname].
    + intros c _ Hc Hact Hlike.
      assert (Hin : In (Component.name c) names).
      { subst names. apply In_distinct, in_map. apply List.filter_In.
        split; [exact Hc|]. now rewrite Hact, Hlike. }
      destruct (Nat.le_gt_cases (length names) 5) as [Hle | Hgt].
      * left. now rewrite List.firstn_all2.
      * right. rewrite List.length_firstn. lia.
Qed.

Example suggestions_of_but :
  SearchService.generateSuggestions Example.db "but" = ["Button"]
  /\ SearchService.generateSuggestions Example.db "bu" = [].
Proof. vm_compute. split; reflexivity. Qed.

(** ** The crawl routes *)




(** X18.  A job that POST /api/crawl/trigger answered with is the job
    GET /api/crawl/status/:id returns for its id; the status of every
    other id is as before the trigger; an id that no job carries is a
    404. *)
Theorem status_of_a_triggered_job db expectedKey apiKey id now raw job db' :
  CrawlRoutes.postTrigger db expectedKey apiKey id now raw = (Json 201 job, db') ->
  CrawlRoutes.getStatus db' (CrawlJob.id job) = Json 200 job
  /\ (forall other, other <> CrawlJob.id job ->
                    CrawlRoutes.getStatus db' other = CrawlRoutes.getStatus db other)
  /\ status_of (CrawlRoutes.getStatus db (CrawlJob.id job)) = 404.
Proof.
  unfold CrawlRoutes.postTrigger, validate.
  destruct (CrawlRoutes.requireApiKey expectedKey apiKey); [|discriminate].
  destruct (Schemas.crawlTriggerSchema raw) as [body|issues]; [|discriminate].
  destruct (CrawlRoutes.triggerCrawl db id now (Schemas.sourceSlug body) (Schemas.force body))
    as [[job0 db0]|e] eqn:Et; [|discriminate].
  intros [= <- <-]. apply triggerCrawl_stored in Et as (Hid & _ & -> & Hnone).
  unfold CrawlRoutes.getStatus, CrawlRoutes.with_crawlJobs. cbn [Db.crawlJobs].
  rewrite Hid. split; [|split].
  - rewrite List.filter_app, Hnone. cbn [List.filter app].
    now rewrite Hid, String.eqb_refl.
  - intros other Hother. rewrite List.filter_app. cbn [List.filter].
    rewrite Hid. destruct (String.eqb id other) eqn:E.
    + apply String.eqb_eq in E. congruence.
    + now rewrite List.app_nil_r.
  - now rewrite Hnone.
Qed.

Lemma status_of_a_triggered_job_witness :
  exists job db',
    CrawlRoutes.postTrigger Example.db (Some "key") (Some "key") "job-2" 2000
      (Schemas.mkRawTrigger (Schemas.Str "shadcn-ui") Schemas.Undefined) = (Json 201 job, db')
    /\ CrawlRoutes.getStatus db' "job-2" = Json 200 job
    /\ CrawlRoutes.getStatus db' "job-1" = Json 200 Example.staleJob.
Proof.
  destruct (CrawlRoutes.postTrigger Example.db (Some "key") (Some "key") "job-2" 2000
              (Schemas.mkRawTrigger (Schemas.Str "shadcn-ui") Schemas.Undefined))
    as [[status job|e] db'] eqn:E; [|vm_compute in E; discriminate].
  assert (Hs : status = 201) by (vm_compute in E; congruence). subst status.
  assert (Hid : CrawlJob.id job = "job-2") by (vm_compute in E; now injection E as <- _).
  exists job, db'. split; [reflexivity|].
  destruct (status_of_a_triggered_job _ _ _ _ _ _ _ _ E) as (Hget & Hother & _).
  rewrite Hid in Hget, Hother. split; [exact Hget|].
  rewrite Hother by discriminate. reflexivity.
Defined.

(** ** Platform statistics *)

Lemma getPopular_ten db :
  exists popular,
    ComponentService.getPopular db 10 = Ok popular
    /\ (length popular <= 10)%nat
    /\ forall c, In c popular -> In c (Db.components db) /\ Component.isActive c = true.
Proof.
  unfold ComponentService.getPopular. rewrite limit_is_Some by lia.
  eexists. split; [reflexivity|]. split.
  - rewrite List.length_firstn. lia.
  - intros c Hc. apply In_limited, In_sort_by, List.filter_In in Hc as [Hc Ha].
    split; [exact Hc | now destruct (Component.isActive c)].
Qed.



Lemma sql_max_spec values :
  match StatsService.sql_max values with
  | Some m => In m values /\ forall v, In v values -> v <= m
  | None => values = []
  end.
Proof.
  induction values as [|v l IH]; simpl; [reflexivity|].
  destruct (StatsService.sql_max l) as [m|].
  - destruct IH as [Hm Hall]. split.
    + destruct (Z.max_spec v m) as [[_ ->] | [_ ->]]; auto.
    + intros w [<- | Hw]; [lia|]. specialize (Hall w Hw). lia.
  - subst l. split; [now left|]. intros w [<- | []]. lia.
Qed.

Lemma filter_disjoint_length {A} (p q : A -> bool) (l : list A) :
  (forall x, p x = true -> q x = false) ->
  (length (List.filter p l) + length (List.filter q l) <= length l)%nat.
Proof.
  intros H. induction l as [|x l IH]; simpl; [lia|].
  destruct (p x) eqn:Ep; [rewrite (H x Ep)|destruct (q x)]; simpl; lia.
Qed.

(** X20.  The statistics computed with details agree with the rest of
    the service: [totalComponents] is the total the default browse
    reports; [totalSources] counts the active sources; the popular
    components are at most ten, active, and by descending view count;
    no component was updated after [lastUpdateTime], which is the
    update time of some component; and the successful and failed crawls
    together are at most all crawls. *)
Theorem fresh_stats_agree_with_catalog db :
  exists stats popular crawls,
    StatsService.compute db true = Ok stats
    /\ StatsService.totalComponents stats
       = Z.of_nat (length (browsed db (ComponentService.mkFilter None None None None)))
    /\ StatsService.totalSources stats = Z.of_nat (length (SourcesRoutes.getAll db))
    /\ StatsService.totalTypes stats = Z.of_nat (length (Db.componentTypes db))
    /\ StatsService.popularComponents stats = Some popular
    /\ ComponentService.getPopular db 10 = Ok popular
    /\ (length popular <= 10)%nat
    /\ (forall c, In c popular -> In c (Db.components db) /\ Component.isActive c = true)
    /\ (forall c, In c (Db.components db) ->
          exists t, StatsService.lastUpdateTime stats = Some t /\ Component.updatedAt c <= t)
    /\ (forall t, StatsService.lastUpdateTime stats = Some t ->
          exists c, In c (Db.components db) /\ Component.updatedAt c = t)
    /\ StatsService.crawlStats stats = Some crawls
    /\ 0 <= StatsService.successfulCrawls crawls
    /\ 0 <= StatsService.failedCrawls crawls
    /\ StatsService.successfulCrawls crawls + StatsService.failedCrawls crawls
       <= StatsService.totalCrawls crawls.
Proof.
  destruct (getPopular_ten db) as (popular & Hpop & Hlen & Hact).
  unfold StatsService.compute. rewrite Hpop.
  eexists. exists popular, (StatsService.getCrawlStats db).
  split; [reflexivity|]. cbn [StatsService.totalComponents StatsService.totalSources
    StatsService.totalTypes StatsService.popularComponents StatsService.lastUpdateTime
    StatsService.crawlStats].
  split; [|split; [reflexivity|]; split; [reflexivity|]; split; [reflexivity|];
           split; [reflexivity|]; split; [exact Hlen|]; split; [exact Hact|]].
  - do 2 f_equal. unfold browsed. apply List.filter_ext. intros c.
    unfold and_conditions. simpl. now rewrite andb_true_r.
  - pose proof (sql_max_spec (map Component.updatedAt (Db.components db))) as Hmax.
    split; [|split].
    + intros c Hc. destruct (StatsService.sql_max _) as [m|].
      * exists m. split; [reflexivity|]. apply Hmax. now apply in_map.
      * apply (in_map Component.updatedAt) in Hc. rewrite Hmax in Hc. destruct Hc.
    + intros t Ht. rewrite Ht in Hmax. destruct Hmax as [Hin _].
      apply in_map_iff in Hin as (c & Hc & Hin). now exists c.
    + split; [reflexivity|]. unfold StatsService.getCrawlStats.
      cbn [StatsService.successfulCrawls StatsService.failedCrawls StatsService.totalCrawls].
      pose proof (filter_disjoint_length
                    (fun j => CrawlJob.status_eqb (CrawlJob.status j) CrawlJob.success)
                    (fun j => CrawlJob.status_eqb (CrawlJob.status j) CrawlJob.failed)
                    (Db.crawlJobs db)) as Hd.
      split; [lia|]. split; [lia|].
      assert (Hdis : forall j,
                 CrawlJob.status_eqb (CrawlJob.status j) CrawlJob.success = true ->
                 CrawlJob.status_eqb (CrawlJob.status j) CrawlJob.failed = false)
        by (intros j; now destruct (CrawlJob.status j)).
      specialize (Hd Hdis). lia.
Qed.

(** ** The components of one source and of one type *)









Lemma type_getBySlug_In db slug type :
  ComponentTypeService.getBySlug db slug = Some type ->
  In type (Db.componentTypes db) /\ ComponentType.slug type = slug.
Proof.
  unfold ComponentTypeService.getBySlug.
  destruct (List.filter _ (Db.componentTypes db)) as [|t rest] eqn:E; [discriminate|].
  simpl. intros [= ->].
  assert (H : In type (List.filter (fun t => String.eqb (ComponentType.slug t) slug)
                         (Db.componentTypes db))) by (rewrite E; now left).
  apply List.filter_In in H as [H1 H2]. split; [exact H1 | now apply String.eqb_eq].
Qed.




(** ** Component types *)




(** X23.  [findOrCreate(name, slug)] never makes a second type for a
    slug.  When a type carries the slug (the one given, or else the one
    made from the name) it is returned and nothing is stored; otherwise
    one type is added, with that slug, the name and display order 999.
    Either way the same call made again returns the same type and
    stores nothing. *)
Theorem findOrCreate_once db randomId name slug type db' :
  ComponentTypeService.findOrCreate db randomId name slug = Ok (type, db') ->
  let typeSlug := if truthy slug then default "" slug else ComponentTypeService.slugOf name in
  ComponentType.slug type = typeSlug
  /\ ComponentTypeService.getBySlug db' typeSlug = Some type
  /\ (forall randomId',
        ComponentTypeService.findOrCreate db' randomId' name slug = Ok (type, db'))
  /\ match ComponentTypeService.getBySlug db typeSlug with
     | Some found => type = found /\ db' = db
     | None =>
         db' = ComponentTypeService.with_componentTypes db (Db.componentTypes db ++ [type])
         /\ ComponentType.name type = name
         /\ ComponentType.displayOrder type = 999
     end.
Proof.
  unfold ComponentTypeService.findOrCreate. cbn zeta.
  set (typeSlug := if truthy slug then default "" slug else ComponentTypeService.slugOf name).
  destruct (ComponentTypeService.getBySlug db typeSlug) as [found|] eqn:Eget.
  - intros [= <- <-]. rewrite Eget.
    destruct (type_getBySlug_In _ _ _ Eget) as [_ Hslug]. now repeat split.
  - unfold ComponentTypeService.create.
    destruct (ComponentTypeService.insert_ok db _); [|discriminate].
    intros [= <- <-].
    cbn [ComponentType.slug ComponentType.name ComponentType.displayOrder
         ComponentTypeService.new_id ComponentTypeService.new_name
         ComponentTypeService.new_slug ComponentTypeService.new_displayOrder].
    assert (Hfound : ComponentTypeService.getBySlug
                       (ComponentTypeService.with_componentTypes db
                          (Db.componentTypes db
                             ++ [ComponentType.mk randomId name typeSlug 999]))
                       typeSlug
                     = Some (ComponentType.mk randomId name typeSlug 999)).
    { unfold ComponentTypeService.getBySlug in *.
      unfold ComponentTypeService.with_componentTypes. cbn [Db.componentTypes].
      rewrite List.filter_app.
      destruct (List.filter _ (Db.componentTypes db)) as [|x rest]; [|discriminate].
      cbn [List.filter app ComponentType.slug]. now rewrite String.eqb_refl. }
    split; [reflexivity|]. split; [exact Hfound|].
    split; [|now repeat split].
    intros randomId'. now rewrite Hfound.
Qed.

Lemma findOrCreate_once_witness :
  exists type db',
    ComponentTypeService.findOrCreate Example.db "type-3" "Date Picker" None = Ok (type, db')
    /\ ComponentType.slug type = "date-picker"
    /\ ComponentTypeService.findOrCreate db' "type-4" "Date Picker" None = Ok (type, db').
Proof.
  destruct (ComponentTypeService.findOrCreate Example.db "type-3" "Date Picker" None)
    as [[type db']|e] eqn:E; [|vm_compute in E; discriminate].
  exists type, db'. split; [reflexivity|].
  destruct (findOrCreate_once _ _ _ _ _ _ E) as (Hslug & _ & Hagain & _).
  split; [exact Hslug | apply Hagain].
Defined.

(** ** Counts by source and by type *)

Lemma countByName_lookup {A} (name : A -> string) (rows : list (Component.t * option A)) n :
  n <> "" ->
  StatsService.countByName name rows !! n
  = count_entry
      (length (List.filter (fun r => match snd r with
                                     | Some j => String.eqb (name j) n
                                     | None => false
                                     end) rows)).
Proof.
  intros Hn. induction rows as [|r rows IH]; [apply lookup_empty|].
  unfold StatsService.countByName in *. cbn [fold_right List.filter].
  destruct (snd r) as [j|]; [|exact IH].
  destruct (truthy (Some (name j))) eqn:Et.
  - destruct (String.eqb (name j) n) eqn:E.
    + apply String.eqb_eq in E. rewrite E, lookup_insert_eq, IH. cbn [length].
      destruct (length _) as [|k]; simpl count_entry; simpl default; f_equal; lia.
    + apply String.eqb_neq in E. now rewrite lookup_insert_ne.
  - unfold truthy in Et. apply negb_false_iff, String.eqb_eq in Et.
    destruct (String.eqb (name j) n) eqn:E; [|exact IH].
    apply String.eqb_eq in E. congruence.
Qed.

Lemma countByName_no_empty_name {A} (name : A -> string)
    (rows : list (Component.t * option A)) :
  StatsService.countByName name rows !! "" = None.
Proof.
  induction rows as [|r rows IH]; [apply lookup_empty|].
  unfold StatsService.countByName in *. cbn [fold_right].
  destruct (snd r) as [j|]; [|exact IH].
  destruct (truthy (Some (name j))) eqn:Et; [|exact IH].
  unfold truthy in Et. apply negb_true_iff, String.eqb_neq in Et.
  now rewrite lookup_insert_ne.
Qed.

Lemma existsb_filter {A} (p q : A -> bool) (l : list A) :
  existsb (fun x => p x && q x) l = existsb q (List.filter p l).
Proof.
  induction l as [|x l IH]; simpl; [reflexivity|].
  destruct (p x); simpl; now rewrite IH.
Qed.

(** With a key on the joined table, the joined rows of the active left
    rows whose match passes a test are as many as the active left rows
    with a match that passes it. *)
Lemma joined_count {B} (key : B -> string) (ref : Component.t -> string)
    (q : B -> bool) (comps : list Component.t) (right : list B) :
  NoDup (map key right) ->
  length (List.filter (fun r : Component.t * option B =>
                         match snd r with Some j => q j | None => false end)
            (StatsService.activeJoined
               (Sql.leftJoin (fun c b => String.eqb (ref c) (key b)) comps right)))
  = length (List.filter
              (fun c => Bool.eqb (Component.isActive c) true
                        && existsb (fun b => String.eqb (ref c) (key b) && q b) right)
              comps).
Proof.
  intros Hkey. unfold StatsService.activeJoined.
  induction comps as [|c comps IH]; [reflexivity|].
  rewrite leftJoin_cons, !List.filter_app, List.length_app, IH. clear IH.
  cbn [List.filter]. rewrite existsb_filter.
  pose proof (unique_match key (ref c) right Hkey) as Hone.
  destruct (List.filter (fun b => String.eqb (ref c) (key b)) right) as [|b [|b' ms]];
    cbn [length] in Hone; [| |lia].
  - cbn [List.filter fst existsb]. rewrite andb_false_r.
    destruct (Bool.eqb (Component.isActive c) true); reflexivity.
  - cbn [map List.filter fst snd existsb]. rewrite orb_false_r.
    destruct (Bool.eqb (Component.isActive c) true); cbn [List.filter snd andb];
      [|reflexivity].
    destruct (q b); reflexivity.
Qed.

(** X24.  With the primary keys of the sources and the types in place,
    the detailed statistics count, under each source name, the active
    components of the sources with that name, and under each type name
    the active components of the types with that name; a name with no
    active component has no entry (it is not listed with 0), and
    neither has the empty name.  (The name [__proto__], which is no
    ordinary key of a JavaScript object, is left aside.) *)
Theorem stats_count_active_components_by_name db :
  joined_keys_unique db ->
  exists stats bySource byType,
    StatsService.compute db true = Ok stats
    /\ StatsService.componentsBySource stats = Some bySource
    /\ StatsService.componentsByType stats = Some byType
    /\ bySource !! "" = None
    /\ byType !! "" = None
    /\ (forall name, name <> "" -> name <> "__proto__" ->
          bySource !! name = count_entry (length (active_of_source_named db name)))
    /\ (forall name, name <> "" -> name <> "__proto__" ->
          byType !! name = count_entry (length (active_of_type_named db name))).
Proof.
  intros [Hsources Htypes].
  destruct (getPopular_ten db) as (popular & Hpop & _).
  unfold StatsService.compute. rewrite Hpop.
  eexists. eexists. eexists. split; [reflexivity|].
  cbn [StatsService.componentsBySource StatsService.componentsByType].
  split; [reflexivity|]. split; [reflexivity|].
  split; [apply countByName_no_empty_name|].
  split; [apply countByName_no_empty_name|]. split.
  - intros name Hname _. rewrite countByName_lookup by exact Hname. f_equal.
    apply (joined_count SourceWebsite.id Component.sourceWebsiteId
             (fun s => String.eqb (SourceWebsite.name s) name)
             (Db.components db) (Db.sourceWebsites db) Hsources).
  - intros name Hname _. rewrite countByName_lookup by exact Hname. f_equal.
    apply (joined_count ComponentType.id Component.componentTypeId
             (fun t => String.eqb (ComponentType.name t) name)
             (Db.components db) (Db.componentTypes db) Htypes).
Qed.

Lemma stats_count_active_components_by_name_witness :
  exists stats bySource,
    StatsService.compute Example.db true = Ok stats
    /\ StatsService.componentsBySource stats = Some bySource
    /\ bySource !! "shadcn/ui" = Some 2
    /\ bySource !! "Magic UI" = None.
Proof.
  destruct (stats_count_active_components_by_name Example.db)
    as (stats & bySource & byType & Hc & Hs & _ & _ & _ & Hcount & _).
  - split; apply (bool_decide_unpack _); vm_compute; exact I.
  - exists stats, bySource. split; [exact Hc|]. split; [exact Hs|].
    split; rewrite Hcount by discriminate; reflexivity.
Defined.

(** ** The relations of a component *)

(** X25.  With the constraints of [components] in place (its foreign
    keys in particular), what [getByIdWithRelations] returns for a
    component always carries a source and a type, and they are rows of
    their tables with the ids the component refers to. *)
Theorem component_detail_carries_its_relations db id found :
  components_valid db ->
  ComponentDetail.getByIdWithRelations db id = Some found ->
  Component.id (ComponentDetail.component found) = id
  /\ In (ComponentDetail.component found) (Db.components db)
  /\ (exists source,
        ComponentDetail.sourceWebsite found = Some source
        /\ In source (Db.sourceWebsites db)
        /\ SourceWebsite.id source
           = Component.sourceWebsiteId (ComponentDetail.component found))
  /\ (exists type,
        ComponentDetail.componentType found = Some type
        /\ In type (Db.componentTypes db)
        /\ ComponentType.id type
           = Component.componentTypeId (ComponentDetail.component found)).
Proof.
  intros [_ Hrows]. unfold ComponentDetail.getByIdWithRelations.
  destruct (List.filter _ (SearchService.joinedRows db)) as [|r rest] eqn:E;
    [discriminate|].
  cbn [firstn]. intros [= <-].
  cbn [ComponentDetail.component ComponentDetail.sourceWebsite
       ComponentDetail.componentType].
  assert (Hr : In r (List.filter (fun r => String.eqb (Component.id (fst (fst r))) id)
                       (SearchService.joinedRows db))) by (rewrite E; now left).
  apply List.filter_In in Hr as [Hr Hid]. apply String.eqb_eq in Hid.
  unfold SearchService.joinedRows in Hr.
  apply leftJoin_In in Hr as [Hinner Htype].
  apply leftJoin_In in Hinner as [Hc Hsource].
  pose proof (proj1 (forallb_forall _ _) Hrows _ Hc) as Hok.
  unfold ComponentService.row_ok in Hok.
  apply andb_true_iff in Hok as [Hok _]. apply andb_true_iff in Hok as [Hok _].
  apply andb_true_iff in Hok as [Hok _]. apply andb_true_iff in Hok as [Hok _].
  apply andb_true_iff in Hok as [Hfs Hft].
  apply existsb_exists in Hfs as (s & Hs & Hsid).
  apply existsb_exists in Hft as (t & Ht & Htid).
  split; [exact Hid|]. split; [exact Hc|]. split.
  - destruct (snd (fst r)) as [source|].
    + destruct Hsource as [Hin Hon]. exists source. split; [reflexivity|].
      split; [exact Hin|]. apply String.eqb_eq in Hon. now symmetry.
    + specialize (Hsource s Hs). apply String.eqb_eq in Hsid.
      apply String.eqb_neq in Hsource. congruence.
  - destruct (snd r) as [type|].
    + destruct Htype as [Hin Hon]. exists type. split; [reflexivity|].
      split; [exact Hin|]. apply String.eqb_eq in Hon. now symmetry.
    + specialize (Htype t Ht). apply String.eqb_eq in Htid.
      apply String.eqb_neq in Htype. congruence.
Qed.

Lemma component_detail_carries_its_relations_witness :
  exists found,
    ComponentDetail.getByIdWithRelations Example.db "cmp-2" = Some found
    /\ ComponentDetail.sourceWebsite found = Some Example.shadcn
    /\ ComponentDetail.componentType found = Some Example.buttonType.
Proof.
  destruct (ComponentDetail.getByIdWithRelations Example.db "cmp-2") as [found|] eqn:E;
    [|vm_compute in E; discriminate].
  exists found. split; [reflexivity|].
  destruct (component_detail_carries_its_relations Example.db "cmp-2" found)
    as (_ & _ & (source & Hs & _) & (type & Ht & _)).
  - split; vm_compute; reflexivity.
  - exact E.
  - vm_compute in E. injection E as <-. split; reflexivity.
Defined.
